(** * CHGNet: batching, readout and derivative pipeline

    A shallow embedding of [chgnet/model/model.py]: the classes [CHGNet],
    [AtomEmbedding], [BondEncoder], [AngleEncoder] and [BatchedGraph].

    Conventions of the embedding.
    - Scalars of floating tensors are real numbers ([R]): rounding is
      abstracted, so equalities between floating results are equalities of
      the exact values.
    - Integer tensors hold [Z]; a tensor of shape [n, 3] is a list of
      triples, a tensor of shape [3, 3] a triple of triples, a feature
      tensor of shape [n, d] a list of rows.
    - The one floating operation the sources guard against rounding, the
      product by [1 - 1e-6] in [AngleEncoder.forward], is also given in
      binary32 ([Float32]), on the IEEE 754 specification of the standard
      library.
    - A Python exception is a [Raise]; every function that can raise
      returns a [result].
    - The classes imported from modules that are not part of the sources
      ([chgnet.model.basis], [chgnet.model.layers],
      [chgnet.model.functions]) and the automatic differentiation of torch
      are interfaces (type classes); a theorem holds for every instance. *)

From Stdlib Require Import String Ascii.
From Stdlib Require Import Reals Lra Lia ZArith Bool Arith List SpecFloat.
From Stdlib Require Import FunctionalExtensionality.
Import ListNotations.

Set Implicit Arguments.

(** ** Exceptions *)

Inductive exn : Type :=
| AssertionError (msg : string)
| IndexError
| RuntimeError
| TypeError.

Inductive result (A : Type) : Type :=
| Ok (a : A)
| Raise (e : exn).

Arguments Ok {A} a.
Arguments Raise {A} e.

Definition bind {A B : Type} (m : result A) (k : A -> result B) : result B :=
  match m with
  | Ok a => k a
  | Raise e => Raise e
  end.

Declare Scope result_scope.
Delimit Scope result_scope with result.
Notation "x <- m ;; k" := (bind m (fun x => k))
  (at level 61, m at next level, right associativity) : result_scope.
Notation "' pat <- m ;; k" := (bind m (fun x => match x with pat => k end))
  (at level 61, pat pattern, m at next level, right associativity) : result_scope.
Open Scope result_scope.

Fixpoint mapM {A B : Type} (f : A -> result B) (l : list A) : result (list B) :=
  match l with
  | [] => Ok []
  | a :: l' => b <- f a ;; bs <- mapM f l' ;; Ok (b :: bs)
  end.

Fixpoint foldM {A S : Type} (f : S -> A -> result S) (l : list A) (s : S) : result S :=
  match l with
  | [] => Ok s
  | a :: l' => s' <- f s a ;; foldM f l' s'
  end.

(** [enumerate l] pairs every element with its position, from 0. *)
Definition enumerate {A : Type} (l : list A) : list (nat * A) :=
  combine (seq 0 (length l)) l.

(** ** Tensors *)

Definition Vec : Type := list R.
Definition Mat : Type := list Vec.
Definition Vec3 : Type := (R * R * R)%type.
Definition Mat3 : Type := (Vec3 * Vec3 * Vec3)%type.

Module Tensor.

Local Open Scope R_scope.

Definition len {A : Type} (l : list A) : Z := Z.of_nat (length l).

Definition add3 (u v : Vec3) : Vec3 :=
  let '(a, b, c) := u in let '(x, y, z) := v in (a + x, b + y, c + z).

Definition sub3 (u v : Vec3) : Vec3 :=
  let '(a, b, c) := u in let '(x, y, z) := v in (a - x, b - y, c - z).

Definition mul3 (u v : Vec3) : Vec3 :=
  let '(a, b, c) := u in let '(x, y, z) := v in (a * x, b * y, c * z).

Definition scale3 (k : R) (u : Vec3) : Vec3 :=
  let '(a, b, c) := u in (a * k, b * k, c * k).

Definition div3 (u : Vec3) (k : R) : Vec3 :=
  let '(a, b, c) := u in (a / k, b / k, c / k).

Definition sum3 (u : Vec3) : R :=
  let '(a, b, c) := u in a + b + c.

(** [torch.norm(v, dim=1)] on one row. *)
Definition norm3 (u : Vec3) : R := sqrt (sum3 (mul3 u u)).

(** Row vector times matrix: one row of [x @ m]. *)
Definition row_matmul (u : Vec3) (m : Mat3) : Vec3 :=
  let '(a, b, c) := u in
  let '(r0, r1, r2) := m in
  add3 (add3 (scale3 a r0) (scale3 b r1)) (scale3 c r2).

(** [x @ m] for [x] of shape [n, 3]. *)
Definition matmul_rows (x : list Vec3) (m : Mat3) : list Vec3 :=
  map (fun u => row_matmul u m) x.

(** [a @ b] for two 3 x 3 matrices. *)
Definition matmul3 (a b : Mat3) : Mat3 :=
  let '(r0, r1, r2) := a in
  (row_matmul r0 b, row_matmul r1 b, row_matmul r2 b).

Definition map_mat3 (f : R -> R) (m : Mat3) : Mat3 :=
  let '((a, b, c), (d, e, g), (h, i, j)) := m in
  ((f a, f b, f c), (f d, f e, f g), (f h, f i, f j)).

Definition add_mat3 (a b : Mat3) : Mat3 :=
  let '(r0, r1, r2) := a in let '(s0, s1, s2) := b in
  (add3 r0 s0, add3 r1 s1, add3 r2 s2).

Definition eye3 : Mat3 := ((1, 0, 0), (0, 1, 0), (0, 0, 1)).
Definition zeros3 : Mat3 := ((0, 0, 0), (0, 0, 0), (0, 0, 0)).

(** [torch.det] of a 3 x 3 matrix. *)
Definition det (m : Mat3) : R :=
  let '((a, b, c), (d, e, f), (g, h, i)) := m in
  a * (e * i - f * h) - b * (d * i - f * g) + c * (d * h - e * g).

Definition sum (v : Vec) : R := fold_right Rplus 0 v.

Definition dot (u v : Vec) : R := sum (map (fun p => fst p * snd p) (combine u v)).

(** [x.view(-1)]: the rows of [x] laid out one after the other. *)
Definition view_flat (x : Mat) : Vec := concat x.

(** [torch.index_select(input, 0, index)]: every index must lie in
    [0, len(input)); the call raises otherwise. *)
Definition index_select {A : Type} (input : list A) (index : list Z) : result (list A) :=
  mapM (fun i =>
          if ((0 <=? i) && (i <? len input))%Z then
            match nth_error input (Z.to_nat i) with
            | Some a => Ok a
            | None => Raise IndexError
            end
          else Raise IndexError) index.

(** [input[index]] with an integer index tensor: an index in
    [-len(input), 0) counts from the end, an index outside
    [-len(input), len(input)) raises. *)
Definition getitem {A : Type} (input : list A) (index : list Z) : result (list A) :=
  mapM (fun i =>
          let j := (if i <? 0 then i + len input else i)%Z in
          if ((0 <=? j) && (j <? len input))%Z then
            match nth_error input (Z.to_nat j) with
            | Some a => Ok a
            | None => Raise IndexError
            end
          else Raise IndexError) index.

Fixpoint map2 {A B C : Type} (f : A -> B -> C) (xs : list A) (ys : list B) : list C :=
  match xs, ys with
  | x :: xs', y :: ys' => f x y :: map2 f xs' ys'
  | _, _ => []
  end.

(** A binary elementwise operation along the first dimension, with the
    broadcasting rule of torch: equal lengths, or one operand of length 1;
    anything else raises. *)
Definition broadcast2 {A B C : Type} (f : A -> B -> C)
    (xs : list A) (ys : list B) : result (list C) :=
  match xs, ys with
  | [x], _ => Ok (map (f x) ys)
  | _, [y] => Ok (map (fun x => f x y) xs)
  | _, _ => if (length xs =? length ys)%nat then Ok (map2 f xs ys)
            else Raise RuntimeError
  end.

(** [torch.cat(tensors, dim=0)]: raises on an empty list of tensors. *)
Definition cat {A : Type} (tensors : list (list A)) : result (list A) :=
  match tensors with
  | [] => Raise RuntimeError
  | _ => Ok (concat tensors)
  end.

(** [torch.bincount(x)] for a tensor of non-negative integers: one count for
    every value from 0 to the maximum, the empty tensor for empty [x]. *)
Definition bincount (x : list nat) : list nat :=
  match x with
  | [] => []
  | _ => map (fun k => count_occ Nat.eq_dec x k) (seq 0 (S (list_max x)))
  end.

(** [torch.split(x, sizes)] with a list of sizes: the sizes must add up to
    the length of [x], the call raises otherwise. *)
Fixpoint split_with_sizes {A : Type} (x : list A) (sizes : list nat) : result (list (list A)) :=
  match sizes with
  | [] => match x with
          | [] => Ok []
          | _ => Raise RuntimeError
          end
  | n :: sizes' =>
      if (n <=? length x)%nat then
        rest <- split_with_sizes (skipn n x) sizes' ;;
        Ok (firstn n x :: rest)
      else Raise RuntimeError
  end.

End Tensor.

(** ** nn.Linear and nn.Embedding *)

Module Linear.

Local Open Scope R_scope.

(** [weight] has one row per output feature; [bias] is [None] for
    [bias=False]. *)
Record t : Type := mk {
  weight : Mat;
  bias : option Vec
}.

Definition forward_row (self : t) (x : Vec) : Vec :=
  match bias self with
  | None => map (fun w => Tensor.dot x w) (weight self)
  | Some b => Tensor.map2 (fun w bj => Tensor.dot x w + bj) (weight self) b
  end.

Definition forward (self : t) (x : Mat) : Mat := map (forward_row self) x.

End Linear.

Module Embedding.

Record t : Type := mk {
  weight : Mat
}.

(** [nn.Embedding(num_embeddings, embedding_dim)]: a table of
    [num_embeddings] rows; [init i] is the initial value of row [i]. *)
Definition __init__ (num_embeddings : nat) (init : nat -> Vec) : t :=
  mk (map init (seq 0 num_embeddings)).

(** The lookup raises when an index is outside [0, num_embeddings). *)
Definition forward (self : t) (input : list Z) : result Mat :=
  Tensor.index_select (weight self) input.

End Embedding.

(** ** Basis expansions *)

(** Modelled from the spec: the module [chgnet.model.basis] ([RadialBessel],
    [Fourier]) is not part of the sources. The spec (4.2) gives each basis as
    a map from one scalar, a bond length or an angle, to a fixed-width
    vector; a basis is applied to every entry of its input tensor. An
    instance fixes the two families of functions, indexed by the arguments
    of the constructors. *)
Class Basis : Type := {
  RadialBessel :
    forall (num_radial : Z) (cutoff smooth_cutoff : R) (learnable : bool), R -> Vec;
  Fourier : forall (order : Z) (learnable : bool), R -> Vec
}.

(** ** The per-structure graph *)

(** The class [Crystal_Graph] of [chgnet.graph]; the fields are the ones
    [BatchedGraph.from_graphs] reads. *)
Module Crystal_Graph.

Record t : Type := mk {
  atomic_number : list Z;
  atom_frac_coord : list Vec3;
  lattice : Mat3;
  atom_graph : list (Z * Z);
  undirected2directed : list Z;
  directed2undirected : list Z;
  neighbor_image : list Vec3;
  bond_graph : list (Z * Z * Z * Z * Z)
}.

(** Columns of a [bond_graph] row: [bond_graph[:, k]]. *)
Definition col0 (r : Z * Z * Z * Z * Z) : Z := let '(a, _, _, _, _) := r in a.
Definition col1 (r : Z * Z * Z * Z * Z) : Z := let '(_, b, _, _, _) := r in b.
Definition col2 (r : Z * Z * Z * Z * Z) : Z := let '(_, _, c, _, _) := r in c.
Definition col3 (r : Z * Z * Z * Z * Z) : Z := let '(_, _, _, d, _) := r in d.
Definition col4 (r : Z * Z * Z * Z * Z) : Z := let '(_, _, _, _, e) := r in e.

End Crystal_Graph.

(** ** AtomEmbedding *)

Module AtomEmbedding.

Record t : Type := mk {
  embedding : Embedding.t
}.

Definition max_num_elements_default : nat := 94.

Definition __init__ (atom_feature_dim : Z) (max_num_elements : nat)
    (init : nat -> Vec) : t :=
  mk (Embedding.__init__ max_num_elements init).

Definition forward (self : t) (atomic_numbers : list Z) : result Mat :=
  Embedding.forward (embedding self) atomic_numbers.

End AtomEmbedding.

(** ** BondEncoder *)

Module BondEncoder.
Section WithBasis.
Context {basis : Basis}.

Record t : Type := mk {
  rbf_expansion_ag : R -> Vec;
  rbf_expansion_bg : R -> Vec
}.

Definition __init__ (atom_graph_cutoff bond_graph_cutoff : R) (num_radial : Z)
    (cutoff_coeff : R) (learnable : bool) : t :=
  mk (RadialBessel num_radial atom_graph_cutoff cutoff_coeff learnable)
     (RadialBessel num_radial bond_graph_cutoff cutoff_coeff learnable).

Definition forward (self : t) (center neighbor : list Vec3)
    (undirected2directed : list Z) (image : list Vec3) (lattice : Mat3)
    : result (Mat * Mat * list Vec3) :=
  neighbor <- Tensor.broadcast2 Tensor.add3 neighbor (Tensor.matmul_rows image lattice) ;;
  bond_vectors <- Tensor.broadcast2 Tensor.sub3 center neighbor ;;
  let bond_lengths := map Tensor.norm3 bond_vectors in
  let bond_vectors := map (fun v => Tensor.div3 v (Tensor.norm3 v)) bond_vectors in
  undirected_bond_lengths <- Tensor.index_select bond_lengths undirected2directed ;;
  let bond_basis_ag := map (rbf_expansion_ag self) undirected_bond_lengths in
  let bond_basis_bg := map (rbf_expansion_bg self) undirected_bond_lengths in
  Ok (bond_basis_ag, bond_basis_bg, bond_vectors).

End WithBasis.
End BondEncoder.

(** ** AngleEncoder *)

Module AngleEncoder.
Section WithBasis.
Context {basis : Basis}.

Record t : Type := mk {
  circular_harmonics_order : Z;
  fourier_expansion : R -> Vec
}.

(** The assertion is the first statement that can fail. Once it has
    passed, [n - 1] is even and [int((n - 1) / 2)] is the exact quotient
    ([Z.quot] truncates as [int] does; the float division is exact for every
    width a tensor dimension can take, below 2^53). *)
Definition __init__ (num_angular : Z) (learnable : bool) : result t :=
  if ((num_angular - 1) mod 2 =? 0)%Z then
    let circular_harmonics_order := Z.quot (num_angular - 1) 2 in
    Ok (mk circular_harmonics_order (Fourier circular_harmonics_order learnable))
  else Raise (AssertionError "angle_feature_dim can only be odd integer!").

(** The local [cosine_ij] of [forward]: the row sums of [bond_i * bond_j],
    times [1 - 1e-6]. *)
Definition cosine_ij (bond_i bond_j : list Vec3) : result (list R) :=
  prod <- Tensor.broadcast2 Tensor.mul3 bond_i bond_j ;;
  Ok (map (fun p => (Tensor.sum3 p * (1 - 1e-6))%R) prod).

Definition forward (self : t) (bond_i bond_j : list Vec3) : result Mat :=
  cosine_ij <- cosine_ij bond_i bond_j ;;
  let angle := map acos cosine_ij in
  let result := map (fourier_expansion self) angle in
  Ok result.

End WithBasis.
End AngleEncoder.

(** ** The product by [1 - 1e-6] in binary32 *)

(** [datatype = torch.float32]: the tensors are binary32, of precision 24
    and maximal exponent 128. Python evaluates [1 - 1e-6] in binary64; torch
    converts the scalar to the element type of the tensor it multiplies,
    and the product is rounded to binary32. *)
Module Float32.

Definition prec : Z := 24.
Definition emax : Z := 128.

(** 1.0 in binary32 and in binary64. *)
Definition one : spec_float := S754_finite false 8388608 (-23).
Definition one64 : spec_float := S754_finite false 4503599627370496 (-52).

(** The Python expression [1 - 1e-6]; the literal [1e-6] is the binary64
    number nearest to 1 / 1000000. *)
Definition python_scalar : spec_float :=
  SFsub 53 1024 one64
    (SFdiv 53 1024 one64 (binary_normalize 53 1024 1000000 0 false)).

(** Conversion of a binary64 number to binary32. *)
Definition to_float32 (x : spec_float) : spec_float :=
  match x with
  | S754_finite s m e => binary_round prec emax s m e
  | _ => x
  end.

Definition scalar : spec_float := to_float32 python_scalar.

(** [dot * (1 - 1e-6)] for one entry [dot] of [torch.sum(bond_i * bond_j,
    dim=1)]. *)
Definition clamp (dot : spec_float) : spec_float := SFmul prec emax dot scalar.

End Float32.

(** ** BatchedGraph *)

Module BatchedGraph.

Record t : Type := mk {
  atomic_numbers : list Z;
  bond_bases_ag : Mat;
  bond_bases_bg : Mat;
  angle_bases : Mat;
  batched_atom_graph : list (Z * Z);
  batched_bond_graph : list (Z * Z * Z);
  atom_owners : list nat;
  directed2undirected : list Z;
  atom_positions : list (list Vec3);
  strains : list (option Mat3);
  volumes : list R
}.

(** The tensors torch can differentiate with respect to. [strain_at k] is
    the value of the strain variable of structure [k], zero in
    [from_graphs]. [position_at k], when given, stands for the tensor
    [atom_cart_coords] of structure [k]: differentiating with respect to
    that tensor varies it while everything computed before it is held
    fixed. *)
Record leaves : Type := mk_leaves {
  strain_at : nat -> Mat3;
  position_at : nat -> option (list Vec3)
}.

Definition initial_leaves : leaves :=
  mk_leaves (fun _ => Tensor.zeros3) (fun _ => None).

(** The local lists and counters of [from_graphs]. *)
Record loop_state : Type := mk_state {
  l_atomic_numbers : list (list Z);
  l_atom_positions : list (list Vec3);
  l_strains : list (option Mat3);
  l_volumes : list R;
  l_bond_bases_ag : list Mat;
  l_bond_bases_bg : list Mat;
  l_angle_bases : list Mat;
  l_batched_atom_graph : list (list (Z * Z));
  l_batched_bond_graph : list (list (Z * Z * Z));
  l_directed2undirected : list (list Z);
  l_atom_owners : list (list nat);
  atom_offset_idx : Z;
  n_undirected : Z
}.

Definition initial_state : loop_state :=
  mk_state [] [] [] [] [] [] [] [] [] [] [] 0 0.

(** [graph.atom_graph + atom_offset_idx]. *)
Definition offset_atom_graph (atom_graph : list (Z * Z)) (atom_offset_idx : Z)
    : list (Z * Z) :=
  map (fun b => (fst b + atom_offset_idx, snd b + atom_offset_idx)%Z) atom_graph.

(** [graph.directed2undirected + n_undirected]. *)
Definition offset_directed2undirected (d2u : list Z) (n_undirected : Z) : list Z :=
  map (fun i => (i + n_undirected)%Z) d2u.

(** The three columns written into the new [bond_graph] tensor. *)
Definition offset_bond_graph (bond_graph : list (Z * Z * Z * Z * Z))
    (atom_offset_idx n_undirected : Z) : list (Z * Z * Z) :=
  map (fun r => (Crystal_Graph.col0 r + atom_offset_idx,
                 Crystal_Graph.col1 r + n_undirected,
                 Crystal_Graph.col3 r + n_undirected)%Z) bond_graph.

(** One iteration of the loop over [enumerate(graphs)]. *)
Definition step (bond_basis_expansion : BondEncoder.t)
    (angle_basis_expansion : AngleEncoder.t) (compute_stress : bool)
    (lv : leaves) (st : loop_state) (item : nat * Crystal_Graph.t)
    : result loop_state :=
  let '(graph_idx, graph) := item in
  (* Atoms *)
  let n_atom := length (Crystal_Graph.atomic_number graph) in
  (* Lattice *)
  let '(strain, lattice) :=
    if compute_stress then
      let strain := strain_at lv graph_idx in
      (Some strain,
       Tensor.matmul3 (Crystal_Graph.lattice graph)
                      (Tensor.add_mat3 Tensor.eye3 strain))
    else (None, Crystal_Graph.lattice graph) in
  let volume := Tensor.det lattice in
  (* Bonds *)
  let atom_cart_coords :=
    match position_at lv graph_idx with
    | Some p => p
    | None => Tensor.matmul_rows (Crystal_Graph.atom_frac_coord graph) lattice
    end in
  center <- Tensor.getitem atom_cart_coords (map fst (Crystal_Graph.atom_graph graph)) ;;
  neighbor <- Tensor.getitem atom_cart_coords (map snd (Crystal_Graph.atom_graph graph)) ;;
  '(bond_basis_ag, bond_basis_bg, bond_vectors) <-
    BondEncoder.forward bond_basis_expansion center neighbor
      (Crystal_Graph.undirected2directed graph)
      (Crystal_Graph.neighbor_image graph) lattice ;;
  (* Angles *)
  '(angle_bases, batched_bond_graph) <-
    (if negb (length (Crystal_Graph.bond_graph graph) =? 0)%nat then
       bond_vecs_i <- Tensor.index_select bond_vectors
                        (map Crystal_Graph.col2 (Crystal_Graph.bond_graph graph)) ;;
       bond_vecs_j <- Tensor.index_select bond_vectors
                        (map Crystal_Graph.col4 (Crystal_Graph.bond_graph graph)) ;;
       angle_basis <- AngleEncoder.forward angle_basis_expansion bond_vecs_i bond_vecs_j ;;
       Ok (l_angle_bases st ++ [angle_basis],
           l_batched_bond_graph st ++
             [offset_bond_graph (Crystal_Graph.bond_graph graph)
                (atom_offset_idx st) (n_undirected st)])
     else Ok (l_angle_bases st, l_batched_bond_graph st)) ;;
  Ok (mk_state
        (l_atomic_numbers st ++ [Crystal_Graph.atomic_number graph])
        (l_atom_positions st ++ [atom_cart_coords])
        (l_strains st ++ [strain])
        (l_volumes st ++ [volume])
        (l_bond_bases_ag st ++ [bond_basis_ag])
        (l_bond_bases_bg st ++ [bond_basis_bg])
        angle_bases
        (l_batched_atom_graph st ++
           [offset_atom_graph (Crystal_Graph.atom_graph graph) (atom_offset_idx st)])
        batched_bond_graph
        (l_directed2undirected st ++
           [offset_directed2undirected (Crystal_Graph.directed2undirected graph)
              (n_undirected st)])
        (l_atom_owners st ++ [repeat graph_idx n_atom])
        (atom_offset_idx st + Z.of_nat n_atom)
        (n_undirected st + Tensor.len bond_basis_ag)).

(** "Make Torch Tensors": the concatenations after the loop. *)
Definition make_tensors (st : loop_state) : result t :=
  atomic_numbers <- Tensor.cat (l_atomic_numbers st) ;;
  bond_bases_ag <- Tensor.cat (l_bond_bases_ag st) ;;
  bond_bases_bg <- Tensor.cat (l_bond_bases_bg st) ;;
  angle_bases <-
    (if negb (length (l_angle_bases st) =? 0)%nat then Tensor.cat (l_angle_bases st)
     else Ok []) ;;
  batched_atom_graph <- Tensor.cat (l_batched_atom_graph st) ;;
  batched_bond_graph <-
    (match l_batched_bond_graph st with
     | [] => Ok []
     | _ => Tensor.cat (l_batched_bond_graph st)
     end) ;;
  atom_owners <- Tensor.cat (l_atom_owners st) ;;
  directed2undirected <- Tensor.cat (l_directed2undirected st) ;;
  Ok (mk atomic_numbers bond_bases_ag bond_bases_bg angle_bases
         batched_atom_graph batched_bond_graph atom_owners directed2undirected
         (l_atom_positions st) (l_strains st) (l_volumes st)).

(** [from_graphs] as a function of the differentiable tensors. *)
Definition from_graphs_at (graphs : list Crystal_Graph.t)
    (bond_basis_expansion : BondEncoder.t) (angle_basis_expansion : AngleEncoder.t)
    (compute_stress : bool) (lv : leaves) : result t :=
  st <- foldM (step bond_basis_expansion angle_basis_expansion compute_stress lv)
          (enumerate graphs) initial_state ;;
  make_tensors st.

Definition from_graphs (graphs : list Crystal_Graph.t)
    (bond_basis_expansion : BondEncoder.t) (angle_basis_expansion : AngleEncoder.t)
    (compute_stress : bool) : result t :=
  from_graphs_at graphs bond_basis_expansion angle_basis_expansion compute_stress
    initial_leaves.

End BatchedGraph.

(** ** Constructor arguments of CHGNet *)

Module ModelArgs.

(** The keyword arguments of [CHGNet.__init__]; the [kw_] fields are the
    entries of [**kwargs] the constructor pops, [None] when absent. *)
Record t : Type := mk {
  atom_fea_dim : Z;
  bond_fea_dim : Z;
  angle_fea_dim : Z;
  composition_model : option (string + (list Crystal_Graph.t -> result Vec));
  num_radial : Z;
  num_angular : Z;
  n_conv : Z;
  atom_conv_hidden_dim : list Z;
  update_bond : bool;
  bond_conv_hidden_dim : list Z;
  update_angle : bool;
  angle_layer_hidden_dim : list Z;
  conv_dropout : R;
  read_out : string;
  mlp_hidden_dims : list Z;
  mlp_dropout : R;
  mlp_first : bool;
  is_intensive : bool;
  non_linearity : string;
  atom_graph_cutoff : R;
  bond_graph_cutoff : R;
  cutofff_coeff : R;
  learnable_rbf : bool;
  kw_cutoff_coeff : option R;
  kw_conv_norm : option string;
  kw_gMLP_norm : option string;
  kw_readout_norm : option string;
  kw_num_heads : option Z;
  kw_final_mlp : option string
}.

(** The defaults of the signature. *)
Definition default : t :=
  mk 64 64 64 None 9 9 4 [64%Z] true [64%Z] false [0%Z] 0%R "ave" [64%Z; 64%Z] 0%R
     false true "silu" 5%R 3%R 5%R false None None None None None None.

End ModelArgs.

(** ** Layers, functions and parameters *)

(** Forward functions of the layers of [chgnet.model.layers]. *)
Definition atom_conv : Type :=
  forall (atom_feas bond_feas bond_weights : Mat) (atom_graph : list (Z * Z))
         (directed2undirected : list Z), result Mat.
Definition bond_conv : Type :=
  forall (atom_feas bond_feas bond_weights angle_feas : Mat)
         (bond_graph : list (Z * Z * Z)), result Mat.
Definition angle_update : Type :=
  forall (atom_feas bond_feas angle_feas : Mat) (bond_graph : list (Z * Z * Z)),
    result Mat.
Definition module_fn : Type := Mat -> result Mat.
Definition pooling_fn : Type := Mat -> list nat -> result Mat.

(** Modelled from the spec: the modules [chgnet.model.layers],
    [chgnet.model.functions] and [chgnet.model.composition_model] are not
    part of the sources. The spec (4.3, 4.4) gives the convolutions as
    updates of the atom, bond and angle features over the adjacency tables,
    the pooling as a map from atom features and owners to one row per
    structure, and the composition model as a map from the graphs to one
    energy per structure. An instance fixes the forward function of every
    layer, its parameter values included; [AtomConv args i] is the [i]-th
    atom convolution built from the constructor arguments [args]. A forward
    function may raise. *)
Class Layers : Type := {
  AtomConv : ModelArgs.t -> nat -> atom_conv;
  BondConv : ModelArgs.t -> nat -> bond_conv;
  AngleUpdate : ModelArgs.t -> nat -> angle_update;
  GraphPooling : forall (average : bool), pooling_fn;
  GraphAttentionReadOut : forall (atom_fea_dim num_head : Z) (average : bool), pooling_fn;
  MLP : forall (input_dim : Z) (hidden_dim : list Z) (output_dim : Z)
               (dropout : R) (activation : string), module_fn;
  GatedMLP : forall (input_dim : Z) (hidden_dim : list Z) (output_dim : Z)
                    (dropout : R) (activation : string), module_fn;
  find_normalization : forall (name : option string) (dim : Z), option module_fn;
  Atom_Ref : forall (is_intensive : bool) (initialize_from : string),
      result (list Crystal_Graph.t -> result Vec)
}.

(** The values of the parameters of the torch modules ([nn.Linear],
    [nn.Embedding]) the model owns: [parameter name i j] is entry [(i, j)] of
    the tensor registered under [name], at initialisation or after a state
    dictionary was loaded. *)
Class Parameters : Type := {
  parameter : string -> nat -> nat -> R
}.

(** [torch.autograd.grad(outputs, inputs, create_graph=True,
    retain_graph=True)]: [outputs] is given as the function of the values of
    [inputs] that the recorded graph computes; the call returns one gradient
    per input, or raises. *)
Class Autograd : Type := {
  autograd_grad : forall {X : Type}, (list X -> result R) -> list X -> result (list X)
}.

Definition new_Linear `{Parameters} (name : string) (in_features out_features : Z)
    (bias : bool) : Linear.t :=
  Linear.mk
    (map (fun j => map (parameter (name ++ ".weight") j) (seq 0 (Z.to_nat in_features)))
         (seq 0 (Z.to_nat out_features)))
    (if bias then Some (map (parameter (name ++ ".bias") 0) (seq 0 (Z.to_nat out_features)))
     else None).

(** ** CHGNet *)

Module CHGNet.

(** The dictionary returned by [_compute] and [forward]; an absent key is
    [None]. The keys ["atoms_per_graph"] and ["e"] are always set. *)
Record prediction : Type := mk_prediction {
  atoms_per_graph : list nat;
  atom_fea : option (list Mat);
  m : option (list Vec);
  crystal_fea : option Mat;
  f : option (list (list Vec3));
  s : option (list Mat3);
  e : Vec
}.

Record t : Type := mk {
  model_args : ModelArgs.t;
  atom_fea_dim : Z;
  bond_fea_dim : Z;
  is_intensive : bool;
  n_conv : Z;
  composition_model : option (list Crystal_Graph.t -> result Vec);
  atom_embedding : AtomEmbedding.t;
  bond_basis_expansion : BondEncoder.t;
  bond_embedding : Linear.t;
  bond_weights_ag : Linear.t;
  bond_weights_bg : Linear.t;
  angle_basis_expansion : AngleEncoder.t;
  angle_embedding : Linear.t;
  atom_conv_layers : list atom_conv;
  bond_conv_layers : list (option bond_conv);
  angle_layers : list (option angle_update);
  site_wise : Linear.t;
  readout_norm : option module_fn;
  mlp_first : bool;
  read_out_type : string;
  pooling : pooling_fn;
  mlp : module_fn
}.

(** The recorded dependence of a batched graph on the tensors it was built
    from: what [autograd] differentiates through, upstream of [_compute]. *)
Record tape : Type := mk_tape {
  wrt_positions : list (list Vec3) -> result BatchedGraph.t;
  wrt_strains : list Mat3 -> result BatchedGraph.t
}.

(** [c in task] for a one-character string [c]. *)
Fixpoint contains (c : ascii) (task : string) : bool :=
  match task with
  | EmptyString => false
  | String a rest => Ascii.eqb a c || contains c rest
  end.

(** [l[-1]] *)
Definition last_item {A : Type} (l : list A) : result A :=
  match rev l with
  | [] => Raise IndexError
  | a :: _ => Ok a
  end.

(** [zip(a, b, c)] *)
Fixpoint zip3 {A B C : Type} (a : list A) (b : list B) (c : list C) : list (A * B * C) :=
  match a, b, c with
  | x :: a', y :: b', z :: c' => (x, y, z) :: zip3 a' b' c'
  | _, _, _ => []
  end.

(** Python's [x[start:stop]] on a sequence. *)
Definition slice {A : Type} (x : list A) (start stop : Z) : list A :=
  let n := Tensor.len x in
  let clamp := fun i => (if i <? 0 then Z.max (i + n) 0 else Z.min i n)%Z in
  let a := clamp start in
  let b := clamp stop in
  firstn (Z.to_nat (b - a)) (skipn (Z.to_nat a) x).

(** The static method [CHGNet.split]. *)
Definition split {A : Type} (x : list A) (n : list Z) : result (list (list A)) :=
  let '(start, result) :=
    fold_left (fun acc i =>
                 let '(start, result) := acc in
                 ((start + i)%Z, result ++ [slice x start (start + i)]))
              n (0%Z, []) in
  if (start =? Tensor.len x)%Z then Ok result
  else Raise (AssertionError "Error: source tensor not correctly split!").

Section Model.
Context {basis : Basis} {layers : Layers} {params : Parameters} {autograd : Autograd}.

Local Open Scope R_scope.

Definition range (n : Z) : list nat := seq 0 (Z.to_nat n).

Definition __init__ (args : ModelArgs.t) : result t :=
  let atom_fea_dim := ModelArgs.atom_fea_dim args in
  let bond_fea_dim := ModelArgs.bond_fea_dim args in
  let angle_fea_dim := ModelArgs.angle_fea_dim args in
  let is_intensive := ModelArgs.is_intensive args in
  let n_conv := ModelArgs.n_conv args in
  let num_radial := ModelArgs.num_radial args in
  let num_angular := ModelArgs.num_angular args in
  let mlp_hidden_dims := ModelArgs.mlp_hidden_dims args in
  (* Optionally, define composition model *)
  composition_model <-
    match ModelArgs.composition_model args with
    | Some (inl name) =>
        model <- Atom_Ref is_intensive name ;; Ok (Some model)
    | Some (inr module) => Ok (Some module)
    | None => Ok None
    end ;;
  (* Define Crystal Graph Converter: [chgnet.graph] builds the graphs the
     model is given, it takes no part in what follows. *)
  (* Define embedding layers *)
  let atom_embedding :=
    AtomEmbedding.__init__ atom_fea_dim AtomEmbedding.max_num_elements_default
      (fun i => map (parameter "atom_embedding.embedding.weight" i)
                    (seq 0 (Z.to_nat atom_fea_dim))) in
  let cutoff_coeff :=
    match ModelArgs.kw_cutoff_coeff args with Some c => c | None => 6 end in
  let bond_basis_expansion :=
    BondEncoder.__init__ (ModelArgs.atom_graph_cutoff args)
      (ModelArgs.bond_graph_cutoff args) num_radial cutoff_coeff
      (ModelArgs.learnable_rbf args) in
  let bond_embedding := new_Linear "bond_embedding" num_radial bond_fea_dim false in
  let bond_weights_ag := new_Linear "bond_weights_ag" num_radial atom_fea_dim false in
  let bond_weights_bg := new_Linear "bond_weights_bg" num_radial bond_fea_dim false in
  angle_basis_expansion <-
    AngleEncoder.__init__ num_angular (ModelArgs.learnable_rbf args) ;;
  let angle_embedding := new_Linear "angle_embedding" num_angular angle_fea_dim false in
  (* Define convolutional layers *)
  let atom_conv_layers := map (AtomConv args) (range n_conv) in
  let bond_conv_layers :=
    if ModelArgs.update_bond args
    then map (fun i => Some (BondConv args i)) (range (n_conv - 1))
    else map (fun _ => None) (range (n_conv - 1)) in
  let angle_layers :=
    if ModelArgs.update_angle args
    then map (fun i => Some (AngleUpdate args i)) (range (n_conv - 1))
    else map (fun _ => None) (range (n_conv - 1)) in
  (* Define readout layer *)
  let site_wise := new_Linear "site_wise" atom_fea_dim 1 true in
  let readout_norm := find_normalization (ModelArgs.kw_readout_norm args) atom_fea_dim in
  let mlp_first := ModelArgs.mlp_first args in
  let '(read_out_type, input_dim, pooling) :=
    if mlp_first then ("sum"%string, atom_fea_dim, GraphPooling false)
    else if existsb (String.eqb (ModelArgs.read_out args)) ["attn"; "weighted"]%string
    then
      let num_heads :=
        match ModelArgs.kw_num_heads args with Some h => h | None => 3%Z end in
      ("attn"%string, (atom_fea_dim * num_heads)%Z,
       GraphAttentionReadOut atom_fea_dim num_heads true)
    else ("ave"%string, atom_fea_dim, GraphPooling true) in
  mlp <-
    (let final_mlp :=
       match ModelArgs.kw_final_mlp args with Some v => v | None => "MLP"%string end in
     if existsb (String.eqb final_mlp) ["normal"; "MLP"]%string then
       Ok (MLP input_dim mlp_hidden_dims 1 (ModelArgs.mlp_dropout args)
             (ModelArgs.non_linearity args))
     else
       out_dim <- last_item mlp_hidden_dims ;;
       let gated := GatedMLP input_dim mlp_hidden_dims out_dim
                      (ModelArgs.mlp_dropout args) (ModelArgs.non_linearity args) in
       let linear := new_Linear "mlp.1" out_dim 1 true in
       Ok (fun x => y <- gated x ;; Ok (Linear.forward linear y))) ;;
  Ok (mk args atom_fea_dim bond_fea_dim is_intensive n_conv composition_model
         atom_embedding bond_basis_expansion bond_embedding bond_weights_ag
         bond_weights_bg angle_basis_expansion angle_embedding atom_conv_layers
         bond_conv_layers angle_layers site_wise readout_norm mlp_first
         read_out_type pooling mlp).

(** The state carried by the message-passing loop of [_compute]: the three
    feature tensors and the two side outputs. *)
Record mp_state : Type := mk_mp {
  mp_atom_feas : Mat;
  mp_bond_feas : Mat;
  mp_angle_feas : Mat;
  mp_atom_fea : option (list Mat);
  mp_m : option (list Vec)
}.

(** One iteration of the loop over
    [enumerate(zip(atom_conv_layers[:-1], bond_conv_layers, angle_layers))]. *)
Definition mp_step (self : t) (g : BatchedGraph.t) (atoms_per_graph : list nat)
    (bond_weights_ag bond_weights_bg : Mat) (site_wise return_atom_feas : bool)
    (st : mp_state)
    (item : nat * (atom_conv * option bond_conv * option angle_update))
    : result mp_state :=
  let '(idx, (atom_layer, bond_layer, angle_layer)) := item in
  (* Atom Conv *)
  atom_feas <- atom_layer (mp_atom_feas st) (mp_bond_feas st) bond_weights_ag
                 (BatchedGraph.batched_atom_graph g)
                 (BatchedGraph.directed2undirected g) ;;
  (* Bond Conv *)
  '(bond_feas, angle_feas) <-
    (match negb (length (BatchedGraph.angle_bases g) =? 0)%nat, bond_layer with
     | true, Some bond_layer =>
         bond_feas <- bond_layer atom_feas (mp_bond_feas st) bond_weights_bg
                        (mp_angle_feas st) (BatchedGraph.batched_bond_graph g) ;;
         (* Angle Update *)
         match angle_layer with
         | Some angle_layer =>
             angle_feas <- angle_layer atom_feas bond_feas (mp_angle_feas st)
                             (BatchedGraph.batched_bond_graph g) ;;
             Ok (bond_feas, angle_feas)
         | None => Ok (bond_feas, mp_angle_feas st)
         end
     | _, _ => Ok (mp_bond_feas st, mp_angle_feas st)
     end) ;;
  if (Z.of_nat idx =? n_conv self - 2)%Z then
    atom_fea <-
      (if return_atom_feas then
         parts <- Tensor.split_with_sizes atom_feas atoms_per_graph ;; Ok (Some parts)
       else Ok (mp_atom_fea st)) ;;
    (* Compute site-wise magnetic moments *)
    m <-
      (if site_wise then
         let magmom := map (map Rabs) (Linear.forward (CHGNet.site_wise self) atom_feas) in
         parts <- Tensor.split_with_sizes (Tensor.view_flat magmom) atoms_per_graph ;;
         Ok (Some parts)
       else Ok (mp_m st)) ;;
    Ok (mk_mp atom_feas bond_feas angle_feas atom_fea m)
  else Ok (mk_mp atom_feas bond_feas angle_feas (mp_atom_fea st) (mp_m st)).

(** [_compute] up to the readout: the side outputs, the crystal features
    when asked for, and the tensor [energy] before any normalisation. *)
Definition readout (self : t) (g : BatchedGraph.t)
    (site_wise return_atom_feas return_crystal_feas : bool)
    : result (mp_state * option Mat * Vec) :=
  let atoms_per_graph := Tensor.bincount (BatchedGraph.atom_owners g) in
  (* Embed Atoms, Bonds and Angles *)
  atom_feas <- AtomEmbedding.forward (atom_embedding self)
                 (map (fun z => (z - 1)%Z) (BatchedGraph.atomic_numbers g)) ;;
  let bond_feas := Linear.forward (bond_embedding self) (BatchedGraph.bond_bases_ag g) in
  let bond_weights_ag := Linear.forward (bond_weights_ag self) (BatchedGraph.bond_bases_ag g) in
  let bond_weights_bg := Linear.forward (bond_weights_bg self) (BatchedGraph.bond_bases_bg g) in
  (* [angle_feas] is unbound in the source when there is no angle; it is
     read only when there is one. *)
  let angle_feas :=
    if negb (length (BatchedGraph.angle_bases g) =? 0)%nat
    then Linear.forward (angle_embedding self) (BatchedGraph.angle_bases g)
    else [] in
  (* Message Passing *)
  st <- foldM (mp_step self g atoms_per_graph bond_weights_ag bond_weights_bg
                 site_wise return_atom_feas)
          (enumerate (zip3 (removelast (atom_conv_layers self))
                           (bond_conv_layers self) (angle_layers self)))
          (mk_mp atom_feas bond_feas angle_feas None None) ;;
  (* Last conv layer *)
  last_layer <- last_item (atom_conv_layers self) ;;
  atom_feas <- last_layer (mp_atom_feas st) (mp_bond_feas st) bond_weights_ag
                 (BatchedGraph.batched_atom_graph g)
                 (BatchedGraph.directed2undirected g) ;;
  atom_feas <-
    (match readout_norm self with
     | Some norm => norm atom_feas
     | None => Ok atom_feas
     end) ;;
  (* Aggregate nodes and ReadOut *)
  if mlp_first self then
    energies <- mlp self atom_feas ;;
    pooled <- pooling self energies (BatchedGraph.atom_owners g) ;;
    Ok (st, None, Tensor.view_flat pooled)
  else
    crystal_feas <- pooling self atom_feas (BatchedGraph.atom_owners g) ;;
    projected <- mlp self crystal_feas ;;
    energy <- Tensor.broadcast2 Rmult (Tensor.view_flat projected)
                (map INR atoms_per_graph) ;;
    Ok (st, (if return_crystal_feas then Some crystal_feas else None), energy).

(** [energy.sum()] as a function of a rebuilt batched graph. *)
Definition energy_sum (self : t)
    (site_wise return_atom_feas return_crystal_feas : bool)
    (g : result BatchedGraph.t) : result R :=
  g <- g ;;
  '(_, _, energy) <- readout self g site_wise return_atom_feas return_crystal_feas ;;
  Ok (Tensor.sum energy).

(** [-1 * i] *)
Definition neg_rows (i : list Vec3) : list Vec3 :=
  map (fun v => let '(a, b, c) := v in (-1 * a, -1 * b, -1 * c)) i.

(** [_compute]; [grad_fn] is the graph recorded behind the tensors of [g]. *)
Definition _compute (self : t) (g : BatchedGraph.t) (grad_fn : tape)
    (site_wise compute_force compute_stress return_atom_feas return_crystal_feas : bool)
    : result prediction :=
  let atoms_per_graph := Tensor.bincount (BatchedGraph.atom_owners g) in
  '(st, crystal_fea, energy) <-
    readout self g site_wise return_atom_feas return_crystal_feas ;;
  (* Compute force *)
  force <-
    (if compute_force then
       force <- autograd_grad
                  (fun positions =>
                     energy_sum self site_wise return_atom_feas return_crystal_feas
                       (wrt_positions grad_fn positions))
                  (BatchedGraph.atom_positions g) ;;
       Ok (Some (map neg_rows force))
     else Ok None) ;;
  (* Compute stress *)
  stress <-
    (if compute_stress then
       strains <- mapM (fun o => match o with
                                 | Some strain => Ok strain
                                 | None => Raise TypeError
                                 end) (BatchedGraph.strains g) ;;
       stress <- autograd_grad
                   (fun strains =>
                      energy_sum self site_wise return_atom_feas return_crystal_feas
                        (wrt_strains grad_fn strains))
                   strains ;;
       (* Convert Stress unit from eV/A^3 to GPa *)
       let scale := map (fun v => 1 / v * 160.21766208) (BatchedGraph.volumes g) in
       Ok (Some (Tensor.map2 (fun i j => Tensor.map_mat3 (fun x => x * j) i) stress scale))
     else Ok None) ;;
  (* Normalize energy if model is intensive *)
  energy <-
    (if is_intensive self then Tensor.broadcast2 Rdiv energy (map INR atoms_per_graph)
     else Ok energy) ;;
  Ok (mk_prediction atoms_per_graph (mp_atom_fea st) (mp_m st) crystal_fea
        force stress energy).

(** [prediction["e"] += comp_energy] *)
Definition add_comp_energy (energy : Vec) (comp_energy : option Vec) : result Vec :=
  match comp_energy with
  | None => Ok (map (fun x => x + 0) energy)
  | Some [c] => Ok (map (fun x => x + c) energy)
  | Some comp =>
      if (length energy =? length comp)%nat then Ok (Tensor.map2 Rplus energy comp)
      else Raise RuntimeError
  end.

(** The graph [from_graphs] records for the batch it returns. *)
Definition recorded (self : t) (graphs : list Crystal_Graph.t) (compute_stress : bool)
    : tape :=
  mk_tape
    (fun positions =>
       BatchedGraph.from_graphs_at graphs (bond_basis_expansion self)
         (angle_basis_expansion self) compute_stress
         (BatchedGraph.mk_leaves (fun _ => Tensor.zeros3)
            (fun k => nth_error positions k)))
    (fun strains =>
       BatchedGraph.from_graphs_at graphs (bond_basis_expansion self)
         (angle_basis_expansion self) compute_stress
         (BatchedGraph.mk_leaves (fun k => nth k strains Tensor.zeros3)
            (fun _ => None))).

Definition forward (self : t) (graphs : list Crystal_Graph.t) (task : string)
    (return_atom_feas return_crystal_feas : bool) : result prediction :=
  let compute_force := contains "f" task in
  let compute_stress := contains "s" task in
  let site_wise := contains "m" task in
  (* Optionally, make composition model prediction *)
  comp_energy <-
    (match composition_model self with
     | Some model => c <- model graphs ;; Ok (Some c)
     | None => Ok None
     end) ;;
  (* Make batched graph *)
  batched_graph <- BatchedGraph.from_graphs graphs (bond_basis_expansion self)
                     (angle_basis_expansion self) compute_stress ;;
  (* Pass to model *)
  prediction <- _compute self batched_graph (recorded self graphs compute_stress)
                  site_wise compute_force compute_stress
                  return_atom_feas return_crystal_feas ;;
  energy <- add_comp_energy (e prediction) comp_energy ;;
  Ok (mk_prediction (atoms_per_graph prediction) (atom_fea prediction)
        (m prediction) (crystal_fea prediction) (f prediction) (s prediction)
        energy).

End Model.
End CHGNet.

(** ** A small concrete model

    Instances of the interfaces and two structures, on which the
    definitions above can be run. *)

Module Example.

Local Open Scope R_scope.

#[local] Instance basis : Basis := {
  RadialBessel := fun _ _ _ _ r => [r];
  Fourier := fun _ _ a => [a]
}.

#[local] Instance layers : Layers := {
  AtomConv := fun _ _ atom_feas _ _ _ _ => Ok atom_feas;
  BondConv := fun _ _ _ bond_feas _ _ _ => Ok bond_feas;
  AngleUpdate := fun _ _ _ _ angle_feas _ => Ok angle_feas;
  GraphPooling := fun _ _ owners => Ok (map (fun _ => [1]) (Tensor.bincount owners));
  GraphAttentionReadOut :=
    fun _ _ _ _ owners => Ok (map (fun _ => [1]) (Tensor.bincount owners));
  MLP := fun _ _ _ _ _ x => Ok x;
  GatedMLP := fun _ _ _ _ _ x => Ok x;
  find_normalization := fun _ _ => None;
  Atom_Ref := fun _ _ => Ok (fun graphs => Ok (map (fun _ => 0) graphs))
}.

#[local] Instance params : Parameters := {
  parameter := fun _ _ _ => 1
}.

#[local] Instance autograd : Autograd := {
  autograd_grad := fun _ _ inputs => Ok inputs
}.

(** Two atoms, one undirected bond between them (two directed entries), no
    angle. *)
Definition dimer : Crystal_Graph.t :=
  Crystal_Graph.mk [1%Z; 8%Z]
    [(0, 0, 0); (1 / 2, 0, 0)]
    ((4, 0, 0), (0, 4, 0), (0, 0, 4))
    [(0%Z, 1%Z); (1%Z, 0%Z)]
    [0%Z]
    [0%Z; 0%Z]
    [(0, 0, 0); (0, 0, 0)]
    [].

(** Three atoms in a row, two undirected bonds, one angle at the middle
    atom. *)
Definition trimer : Crystal_Graph.t :=
  Crystal_Graph.mk [8%Z; 1%Z; 1%Z]
    [(1 / 2, 0, 0); (1 / 4, 0, 0); (3 / 4, 0, 0)]
    ((4, 0, 0), (0, 4, 0), (0, 0, 4))
    [(0%Z, 1%Z); (1%Z, 0%Z); (0%Z, 2%Z); (2%Z, 0%Z)]
    [0%Z; 2%Z]
    [0%Z; 0%Z; 1%Z; 1%Z]
    [(0, 0, 0); (0, 0, 0); (0, 0, 0); (0, 0, 0)]
    [(0%Z, 0%Z, 0%Z, 1%Z, 2%Z)].

Definition args_n_conv (n : Z) : ModelArgs.t :=
  ModelArgs.mk 2 2 2 None 1 3 n [2%Z] true [2%Z] false [0%Z] 0 "ave" [2%Z] 0
    false true "silu" 5 3 5 false None None None None None None.

Definition args_read_out (read_out : string) : ModelArgs.t :=
  ModelArgs.mk 2 2 2 None 1 3 2 [2%Z] true [2%Z] false [0%Z] 0 read_out [2%Z] 0
    false true "silu" 5 3 5 false None None None None None None.

End Example.

(** ** Definitions used in the statements *)

(** The sum of a list of counts. *)
Definition total (n : list Z) : Z := fold_right Z.add 0%Z n.

(** The slices [CHGNet.split] appends, from position [start] on. *)
Fixpoint slices {A : Type} (x : list A) (start : Z) (n : list Z) : list (list A) :=
  match n with
  | [] => []
  | i :: n' => CHGNet.slice x start (start + i) :: slices x (start + i) n'
  end.

(** Number of atoms and of undirected bonds of a structure, and their
    totals over the structures before position [k]. *)
Definition n_atom (graph : Crystal_Graph.t) : Z :=
  Tensor.len (Crystal_Graph.atomic_number graph).

Definition n_bond (graph : Crystal_Graph.t) : Z :=
  Tensor.len (Crystal_Graph.undirected2directed graph).

Definition atoms_before (graphs : list Crystal_Graph.t) (k : nat) : Z :=
  total (map n_atom (firstn k graphs)).

Definition bonds_before (graphs : list Crystal_Graph.t) (k : nat) : Z :=
  total (map n_bond (firstn k graphs)).

(** The lattice and the Cartesian positions [from_graphs] computes for the
    structure at position [k]. *)
Definition lattice_of (compute_stress : bool) (lv : BatchedGraph.leaves) (k : nat)
    (graph : Crystal_Graph.t) : Mat3 :=
  if compute_stress then
    Tensor.matmul3 (Crystal_Graph.lattice graph)
      (Tensor.add_mat3 Tensor.eye3 (BatchedGraph.strain_at lv k))
  else Crystal_Graph.lattice graph.

Definition positions_of (compute_stress : bool) (lv : BatchedGraph.leaves) (k : nat)
    (graph : Crystal_Graph.t) : list Vec3 :=
  match BatchedGraph.position_at lv k with
  | Some p => p
  | None => Tensor.matmul_rows (Crystal_Graph.atom_frac_coord graph)
              (lattice_of compute_stress lv k graph)
  end.

(** The per-structure pieces a loop with two running offsets produces:
    structure [i] is handled with the offsets [ao] and [nu], the next one
    with the offsets advanced by its atom and undirected-bond counts. *)
Fixpoint pieces {B : Type} (piece : nat -> Z -> Z -> Crystal_Graph.t -> B)
    (i : nat) (ao nu : Z) (graphs : list Crystal_Graph.t) : list B :=
  match graphs with
  | [] => []
  | graph :: rest =>
      piece i ao nu graph
        :: pieces piece (S i) (ao + n_atom graph)%Z (nu + n_bond graph)%Z rest
  end.

(** Indices local to a structure: [i] in [0, n). *)
Definition in_range (i n : Z) : bool := ((0 <=? i) && (i <? n))%Z.

(** The invariant of the data model: every index of [atom_graph],
    [directed2undirected] and of the atom and undirected-bond columns of
    [bond_graph] is local to its own structure. *)
Definition local (graph : Crystal_Graph.t) : bool :=
  forallb (fun b => in_range (fst b) (n_atom graph) && in_range (snd b) (n_atom graph))
          (Crystal_Graph.atom_graph graph)
  && forallb (fun i => in_range i (n_bond graph))
             (Crystal_Graph.directed2undirected graph)
  && forallb (fun r => in_range (Crystal_Graph.col0 r) (n_atom graph)
                       && in_range (Crystal_Graph.col1 r) (n_bond graph)
                       && in_range (Crystal_Graph.col3 r) (n_bond graph))
             (Crystal_Graph.bond_graph graph).

(** A well-formed graph: local indices, one coordinate row per atom, one
    image per directed bond, and directed-bond references inside the bond
    list. *)
Definition well_formed (graph : Crystal_Graph.t) : bool :=
  local graph
  && (length (Crystal_Graph.atom_frac_coord graph)
        =? length (Crystal_Graph.atomic_number graph))%nat
  && (length (Crystal_Graph.neighbor_image graph)
        =? length (Crystal_Graph.atom_graph graph))%nat
  && forallb (fun i => in_range i (Tensor.len (Crystal_Graph.atom_graph graph)))
             (Crystal_Graph.undirected2directed graph)
  && forallb (fun r => in_range (Crystal_Graph.col2 r)
                                (Tensor.len (Crystal_Graph.atom_graph graph))
                       && in_range (Crystal_Graph.col4 r)
                                   (Tensor.len (Crystal_Graph.atom_graph graph)))
             (Crystal_Graph.bond_graph graph).

(** Inversion of a successful sequence of binds. *)
Ltac bind_inv H :=
  repeat match type of H with
    | bind ?m _ = Ok _ =>
        let E := fresh "E" in
        destruct m eqn:E; cbn [bind] in H; [ | discriminate H]
    | (let '(_, _) := ?p in _) = Ok _ => destruct p
    end.

(** The constructor arguments [args] with another [read_out]. *)
Definition with_read_out (read_out : string) (args : ModelArgs.t) : ModelArgs.t :=
  ModelArgs.mk (ModelArgs.atom_fea_dim args) (ModelArgs.bond_fea_dim args)
    (ModelArgs.angle_fea_dim args) (ModelArgs.composition_model args)
    (ModelArgs.num_radial args) (ModelArgs.num_angular args) (ModelArgs.n_conv args)
    (ModelArgs.atom_conv_hidden_dim args) (ModelArgs.update_bond args)
    (ModelArgs.bond_conv_hidden_dim args) (ModelArgs.update_angle args)
    (ModelArgs.angle_layer_hidden_dim args) (ModelArgs.conv_dropout args)
    read_out (ModelArgs.mlp_hidden_dims args) (ModelArgs.mlp_dropout args)
    (ModelArgs.mlp_first args) (ModelArgs.is_intensive args)
    (ModelArgs.non_linearity args) (ModelArgs.atom_graph_cutoff args)
    (ModelArgs.bond_graph_cutoff args) (ModelArgs.cutofff_coeff args)
    (ModelArgs.learnable_rbf args) (ModelArgs.kw_cutoff_coeff args)
    (ModelArgs.kw_conv_norm args) (ModelArgs.kw_gMLP_norm args)
    (ModelArgs.kw_readout_norm args) (ModelArgs.kw_num_heads args)
    (ModelArgs.kw_final_mlp args).

(** Evaluation of the model on concrete inputs; the operations on real
    numbers are left as they are. *)
Ltac run := lazy -[Rplus Rmult Rminus Rdiv Rinv Ropp sqrt acos Rabs INR IZR].
Ltac run_in H := lazy -[Rplus Rmult Rminus Rdiv Rinv Ropp sqrt acos Rabs INR IZR] in H.

(** The model [self] with another value of the flag [is_intensive]. *)
Definition with_is_intensive (is_intensive : bool) (self : CHGNet.t) : CHGNet.t :=
  CHGNet.mk (CHGNet.model_args self) (CHGNet.atom_fea_dim self)
    (CHGNet.bond_fea_dim self) is_intensive (CHGNet.n_conv self)
    (CHGNet.composition_model self) (CHGNet.atom_embedding self)
    (CHGNet.bond_basis_expansion self) (CHGNet.bond_embedding self)
    (CHGNet.bond_weights_ag self) (CHGNet.bond_weights_bg self)
    (CHGNet.angle_basis_expansion self) (CHGNet.angle_embedding self)
    (CHGNet.atom_conv_layers self) (CHGNet.bond_conv_layers self)
    (CHGNet.angle_layers self) (CHGNet.site_wise self) (CHGNet.readout_norm self)
    (CHGNet.mlp_first self) (CHGNet.read_out_type self) (CHGNet.pooling self)
    (CHGNet.mlp self).

(** The total energy of a batch, [energy.sum()], as a function of the
    Cartesian positions, one tensor per structure, the strains held at
    zero; and as a function of the strains, one per structure. These are the
    functions behind the two calls of [autograd.grad] in [_compute] when
    [forward] runs on [graphs]. *)
Definition total_energy_of_positions
    (self : CHGNet.t) (graphs : list Crystal_Graph.t) (task : string)
    (return_atom_feas return_crystal_feas : bool)
    (positions : list (list Vec3)) : result R :=
  CHGNet.energy_sum self (CHGNet.contains "m" task) return_atom_feas return_crystal_feas
    (CHGNet.wrt_positions (CHGNet.recorded self graphs (CHGNet.contains "s" task))
       positions).

Definition total_energy_of_strains
    (self : CHGNet.t) (graphs : list Crystal_Graph.t) (task : string)
    (return_atom_feas return_crystal_feas : bool)
    (strains : list Mat3) : result R :=
  CHGNet.energy_sum self (CHGNet.contains "m" task) return_atom_feas return_crystal_feas
    (CHGNet.wrt_strains (CHGNet.recorded self graphs (CHGNet.contains "s" task))
       strains).

(** The opposite of a vector of three components. *)
Definition opp3 (v : Vec3) : Vec3 :=
  let '(a, b, c) := v in (- a, - b, - c)%R.

(** ** The structures the model is used on *)

(** Modelled from the spec: the module [chgnet.graph] with its
    [CrystalGraphConverter] is not part of the sources, and [Structure] is a
    class of pymatgen. The spec (1) treats the conversion as an external
    collaborator that supplies the graph of a structure; the converter is
    built from the two cutoffs of the model, and a conversion may raise.
    [num_atoms s] is [s.composition.num_atoms]. *)
Class Structures : Type := {
  Structure : Type;
  CrystalGraphConverter :
    forall (atom_graph_cutoff bond_graph_cutoff : R), Structure -> result Crystal_Graph.t;
  num_atoms : Structure -> R
}.

(** ** CHGNet.predict_graph and CHGNet.predict_structure

    The methods of [CHGNet] its callers use, and the exceptions they and
    the callers raise besides those of the model. *)

Module Predict.

Inductive raised : Type :=
| Model (e : exn)
| Exception (msg : string)
| ValueError
| ZeroDivisionError
| KeyError (key : string).

Inductive outcome (A : Type) : Type :=
| Return (a : A)
| Throw (e : raised).

Arguments Return {A} a.
Arguments Throw {A} e.

Definition lift {A : Type} (r : result A) : outcome A :=
  match r with
  | Ok a => Return a
  | Raise e => Throw (Model e)
  end.

Definition and_then {A B : Type} (m : outcome A) (k : A -> outcome B) : outcome B :=
  match m with
  | Return a => k a
  | Throw e => Throw e
  end.

Declare Scope outcome_scope.
Delimit Scope outcome_scope with outcome.
Notation "x <- m ;; k" := (and_then m (fun x => k))
  (at level 61, m at next level, right associativity) : outcome_scope.

(** The dictionary returned for one structure; an absent key is [None].
    The key ["atoms_per_graph"] of the prediction of [forward] is in none of
    the branches of [predict_graph]: it is not copied. *)
Record out : Type := mk_out {
  e : option R;
  f : option (list Vec3);
  s : option Mat3;
  m : option Vec;
  atom_fea : option Mat;
  crystal_fea : option Vec
}.

(** [{}] *)
Definition empty : out := mk_out None None None None None None.

(** [out[key] = v], key by key. *)
Definition set_e (v : R) (o : out) : out :=
  mk_out (Some v) (f o) (s o) (m o) (atom_fea o) (crystal_fea o).
Definition set_f (v : list Vec3) (o : out) : out :=
  mk_out (e o) (Some v) (s o) (m o) (atom_fea o) (crystal_fea o).
Definition set_s (v : Mat3) (o : out) : out :=
  mk_out (e o) (f o) (Some v) (m o) (atom_fea o) (crystal_fea o).
Definition set_m (v : Vec) (o : out) : out :=
  mk_out (e o) (f o) (s o) (Some v) (atom_fea o) (crystal_fea o).
Definition set_atom_fea (v : Mat) (o : out) : out :=
  mk_out (e o) (f o) (s o) (m o) (Some v) (crystal_fea o).
Definition set_crystal_fea (v : Vec) (o : out) : out :=
  mk_out (e o) (f o) (s o) (m o) (atom_fea o) (Some v).

(** [assert len(pred) == 1] and then [pred[0]], for a key that may be
    absent. *)
Definition the_only {A : Type} (pred : option (list A)) : result (option A) :=
  match pred with
  | Some [x] => Ok (Some x)
  | Some _ => Raise (AssertionError EmptyString)
  | None => Ok None
  end.

(** [pred.item()]: the tensor must hold exactly one element. The class of
    the exception is the one of the torch releases of the time of the
    sources. *)
Definition item (pred : Vec) : outcome R :=
  match pred with
  | [x] => Return x
  | _ => Throw ValueError
  end.

(** [l] with the element at position [k] replaced by [g] of it. *)
Fixpoint update {A : Type} (l : list A) (k : nat) (g : A -> A) : list A :=
  match l, k with
  | [], _ => []
  | x :: l', O => g x :: l'
  | x :: l', S k' => x :: update l' k' g
  end.

(** [predictions[index][key] = v], the assignment to the key being [set]:
    a negative index counts from the end, an index outside
    [-len(predictions), len(predictions)) raises. *)
Definition setitem (predictions : list out) (index : Z) (set : out -> out)
    : result (list out) :=
  let j := (if index <? 0 then index + Tensor.len predictions else index)%Z in
  if ((0 <=? j) && (j <? Tensor.len predictions))%Z
  then Ok (update predictions (Z.to_nat j) set)
  else Raise IndexError.

(** [for i, v in enumerate(pred): predictions[base + i][key] = v], for a
    key that may be absent. *)
Definition scatter {V : Type} (set : V -> out -> out) (base : Z)
    (pred : option (list V)) (predictions : list out) : result (list out) :=
  match pred with
  | Some pred =>
      foldM (fun predictions iv =>
               setitem predictions (base + Z.of_nat (fst iv)) (set (snd iv)))
            (enumerate pred) predictions
  | None => Ok predictions
  end.

(** [math.ceil(a / b)] for integers [a] and [b <> 0]: the float quotient
    is exact enough for every length a list can have. *)
Definition ceil_div (a b : Z) : Z := (- ((- a) / b))%Z.

(** The argument of [predict_graph]: a [Crystal_Graph], a list, or a value
    of any other type. *)
Inductive input (G : Type) : Type :=
| One (graph : G)
| Many (graphs : list G)
| Other.

Arguments One {G} graph.
Arguments Many {G} graphs.
Arguments Other {G}.

Section Model.
Context {basis : Basis} {layers : Layers} {params : Parameters} {autograd : Autograd}
        {structures : Structures}.

Local Open Scope outcome_scope.

(** The branch [type(graph) == Crystal_Graph] of [predict_graph]. The keys
    of the prediction come in the order [_compute] inserts them:
    ["atom_fea"], ["m"], ["crystal_fea"], ["f"], ["s"], ["e"]. *)
Definition predict_one (self : CHGNet.t) (graph : Crystal_Graph.t) (task : string)
    (return_atom_feas return_crystal_feas : bool) : outcome out :=
  prediction <- lift (CHGNet.forward self [graph] task
                        return_atom_feas return_crystal_feas) ;;
  atom_fea <- lift (the_only (CHGNet.atom_fea prediction)) ;;
  m <- lift (the_only (CHGNet.m prediction)) ;;
  let crystal_fea := option_map Tensor.view_flat (CHGNet.crystal_fea prediction) in
  f <- lift (the_only (CHGNet.f prediction)) ;;
  s <- lift (the_only (CHGNet.s prediction)) ;;
  e <- item (CHGNet.e prediction) ;;
  Return (mk_out (Some e) f s m atom_fea crystal_fea).

(** One iteration of the loop over [range(n_steps)] in the branch
    [type(graph) == list]. *)
Definition predict_batch (self : CHGNet.t) (graph : list Crystal_Graph.t)
    (task : string) (return_atom_feas return_crystal_feas : bool) (batch_size : Z)
    (predictions : list out) (n : nat) : result (list out) :=
  let n := Z.of_nat n in
  (prediction <- CHGNet.forward self
                   (CHGNet.slice graph (batch_size * n) (batch_size * (n + 1)))
                   task return_atom_feas return_crystal_feas ;;
   predictions <- scatter set_atom_fea (n * batch_size)
                    (CHGNet.atom_fea prediction) predictions ;;
   predictions <- scatter set_m (n * batch_size) (CHGNet.m prediction) predictions ;;
   predictions <- scatter set_crystal_fea (n * batch_size)
                    (CHGNet.crystal_fea prediction) predictions ;;
   predictions <- scatter set_f (n * batch_size) (CHGNet.f prediction) predictions ;;
   predictions <- scatter set_s (n * batch_size) (CHGNet.s prediction) predictions ;;
   scatter set_e (n * batch_size) (Some (CHGNet.e prediction)) predictions)%result.

(** The branch [type(graph) == list] of [predict_graph]. *)
Definition predict_many (self : CHGNet.t) (graph : list Crystal_Graph.t)
    (task : string) (return_atom_feas return_crystal_feas : bool) (batch_size : Z)
    : outcome (list out) :=
  let predictions := map (fun _ => empty) (seq 0 (length graph)) in
  if (batch_size =? 0)%Z then Throw ZeroDivisionError
  else
    let n_steps := ceil_div (Tensor.len graph) batch_size in
    lift (foldM (predict_batch self graph task return_atom_feas return_crystal_feas
                   batch_size)
                (CHGNet.range n_steps) predictions).

(** [predict_graph]: a dictionary for a graph, a list of dictionaries for
    a list. *)
Definition predict_graph (self : CHGNet.t) (graph : input Crystal_Graph.t)
    (task : string) (return_atom_feas return_crystal_feas : bool) (batch_size : Z)
    : outcome (out + list out) :=
  match graph with
  | One graph =>
      out <- predict_one self graph task return_atom_feas return_crystal_feas ;;
      Return (inl out)
  | Many graph =>
      predictions <- predict_many self graph task return_atom_feas return_crystal_feas
                       batch_size ;;
      Return (inr predictions)
  | Other => Throw (Exception "input should either be a graph or list of graphs!")
  end.

(** [self.graph_converter], the converter [CHGNet.__init__] builds from
    the two cutoffs. *)
Definition graph_converter (self : CHGNet.t) : Structure -> result Crystal_Graph.t :=
  CrystalGraphConverter
    (ModelArgs.atom_graph_cutoff (CHGNet.model_args self))
    (ModelArgs.bond_graph_cutoff (CHGNet.model_args self)).

(** [predict_structure]. Its assertion, [self.graph_converter != None],
    holds for every model [__init__] returns. A list is converted as a
    whole before anything is predicted. *)
Definition predict_structure (self : CHGNet.t) (structure : input Structure)
    (task : string) (return_atom_feas return_crystal_feas : bool) (batch_size : Z)
    : outcome (out + list out) :=
  match structure with
  | One structure =>
      graph <- lift (graph_converter self structure) ;;
      predict_graph self (One graph) task return_atom_feas return_crystal_feas batch_size
  | Many structure =>
      graphs <- lift (mapM (graph_converter self) structure) ;;
      predict_graph self (Many graphs) task return_atom_feas return_crystal_feas batch_size
  | Other =>
      Throw (Exception "input should either be a structure or list of structures!")
  end.

End Model.
End Predict.

(** ** CHGNetCalculator ([chgnet/model/dynamics.py]) *)

Module CHGNetCalculator.

Import Predict.

Record t : Type := mk {
  model : CHGNet.t;
  stress_weight : R
}.

(** The default of [stress_weight] in the signature of [__init__]. *)
Definition stress_weight_default : R := 1 / 160.21766208.

(** The entries [calculate] writes into [self.results]. *)
Record results : Type := mk_results {
  energy : R;
  forces : list Vec3;
  free_energy : R;
  magmoms : Vec;
  stress : Mat3
}.

(** [model_prediction[key]] *)
Definition lookup {A : Type} (key : string) (value : option A) : outcome A :=
  match value with
  | Some v => Return v
  | None => Throw (KeyError key)
  end.

Section Model.
Context {basis : Basis} {layers : Layers} {params : Parameters} {autograd : Autograd}
        {structures : Structures}.

Local Open Scope outcome_scope.
Local Open Scope R_scope.

(** [calculate], from the structure of the atoms on. The keyword arguments
    of [self.results.update] are evaluated in the order they are written. *)
Definition calculate (self : t) (structure : Structure) : outcome results :=
  graph <- lift (Predict.graph_converter (model self) structure) ;;
  model_prediction <- predict_graph (model self) (One graph) "efsm" false false 100 ;;
  match model_prediction with
  | inl model_prediction =>
      let factor :=
        if negb (CHGNet.is_intensive (model self)) then 1 else num_atoms structure in
      e <- lookup "e" (Predict.e model_prediction) ;;
      f <- lookup "f" (Predict.f model_prediction) ;;
      e' <- lookup "e" (Predict.e model_prediction) ;;
      m <- lookup "m" (Predict.m model_prediction) ;;
      s <- lookup "s" (Predict.s model_prediction) ;;
      Return (mk_results (e * factor) f (e' * factor) m
                (Tensor.map_mat3 (fun x => x * stress_weight self) s))
  | inr _ => Throw (Model TypeError)
  end.

End Model.
End CHGNetCalculator.

(** ** TrajectoryObserver ([chgnet/model/dynamics.py]) *)

Module TrajectoryObserver.

Import Predict.

(** What the observer reads from the [Atoms] object it observes, at the
    time of a call. The object is shared with the optimizer, which changes
    it between two calls; its class is ASE's. The getters that run the
    calculator may raise. *)
Record Atoms : Type := mk_atoms {
  get_potential_energy : outcome R;
  get_forces : outcome (list Vec3);
  get_stress : outcome Vec;
  get_magnetic_moments : outcome Vec;
  get_positions : list Vec3;
  get_cell : Mat3
}.

Record t : Type := mk {
  energies : list R;
  forces : list (list Vec3);
  stresses : list Vec;
  magmoms : list Vec;
  atom_positions : list (list Vec3);
  cells : list Mat3
}.

Definition __init__ : t := mk [] [] [] [] [] [].

(** [compute_energy] *)
Definition compute_energy (atoms : Atoms) : outcome R := get_potential_energy atoms.

(** [__call__] on the observer [self], the observed object being in the
    state [atoms]: the observer after the call, and the exception if one
    was raised. The lists appended to before the exception stay so. *)
Definition __call__ (self : t) (atoms : Atoms) : t * option raised :=
  match compute_energy atoms with
  | Throw e => (self, Some e)
  | Return energy =>
      let self := mk (energies self ++ [energy]) (forces self) (stresses self)
                     (magmoms self) (atom_positions self) (cells self) in
      match get_forces atoms with
      | Throw e => (self, Some e)
      | Return f =>
          let self := mk (energies self) (forces self ++ [f]) (stresses self)
                         (magmoms self) (atom_positions self) (cells self) in
          match get_stress atoms with
          | Throw e => (self, Some e)
          | Return s =>
              let self := mk (energies self) (forces self) (stresses self ++ [s])
                             (magmoms self) (atom_positions self) (cells self) in
              match get_magnetic_moments atoms with
              | Throw e => (self, Some e)
              | Return m =>
                  (mk (energies self) (forces self) (stresses self)
                      (magmoms self ++ [m])
                      (atom_positions self ++ [get_positions atoms])
                      (cells self ++ [get_cell atoms]),
                   None)
              end
          end
      end
  end.

(** The observer called once for every state of a list, up to the first
    exception. *)
Fixpoint observe (self : t) (states : list Atoms) : t * option raised :=
  match states with
  | [] => (self, None)
  | atoms :: rest =>
      match __call__ self atoms with
      | (self, None) => observe self rest
      | (self, Some e) => (self, Some e)
      end
  end.

End TrajectoryObserver.

(** ** More concrete inputs *)

(** A converter for the small concrete model: its structures are the
    graphs themselves. *)
Module ExampleStructures.

#[local] Instance structures : Structures := {
  Structure := Crystal_Graph.t;
  CrystalGraphConverter := fun _ _ graph => Ok graph;
  num_atoms := fun graph => INR (length (Crystal_Graph.atomic_number graph))
}.

End ExampleStructures.

(** The constructor arguments of the small concrete model with another
    width of the angular basis. *)
Definition args_num_angular (n : Z) : ModelArgs.t :=
  ModelArgs.mk 2 2 2 None 1 n 2 [2%Z] true [2%Z] false [0%Z] 0%R "ave" [2%Z] 0%R
    false true "silu" 5%R 3%R 5%R false None None None None None None.

(** ** More definitions used in the statements *)

(** [pred[k]] for a key of a prediction that may be absent, [None] when
    there is no such entry. *)
Definition entry {A : Type} (pred : option (list A)) (k : nat) : option A :=
  match pred with
  | Some l => nth_error l k
  | None => None
  end.

(** The vector from the periodic image of every neighbour to its centre,
    [center - (neighbor + image @ lattice)], row by row. *)
Definition displacements (center neighbor image : list Vec3) (lattice : Mat3)
    : list Vec3 :=
  Tensor.map2 Tensor.sub3 center
    (Tensor.map2 Tensor.add3 neighbor (Tensor.matmul_rows image lattice)).

(** The result of [r] with [fn] applied to the value it returns. *)
Definition map_result {A B : Type} (fn : A -> B) (r : result A) : result B :=
  match r with
  | Ok a => Ok (fn a)
  | Raise e => Raise e
  end.

(** The body of the loop of [from_graphs] once the strain, the lattice and
    the Cartesian coordinates of the structure are computed. *)
Definition step_core (bond_basis_expansion : BondEncoder.t)
    (angle_basis_expansion : AngleEncoder.t) (strain : option Mat3) (lattice : Mat3)
    (atom_cart_coords : list Vec3) (st : BatchedGraph.loop_state)
    (graph_idx : nat) (graph : Crystal_Graph.t) : result BatchedGraph.loop_state :=
  let n_atom := length (Crystal_Graph.atomic_number graph) in
  let volume := Tensor.det lattice in
  center <- Tensor.getitem atom_cart_coords (map fst (Crystal_Graph.atom_graph graph)) ;;
  neighbor <- Tensor.getitem atom_cart_coords (map snd (Crystal_Graph.atom_graph graph)) ;;
  '(bond_basis_ag, bond_basis_bg, bond_vectors) <-
    BondEncoder.forward bond_basis_expansion center neighbor
      (Crystal_Graph.undirected2directed graph)
      (Crystal_Graph.neighbor_image graph) lattice ;;
  '(angle_bases, batched_bond_graph) <-
    (if negb (length (Crystal_Graph.bond_graph graph) =? 0)%nat then
       bond_vecs_i <- Tensor.index_select bond_vectors
                        (map Crystal_Graph.col2 (Crystal_Graph.bond_graph graph)) ;;
       bond_vecs_j <- Tensor.index_select bond_vectors
                        (map Crystal_Graph.col4 (Crystal_Graph.bond_graph graph)) ;;
       angle_basis <- AngleEncoder.forward angle_basis_expansion bond_vecs_i bond_vecs_j ;;
       Ok (BatchedGraph.l_angle_bases st ++ [angle_basis],
           BatchedGraph.l_batched_bond_graph st ++
             [BatchedGraph.offset_bond_graph (Crystal_Graph.bond_graph graph)
                (BatchedGraph.atom_offset_idx st) (BatchedGraph.n_undirected st)])
     else Ok (BatchedGraph.l_angle_bases st, BatchedGraph.l_batched_bond_graph st)) ;;
  Ok (BatchedGraph.mk_state
        (BatchedGraph.l_atomic_numbers st ++ [Crystal_Graph.atomic_number graph])
        (BatchedGraph.l_atom_positions st ++ [atom_cart_coords])
        (BatchedGraph.l_strains st ++ [strain])
        (BatchedGraph.l_volumes st ++ [volume])
        (BatchedGraph.l_bond_bases_ag st ++ [bond_basis_ag])
        (BatchedGraph.l_bond_bases_bg st ++ [bond_basis_bg])
        angle_bases
        (BatchedGraph.l_batched_atom_graph st ++
           [BatchedGraph.offset_atom_graph (Crystal_Graph.atom_graph graph)
              (BatchedGraph.atom_offset_idx st)])
        batched_bond_graph
        (BatchedGraph.l_directed2undirected st ++
           [BatchedGraph.offset_directed2undirected
              (Crystal_Graph.directed2undirected graph)
              (BatchedGraph.n_undirected st)])
        (BatchedGraph.l_atom_owners st ++ [repeat graph_idx n_atom])
        (BatchedGraph.atom_offset_idx st + Z.of_nat n_atom)
        (BatchedGraph.n_undirected st + Tensor.len bond_basis_ag)).

(** A loop state and a batch without the tensors kept for differentiation:
    the positions and the strains. Nothing [_compute] evaluates reads
    them. *)
Definition forget_leaves (st : BatchedGraph.loop_state) : BatchedGraph.loop_state :=
  BatchedGraph.mk_state
    (BatchedGraph.l_atomic_numbers st) [] [] (BatchedGraph.l_volumes st)
    (BatchedGraph.l_bond_bases_ag st) (BatchedGraph.l_bond_bases_bg st)
    (BatchedGraph.l_angle_bases st) (BatchedGraph.l_batched_atom_graph st)
    (BatchedGraph.l_batched_bond_graph st) (BatchedGraph.l_directed2undirected st)
    (BatchedGraph.l_atom_owners st) (BatchedGraph.atom_offset_idx st)
    (BatchedGraph.n_undirected st).

Definition without_leaves (g : BatchedGraph.t) : BatchedGraph.t :=
  BatchedGraph.mk
    (BatchedGraph.atomic_numbers g) (BatchedGraph.bond_bases_ag g)
    (BatchedGraph.bond_bases_bg g) (BatchedGraph.angle_bases g)
    (BatchedGraph.batched_atom_graph g) (BatchedGraph.batched_bond_graph g)
    (BatchedGraph.atom_owners g) (BatchedGraph.directed2undirected g)
    [] [] (BatchedGraph.volumes g).

(** The structure of [graph] moved as a whole: [t] is added to the
    fractional coordinates of every atom. *)
Definition translate (t : Vec3) (graph : Crystal_Graph.t) : Crystal_Graph.t :=
  Crystal_Graph.mk
    (Crystal_Graph.atomic_number graph)
    (map (Tensor.add3 t) (Crystal_Graph.atom_frac_coord graph))
    (Crystal_Graph.lattice graph) (Crystal_Graph.atom_graph graph)
    (Crystal_Graph.undirected2directed graph) (Crystal_Graph.directed2undirected graph)
    (Crystal_Graph.neighbor_image graph) (Crystal_Graph.bond_graph graph).

(** A graph without the coordinates of its atoms: what is left is the
    lattice and the tables of bonds and angles. *)
Definition without_coords (graph : Crystal_Graph.t) : Crystal_Graph.t :=
  Crystal_Graph.mk
    (Crystal_Graph.atomic_number graph) []
    (Crystal_Graph.lattice graph) (Crystal_Graph.atom_graph graph)
    (Crystal_Graph.undirected2directed graph) (Crystal_Graph.directed2undirected graph)
    (Crystal_Graph.neighbor_image graph) (Crystal_Graph.bond_graph graph).

(** A key of a prediction with at most [n] entries, and a prediction all of
    whose keys have at most [n]. *)
Definition at_most {A : Type} (n : Z) (pred : option (list A)) : bool :=
  match pred with
  | Some l => (Tensor.len l <=? n)%Z
  | None => true
  end.

Definition fits (n : Z) (p : CHGNet.prediction) : bool :=
  (Tensor.len (CHGNet.e p) <=? n)%Z
  && at_most n (CHGNet.f p) && at_most n (CHGNet.s p) && at_most n (CHGNet.m p)
  && at_most n (CHGNet.atom_fea p) && at_most n (CHGNet.crystal_fea p).

(** The dictionary of the structure at position [i] of a prediction:
    entry [i] of every key the prediction has. *)
Definition out_of (p : CHGNet.prediction) (i : nat) : Predict.out :=
  Predict.mk_out (nth_error (CHGNet.e p) i) (entry (CHGNet.f p) i)
    (entry (CHGNet.s p) i) (entry (CHGNet.m p) i) (entry (CHGNet.atom_fea p) i)
    (entry (CHGNet.crystal_fea p) i).

(** [x] when it is there, [y] otherwise. *)
Definition or_else {A : Type} (x y : option A) : option A :=
  match x with
  | Some v => Some v
  | None => y
  end.

(** * Properties *)

(** ** The result monad *)

Lemma bind_Ok_inv : forall (A B : Type) (m : result A) (k : A -> result B) (b : B),
  bind m k = Ok b -> exists a, m = Ok a /\ k a = Ok b.
Proof.
  intros A B [a | err] k b H; simpl in H.
  - exists a; split; [reflexivity | exact H].
  - discriminate H.
Qed.

(** ** AngleEncoder *)

(** C6: constructing the angle encoder with an even width [2k] raises the
    assertion, before anything is built; with an odd width [2k + 1] it
    returns an encoder, of circular harmonics order [k]. *)
Theorem AngleEncoder_init_even_fails_odd_succeeds :
  forall (basis : Basis) (k : Z) (learnable : bool),
    AngleEncoder.__init__ (2 * k) learnable
      = Raise (AssertionError "angle_feature_dim can only be odd integer!")
    /\ AngleEncoder.__init__ (2 * k + 1) learnable
      = Ok (AngleEncoder.mk k (Fourier k learnable)).
Proof.
  intros basis k learnable; unfold AngleEncoder.__init__; split.
  - replace ((2 * k - 1) mod 2)%Z with 1%Z; [reflexivity | ].
    apply (Z.mod_unique (2 * k - 1) 2 (k - 1) 1); lia.
  - replace (2 * k + 1 - 1)%Z with (k * 2)%Z by lia.
    rewrite Z.mod_mul by lia. simpl.
    rewrite Z.quot_mul by lia. reflexivity.
Qed.

(** ** CHGNet.split *)

Section Split.
Variable A : Type.
Variable x : list A.

Lemma split_loop : forall (n : list Z) (start : Z) (result : list (list A)),
  fold_left (fun acc i =>
               let '(start, result) := acc in
               ((start + i)%Z, result ++ [CHGNet.slice x start (start + i)]))
            n (start, result)
  = ((start + total n)%Z, result ++ slices x start n).
Proof.
  induction n as [| i n IH]; intros start result; simpl.
  - rewrite Z.add_0_r, app_nil_r; reflexivity.
  - rewrite IH, <- app_assoc; simpl. f_equal. lia.
Qed.

Lemma firstn_add_skipn : forall (a b : nat) (l : list A),
  firstn (a + b) l = firstn a l ++ firstn b (skipn a l).
Proof.
  induction a as [| a IH]; intros b l; simpl; [reflexivity | ].
  destruct l as [| y l]; simpl.
  - rewrite firstn_nil; reflexivity.
  - rewrite IH; reflexivity.
Qed.

Lemma slice_in_range : forall (start i : Z),
  (0 <= start)%Z -> (0 <= i)%Z -> (start + i <= Tensor.len x)%Z ->
  CHGNet.slice x start (start + i)
  = firstn (Z.to_nat i) (skipn (Z.to_nat start) x).
Proof.
  intros start i Hs Hi Hle; unfold CHGNet.slice.
  destruct (Z.ltb_spec start 0); [lia | ].
  destruct (Z.ltb_spec (start + i) 0); [lia | ].
  rewrite !Z.min_l by lia.
  replace (start + i - start)%Z with i by lia; reflexivity.
Qed.

Lemma slices_concat : forall (n : list Z) (start : Z),
  (0 <= start)%Z -> Forall (fun i => (0 <= i)%Z) n ->
  (start + total n <= Tensor.len x)%Z ->
  concat (slices x start n)
    = firstn (Z.to_nat (total n)) (skipn (Z.to_nat start) x)
  /\ map (@Tensor.len A) (slices x start n) = n.
Proof.
  induction n as [| i n IH]; intros start Hs Hn Hle; simpl.
  - split; reflexivity.
  - inversion Hn as [| ? ? Hi Hn']; subst.
    assert (Ht : (0 <= total n)%Z).
    { clear - Hn'. induction Hn'; simpl; [lia | unfold total in *; lia]. }
    simpl in Hle.
    destruct (IH (start + i)%Z) as [IHc IHl]; [lia | assumption | lia | ].
    rewrite slice_in_range by lia.
    rewrite IHc, IHl. split.
    + rewrite (Z2Nat.inj_add i (total n)) by lia.
      rewrite firstn_add_skipn, skipn_skipn.
      replace (Z.to_nat i + Z.to_nat start)%nat with (Z.to_nat (start + i)) by lia.
      reflexivity.
    + f_equal. unfold Tensor.len at 1.
      rewrite firstn_length_le; [lia | ].
      rewrite length_skipn. unfold Tensor.len in Hle. lia.
Qed.

End Split.

(** C4: [split] raises its assertion whenever the counts do not add up to
    the length of [x]; when they do, and the counts are counts (none is
    negative), the slices have the lengths asked for and their concatenation
    is [x]. *)
Theorem split_fails_on_mismatch_and_reconstructs :
  forall (A : Type) (x : list A) (n : list Z),
    (total n <> Tensor.len x ->
     CHGNet.split x n
       = Raise (AssertionError "Error: source tensor not correctly split!"))
    /\ (Forall (fun i => (0 <= i)%Z) n -> total n = Tensor.len x ->
        exists parts, CHGNet.split x n = Ok parts
                      /\ concat parts = x
                      /\ map (@Tensor.len A) parts = n).
Proof.
  intros A x n; unfold CHGNet.split; rewrite split_loop; simpl; split.
  - intros Hne. destruct (Z.eqb_spec (total n) (Tensor.len x)); [contradiction | reflexivity].
  - intros Hn Heq. rewrite Heq, Z.eqb_refl.
    destruct (@slices_concat A x n 0%Z) as [Hc Hl]; [lia | assumption | lia | ].
    exists (slices x 0 n); repeat split; [ | exact Hl].
    rewrite Hc, Heq; simpl. unfold Tensor.len.
    rewrite Nat2Z.id. apply firstn_all.
Qed.

Lemma split_fails_on_mismatch_and_reconstructs_witness :
  CHGNet.split [1; 2; 3]%nat [2; 2]%Z
    = Raise (AssertionError "Error: source tensor not correctly split!")
  /\ exists parts, CHGNet.split [1; 2; 3]%nat [2; 0; 1]%Z = Ok parts
                   /\ concat parts = [1; 2; 3]%nat
                   /\ map (@Tensor.len nat) parts = [2; 0; 1]%Z.
Proof.
  split.
  - apply (split_fails_on_mismatch_and_reconstructs [1; 2; 3]%nat [2; 2]%Z).
    vm_compute; discriminate.
  - apply (split_fails_on_mismatch_and_reconstructs [1; 2; 3]%nat [2; 0; 1]%Z).
    + repeat constructor; vm_compute; discriminate.
    + reflexivity.
Defined.

(** A negative entry of [n] moves the start backwards: the assertion can
    pass while a row is returned twice, so the counts of the theorem have to
    be counts. *)
Remark split_with_a_negative_count :
  CHGNet.split [1; 2; 3]%nat [2; -1; 2]%Z = Ok [[1; 2]; []; [2; 3]]%nat.
Proof. reflexivity. Qed.

(** ** BatchedGraph.from_graphs *)

Lemma mapM_length : forall (A B : Type) (f : A -> result B) (l : list A) (bs : list B),
  mapM f l = Ok bs -> length bs = length l.
Proof.
  induction l as [| a l IH]; intros bs H; simpl in H.
  - injection H as <-; reflexivity.
  - bind_inv H. injection H as <-. simpl. f_equal. apply IH. reflexivity.
Qed.

Lemma index_select_length : forall (A : Type) (input : list A) (index : list Z) (out : list A),
  Tensor.index_select input index = Ok out -> length out = length index.
Proof. intros A input index out H. exact (mapM_length _ _ H). Qed.

Section FromGraphs.
Variables (bbe : BondEncoder.t) (abe : AngleEncoder.t) (cs : bool)
          (lv : BatchedGraph.leaves).

Lemma BondEncoder_forward_length :
  forall self center neighbor u2d image lattice ag bg vectors,
    BondEncoder.forward self center neighbor u2d image lattice = Ok (ag, bg, vectors) ->
    Tensor.len ag = Tensor.len u2d.
Proof.
  intros self center neighbor u2d image lattice ag bg vectors H.
  unfold BondEncoder.forward in H. bind_inv H.
  injection H as <- _ _. unfold Tensor.len.
  rewrite length_map. f_equal. eapply index_select_length; eassumption.
Qed.

Lemma step_inv : forall st k graph st',
  BatchedGraph.step bbe abe cs lv st (k, graph) = Ok st' ->
  BatchedGraph.l_atomic_numbers st'
    = BatchedGraph.l_atomic_numbers st ++ [Crystal_Graph.atomic_number graph]
  /\ BatchedGraph.l_atom_positions st'
    = BatchedGraph.l_atom_positions st ++ [positions_of cs lv k graph]
  /\ BatchedGraph.l_strains st'
    = BatchedGraph.l_strains st
        ++ [if cs then Some (BatchedGraph.strain_at lv k) else None]
  /\ BatchedGraph.l_volumes st'
    = BatchedGraph.l_volumes st ++ [Tensor.det (lattice_of cs lv k graph)]
  /\ BatchedGraph.l_batched_atom_graph st'
    = BatchedGraph.l_batched_atom_graph st
        ++ [BatchedGraph.offset_atom_graph (Crystal_Graph.atom_graph graph)
              (BatchedGraph.atom_offset_idx st)]
  /\ concat (BatchedGraph.l_batched_bond_graph st')
    = concat (BatchedGraph.l_batched_bond_graph st)
        ++ BatchedGraph.offset_bond_graph (Crystal_Graph.bond_graph graph)
             (BatchedGraph.atom_offset_idx st) (BatchedGraph.n_undirected st)
  /\ BatchedGraph.l_directed2undirected st'
    = BatchedGraph.l_directed2undirected st
        ++ [BatchedGraph.offset_directed2undirected
              (Crystal_Graph.directed2undirected graph)
              (BatchedGraph.n_undirected st)]
  /\ BatchedGraph.l_atom_owners st'
    = BatchedGraph.l_atom_owners st
        ++ [repeat k (length (Crystal_Graph.atomic_number graph))]
  /\ BatchedGraph.atom_offset_idx st'
    = (BatchedGraph.atom_offset_idx st + n_atom graph)%Z
  /\ BatchedGraph.n_undirected st'
    = (BatchedGraph.n_undirected st + n_bond graph)%Z.
Proof.
  intros st k graph st' H.
  unfold BatchedGraph.step in H.
  unfold positions_of, lattice_of.
  destruct cs; bind_inv H; injection H as <-; cbn [BatchedGraph.l_atomic_numbers
    BatchedGraph.l_atom_positions BatchedGraph.l_strains BatchedGraph.l_volumes
    BatchedGraph.l_batched_atom_graph BatchedGraph.l_batched_bond_graph
    BatchedGraph.l_directed2undirected BatchedGraph.l_atom_owners
    BatchedGraph.atom_offset_idx BatchedGraph.n_undirected].
  all: repeat (split; [reflexivity | ]).
  all: split; [ | repeat (split; [reflexivity | ]);
                  f_equal; eapply BondEncoder_forward_length; eassumption ].
  all: destruct (Crystal_Graph.bond_graph graph) as [| r rest] eqn:Ebg;
    cbn [length Nat.eqb negb] in E2;
    [ injection E2 as _ <-; cbn; rewrite app_nil_r; reflexivity
    | bind_inv E2; injection E2 as _ <-;
      rewrite concat_app; cbn [concat]; rewrite app_nil_r; reflexivity ].
Qed.

Lemma fold_step_inv : forall gs i st st',
  foldM (BatchedGraph.step bbe abe cs lv) (combine (seq i (length gs)) gs) st = Ok st' ->
  let ao := BatchedGraph.atom_offset_idx st in
  let nu := BatchedGraph.n_undirected st in
  BatchedGraph.l_atomic_numbers st'
    = BatchedGraph.l_atomic_numbers st ++ map Crystal_Graph.atomic_number gs
  /\ BatchedGraph.l_atom_positions st'
    = BatchedGraph.l_atom_positions st
        ++ pieces (fun k _ _ graph => positions_of cs lv k graph) i ao nu gs
  /\ BatchedGraph.l_strains st'
    = BatchedGraph.l_strains st
        ++ pieces (fun k _ _ _ => if cs then Some (BatchedGraph.strain_at lv k) else None)
             i ao nu gs
  /\ BatchedGraph.l_volumes st'
    = BatchedGraph.l_volumes st
        ++ pieces (fun k _ _ graph => Tensor.det (lattice_of cs lv k graph)) i ao nu gs
  /\ BatchedGraph.l_batched_atom_graph st'
    = BatchedGraph.l_batched_atom_graph st
        ++ pieces (fun _ ao _ graph =>
                     BatchedGraph.offset_atom_graph (Crystal_Graph.atom_graph graph) ao)
             i ao nu gs
  /\ concat (BatchedGraph.l_batched_bond_graph st')
    = concat (BatchedGraph.l_batched_bond_graph st)
        ++ concat (pieces (fun _ ao nu graph =>
                             BatchedGraph.offset_bond_graph
                               (Crystal_Graph.bond_graph graph) ao nu)
                     i ao nu gs)
  /\ BatchedGraph.l_directed2undirected st'
    = BatchedGraph.l_directed2undirected st
        ++ pieces (fun _ _ nu graph =>
                     BatchedGraph.offset_directed2undirected
                       (Crystal_Graph.directed2undirected graph) nu)
             i ao nu gs
  /\ BatchedGraph.l_atom_owners st'
    = BatchedGraph.l_atom_owners st
        ++ pieces (fun k _ _ graph =>
                     repeat k (length (Crystal_Graph.atomic_number graph)))
             i ao nu gs.
Proof.
  induction gs as [| graph gs IH]; intros i st st' H; cbn [length seq combine foldM] in H.
  - injection H as <-. cbn [pieces map concat]. rewrite !app_nil_r. repeat split.
  - bind_inv H. rename a into st1.
    apply step_inv in E.
    destruct E as (E1 & E2 & E3 & E4 & E5 & E6 & E7 & E8 & E9 & E10).
    apply IH in H. cbv zeta in H.
    destruct H as (H1 & H2 & H3 & H4 & H5 & H6 & H7 & H8).
    rewrite E9, E10 in *. cbv zeta. cbn [pieces map concat].
    rewrite H1, H2, H3, H4, H5, H6, H7, H8, E1, E2, E3, E4, E5, E6, E7, E8.
    rewrite <- !app_assoc. repeat split.
Qed.

End FromGraphs.

Lemma combine_seq_S : forall (A : Type) (l : list A) (s : nat),
  combine (seq (S s) (length l)) l
  = map (fun kg => (S (fst kg), snd kg)) (combine (seq s (length l)) l).
Proof.
  induction l as [| a l IH]; intros s; cbn [length seq combine map].
  - reflexivity.
  - rewrite IH. reflexivity.
Qed.

Lemma enumerate_cons : forall (A : Type) (a : A) (l : list A),
  enumerate (a :: l) = (0%nat, a) :: map (fun kg => (S (fst kg), snd kg)) (enumerate l).
Proof.
  intros A a l. unfold enumerate. cbn [length seq combine].
  rewrite combine_seq_S. reflexivity.
Qed.

Lemma pieces_closed : forall (B : Type) (piece : nat -> Z -> Z -> Crystal_Graph.t -> B)
    (gs : list Crystal_Graph.t) (i : nat) (ao nu : Z),
  pieces piece i ao nu gs
  = map (fun kg => piece (i + fst kg)%nat (ao + atoms_before gs (fst kg))%Z
                     (nu + bonds_before gs (fst kg))%Z (snd kg))
        (enumerate gs).
Proof.
  induction gs as [| graph gs IH]; intros i ao nu.
  - reflexivity.
  - rewrite enumerate_cons. cbn [pieces map fst snd].
    unfold atoms_before, bonds_before at 1. cbn [firstn map total fold_right].
    rewrite Nat.add_0_r, !Z.add_0_r. f_equal.
    rewrite IH, map_map. apply map_ext. intros [k g]. cbn [fst snd].
    unfold atoms_before, bonds_before. cbn [firstn map total fold_right].
    f_equal; unfold total; lia.
Qed.

Lemma cat_Ok_inv : forall (A : Type) (tensors : list (list A)) (out : list A),
  Tensor.cat tensors = Ok out -> tensors <> [] /\ out = concat tensors.
Proof.
  intros A [| t ts] out H; cbn in H; [discriminate H | ].
  injection H as <-. split; [discriminate | reflexivity].
Qed.

(** The tensors of the batch [from_graphs] returns, structure by
    structure. *)
Lemma from_graphs_at_inv : forall graphs bbe abe cs lv g,
  BatchedGraph.from_graphs_at graphs bbe abe cs lv = Ok g ->
  graphs <> []
  /\ BatchedGraph.atomic_numbers g = concat (map Crystal_Graph.atomic_number graphs)
  /\ BatchedGraph.atom_positions g
     = map (fun kg => positions_of cs lv (fst kg) (snd kg)) (enumerate graphs)
  /\ BatchedGraph.strains g
     = map (fun kg => if cs then Some (BatchedGraph.strain_at lv (fst kg)) else None)
         (enumerate graphs)
  /\ BatchedGraph.volumes g
     = map (fun kg => Tensor.det (lattice_of cs lv (fst kg) (snd kg))) (enumerate graphs)
  /\ BatchedGraph.batched_atom_graph g
     = concat (map (fun kg =>
                      BatchedGraph.offset_atom_graph
                        (Crystal_Graph.atom_graph (snd kg))
                        (atoms_before graphs (fst kg)))
                 (enumerate graphs))
  /\ BatchedGraph.batched_bond_graph g
     = concat (map (fun kg =>
                      BatchedGraph.offset_bond_graph
                        (Crystal_Graph.bond_graph (snd kg))
                        (atoms_before graphs (fst kg)) (bonds_before graphs (fst kg)))
                 (enumerate graphs))
  /\ BatchedGraph.directed2undirected g
     = concat (map (fun kg =>
                      BatchedGraph.offset_directed2undirected
                        (Crystal_Graph.directed2undirected (snd kg))
                        (bonds_before graphs (fst kg)))
                 (enumerate graphs))
  /\ BatchedGraph.atom_owners g
     = concat (map (fun kg =>
                      repeat (fst kg) (length (Crystal_Graph.atomic_number (snd kg))))
                 (enumerate graphs)).
Proof.
  intros graphs bbe abe cs lv g H.
  unfold BatchedGraph.from_graphs_at in H. bind_inv H. rename a into st.
  apply fold_step_inv in E. cbv zeta in E.
  cbn [BatchedGraph.initial_state BatchedGraph.l_atomic_numbers
       BatchedGraph.l_atom_positions BatchedGraph.l_strains BatchedGraph.l_volumes
       BatchedGraph.l_batched_atom_graph BatchedGraph.l_batched_bond_graph
       BatchedGraph.l_directed2undirected BatchedGraph.l_atom_owners
       BatchedGraph.atom_offset_idx BatchedGraph.n_undirected app concat] in E.
  destruct E as (E1 & E2 & E3 & E4 & E5 & E6 & E7 & E8).
  unfold BatchedGraph.make_tensors in H. bind_inv H. injection H as <-.
  cbn [BatchedGraph.atomic_numbers BatchedGraph.atom_positions BatchedGraph.strains
       BatchedGraph.volumes BatchedGraph.batched_atom_graph
       BatchedGraph.batched_bond_graph BatchedGraph.directed2undirected
       BatchedGraph.atom_owners].
  apply cat_Ok_inv in E, E11, E13, E14.
  destruct E as [Hne ->], E11 as [_ ->], E13 as [_ ->], E14 as [_ ->].
  assert (Hbg : a4 = concat (BatchedGraph.l_batched_bond_graph st)).
  { destruct (BatchedGraph.l_batched_bond_graph st) as [| b bs] eqn:Eb.
    - injection E12 as <-; reflexivity.
    - apply cat_Ok_inv in E12. apply E12. }
  rewrite Hbg, E1, E2, E3, E4, E5, E6, E7, E8, !pieces_closed.
  split.
  { intros ->. apply Hne. rewrite E1. reflexivity. }
  repeat split; repeat f_equal.
Qed.

Lemma in_range_spec : forall i n, in_range i n = true <-> (0 <= i < n)%Z.
Proof.
  intros i n; unfold in_range. rewrite andb_true_iff, Z.leb_le, Z.ltb_lt. tauto.
Qed.

Lemma mapM_ok : forall (A B : Type) (f : A -> result B) (l : list A),
  Forall (fun a => exists b, f a = Ok b) l ->
  exists bs, mapM f l = Ok bs.
Proof.
  induction 1 as [| a l [b Hb] _ [bs Hbs]]; cbn [mapM].
  - eexists; reflexivity.
  - rewrite Hb, Hbs. eexists; reflexivity.
Qed.

Lemma nth_error_in_range : forall (A : Type) (input : list A) (i : Z),
  (0 <= i < Tensor.len input)%Z -> exists a, nth_error input (Z.to_nat i) = Some a.
Proof.
  intros A input i Hi. unfold Tensor.len in Hi.
  destruct (nth_error input (Z.to_nat i)) as [a |] eqn:E.
  - exists a; reflexivity.
  - apply nth_error_None in E. lia.
Qed.

Lemma index_select_ok : forall (A : Type) (input : list A) (index : list Z),
  forallb (fun i => in_range i (Tensor.len input)) index = true ->
  exists out, Tensor.index_select input index = Ok out.
Proof.
  intros A input index H. apply mapM_ok.
  rewrite forallb_forall in H. apply Forall_forall. intros i Hi.
  specialize (H i Hi). unfold in_range in H. rewrite H.
  apply in_range_spec in H.
  destruct (nth_error_in_range input H) as [a ->]. exists a; reflexivity.
Qed.

Lemma getitem_ok : forall (A : Type) (input : list A) (index : list Z),
  forallb (fun i => in_range i (Tensor.len input)) index = true ->
  exists out, Tensor.getitem input index = Ok out /\ length out = length index.
Proof.
  intros A input index H.
  assert (Hex : exists out, Tensor.getitem input index = Ok out).
  { apply mapM_ok.
    rewrite forallb_forall in H. apply Forall_forall. intros i Hi.
    specialize (H i Hi). cbv zeta.
    pose proof H as Hr. apply in_range_spec in Hr.
    destruct (Z.ltb_spec i 0); [lia | ].
    unfold in_range in H. rewrite H.
    destruct (nth_error_in_range input Hr) as [a ->]. exists a; reflexivity. }
  destruct Hex as [out Hout]. exists out; split; [exact Hout | ].
  exact (mapM_length _ _ Hout).
Qed.

Lemma map2_length : forall (A B C : Type) (f : A -> B -> C) (xs : list A) (ys : list B),
  length xs = length ys -> length (Tensor.map2 f xs ys) = length xs.
Proof.
  induction xs as [| x xs IH]; intros [| y ys] H; cbn in *; try discriminate; auto.
Qed.

Lemma broadcast2_same_length :
  forall (A B C : Type) (f : A -> B -> C) (xs : list A) (ys : list B),
    length xs = length ys ->
    Tensor.broadcast2 f xs ys = Ok (Tensor.map2 f xs ys).
Proof.
  intros A B C f xs ys H. unfold Tensor.broadcast2.
  destruct xs as [| x [| x' xs]]; destruct ys as [| y [| y' ys]];
    cbn in H; try discriminate H; try reflexivity.
  cbn [length]. rewrite (proj2 (Nat.eqb_eq _ _)) by (cbn in H; lia). reflexivity.
Qed.

Lemma BondEncoder_forward_ok :
  forall self center neighbor u2d image lattice,
    length center = length neighbor -> length image = length neighbor ->
    forallb (fun i => in_range i (Tensor.len neighbor)) u2d = true ->
    exists ag bg vectors,
      BondEncoder.forward self center neighbor u2d image lattice = Ok (ag, bg, vectors)
      /\ length vectors = length neighbor.
Proof.
  intros self center neighbor u2d image lattice Hc Hi Hu.
  unfold BondEncoder.forward.
  rewrite broadcast2_same_length
    by (unfold Tensor.matmul_rows; rewrite length_map; symmetry; exact Hi).
  cbn [bind].
  assert (Hn : length (Tensor.map2 Tensor.add3 neighbor (Tensor.matmul_rows image lattice))
               = length neighbor).
  { apply map2_length. unfold Tensor.matmul_rows. rewrite length_map. symmetry; exact Hi. }
  rewrite broadcast2_same_length by (rewrite Hn; exact Hc).
  cbn [bind].
  set (vectors := Tensor.map2 Tensor.sub3 center _).
  assert (Hv : length vectors = length neighbor).
  { unfold vectors. rewrite map2_length; [exact Hc | rewrite Hn; exact Hc]. }
  destruct (@index_select_ok _ (map Tensor.norm3 vectors) u2d) as [out Hout].
  { unfold Tensor.len in *. rewrite length_map, Hv. exact Hu. }
  rewrite Hout. cbn [bind].
  do 3 eexists. split; [reflexivity | ]. rewrite length_map. exact Hv.
Qed.

Lemma AngleEncoder_forward_ok : forall self (bond_i bond_j : list Vec3),
  length bond_i = length bond_j ->
  exists out, AngleEncoder.forward self bond_i bond_j = Ok out.
Proof.
  intros self bond_i bond_j H. unfold AngleEncoder.forward, AngleEncoder.cosine_ij.
  rewrite broadcast2_same_length by exact H. cbn [bind]. eexists; reflexivity.
Qed.

Lemma step_ok : forall bbe abe cs lv st k graph,
  BatchedGraph.position_at lv k = None ->
  well_formed graph = true ->
  exists st', BatchedGraph.step bbe abe cs lv st (k, graph) = Ok st'.
Proof.
  intros bbe abe cs lv st k graph Hpos Hwf.
  unfold well_formed, local in Hwf. rewrite !andb_true_iff in Hwf.
  destruct Hwf as [[[[[[Hag _] _] Hfrac] Himg] Hu2d] Hbg].
  apply Nat.eqb_eq in Hfrac, Himg.
  unfold BatchedGraph.step. rewrite Hpos.
  assert (Hcart : forall lat,
             Tensor.len (Tensor.matmul_rows (Crystal_Graph.atom_frac_coord graph) lat)
             = n_atom graph).
  { intros lat. unfold Tensor.len, n_atom, Tensor.matmul_rows.
    rewrite length_map, Hfrac. reflexivity. }
  destruct cs.
  all: match goal with
       | |- context [Tensor.getitem ?cart (map fst _)] =>
           destruct (@getitem_ok _ cart (map fst (Crystal_Graph.atom_graph graph)))
             as [center [Ec Hlc]];
           [ rewrite Hcart, forallb_forall; intros i Hi; apply in_map_iff in Hi;
             destruct Hi as [b [<- Hb]]; rewrite forallb_forall in Hag;
             specialize (Hag b Hb); apply andb_true_iff in Hag; apply Hag | ];
           destruct (@getitem_ok _ cart (map snd (Crystal_Graph.atom_graph graph)))
             as [neighbor [En Hln]];
           [ rewrite Hcart, forallb_forall; intros i Hi; apply in_map_iff in Hi;
             destruct Hi as [b [<- Hb]]; rewrite forallb_forall in Hag;
             specialize (Hag b Hb); apply andb_true_iff in Hag; apply Hag | ]
       end.
  all: rewrite Ec, En; cbn [bind]; rewrite length_map in Hlc, Hln.
  all: match goal with
       | |- context [BondEncoder.forward ?b ?c ?n ?u ?im ?lat] =>
           destruct (@BondEncoder_forward_ok b c n u im lat)
             as (ag & bg & vectors & Ef & Hlv);
           [ congruence | congruence
           | unfold Tensor.len in *; rewrite Hln; exact Hu2d | ]
       end.
  all: rewrite Ef; cbn [bind].
  all: destruct (Crystal_Graph.bond_graph graph) as [| r rest] eqn:Ebg;
    cbn [length Nat.eqb negb bind]; [eexists; reflexivity | ].
  all: rewrite <- Ebg in *.
  all: destruct (@index_select_ok _ vectors
                   (map Crystal_Graph.col2 (Crystal_Graph.bond_graph graph)))
         as [bi Hbi];
    [ unfold Tensor.len in *; rewrite Hlv, Hln, forallb_forall; intros i Hi;
      apply in_map_iff in Hi; destruct Hi as [b [<- Hb]];
      rewrite forallb_forall in Hbg; specialize (Hbg b Hb);
      apply andb_true_iff in Hbg; apply Hbg | ].
  all: destruct (@index_select_ok _ vectors
                   (map Crystal_Graph.col4 (Crystal_Graph.bond_graph graph)))
         as [bj Hbj];
    [ unfold Tensor.len in *; rewrite Hlv, Hln, forallb_forall; intros i Hi;
      apply in_map_iff in Hi; destruct Hi as [b [<- Hb]];
      rewrite forallb_forall in Hbg; specialize (Hbg b Hb);
      apply andb_true_iff in Hbg; apply Hbg | ].
  all: rewrite Hbi, Hbj; cbn [bind].
  all: destruct (@AngleEncoder_forward_ok abe bi bj) as [out Hout];
    [ rewrite (index_select_length _ _ Hbi), (index_select_length _ _ Hbj), !length_map;
      reflexivity | ].
  all: rewrite Hout; cbn [bind]; eexists; reflexivity.
Qed.
Lemma step_bases_length : forall bbe abe cs lv st item st',
  BatchedGraph.step bbe abe cs lv st item = Ok st' ->
  length (BatchedGraph.l_bond_bases_ag st') = S (length (BatchedGraph.l_bond_bases_ag st))
  /\ length (BatchedGraph.l_bond_bases_bg st') = S (length (BatchedGraph.l_bond_bases_bg st)).
Proof.
  intros bbe abe cs lv st [k graph] st' H.
  unfold BatchedGraph.step in H.
  destruct cs; bind_inv H; injection H as <-;
    cbn [BatchedGraph.l_bond_bases_ag BatchedGraph.l_bond_bases_bg];
    rewrite !length_app; cbn [length]; lia.
Qed.

Lemma fold_step_bases_length : forall bbe abe cs lv items st st',
  foldM (BatchedGraph.step bbe abe cs lv) items st = Ok st' ->
  length (BatchedGraph.l_bond_bases_ag st')
    = (length (BatchedGraph.l_bond_bases_ag st) + length items)%nat
  /\ length (BatchedGraph.l_bond_bases_bg st')
    = (length (BatchedGraph.l_bond_bases_bg st) + length items)%nat.
Proof.
  induction items as [| item items IH]; intros st st' H; cbn [foldM length] in H |- *.
  - injection H as <-. lia.
  - bind_inv H. apply step_bases_length in E. apply IH in H. lia.
Qed.

Lemma fold_step_ok : forall bbe abe cs lv gs i st,
  (forall k, BatchedGraph.position_at lv k = None) ->
  forallb well_formed gs = true ->
  exists st', foldM (BatchedGraph.step bbe abe cs lv) (combine (seq i (length gs)) gs) st
              = Ok st'.
Proof.
  induction gs as [| graph gs IH]; intros i st Hpos Hwf; cbn [length seq combine foldM].
  - eexists; reflexivity.
  - cbn [forallb] in Hwf. apply andb_true_iff in Hwf. destruct Hwf as [Hg Hgs].
    destruct (@step_ok bbe abe cs lv st i graph (Hpos i) Hg) as [st1 E1].
    rewrite E1. cbn [bind]. apply IH; assumption.
Qed.

Lemma cat_ok : forall (A : Type) (tensors : list (list A)),
  tensors <> [] -> Tensor.cat tensors = Ok (concat tensors).
Proof. intros A [| t ts] H; [contradiction | reflexivity]. Qed.

(** [from_graphs] returns a batch for every non-empty list of well-formed
    graphs. *)
Lemma from_graphs_at_ok : forall graphs bbe abe cs lv,
  (forall k, BatchedGraph.position_at lv k = None) ->
  graphs <> [] ->
  forallb well_formed graphs = true ->
  exists g, BatchedGraph.from_graphs_at graphs bbe abe cs lv = Ok g.
Proof.
  intros graphs bbe abe cs lv Hpos Hne Hwf.
  unfold BatchedGraph.from_graphs_at, enumerate.
  destruct (@fold_step_ok bbe abe cs lv graphs 0%nat BatchedGraph.initial_state Hpos Hwf)
    as [st E].
  rewrite E. cbn [bind].
  pose proof (fold_step_bases_length _ _ _ _ _ _ E) as [Lag Lbg].
  apply fold_step_inv in E. cbv zeta in E.
  destruct E as (E1 & _ & _ & _ & E5 & _ & E7 & E8).
  cbn [BatchedGraph.initial_state BatchedGraph.l_atomic_numbers
       BatchedGraph.l_batched_atom_graph BatchedGraph.l_bond_bases_ag
       BatchedGraph.l_bond_bases_bg BatchedGraph.l_directed2undirected
       BatchedGraph.l_atom_owners app length] in *.
  destruct graphs as [| graph graphs]; [contradiction | ].
  unfold BatchedGraph.make_tensors.
  rewrite (@cat_ok _ (BatchedGraph.l_atomic_numbers st)),
          (@cat_ok _ (BatchedGraph.l_bond_bases_ag st)),
          (@cat_ok _ (BatchedGraph.l_bond_bases_bg st)),
          (@cat_ok _ (BatchedGraph.l_batched_atom_graph st)),
          (@cat_ok _ (BatchedGraph.l_atom_owners st)),
          (@cat_ok _ (BatchedGraph.l_directed2undirected st));
    try (rewrite ?E1, ?E5, ?E7, ?E8; cbn; discriminate);
    try (intros Hnil; rewrite Hnil in *; cbn in *; lia).
  cbn [bind].
  destruct (BatchedGraph.l_angle_bases st) as [| ab abs]; cbn [length Nat.eqb negb bind];
    destruct (BatchedGraph.l_batched_bond_graph st) as [| bb bbs]; cbn [bind];
    rewrite ?cat_ok by discriminate; cbn [bind Tensor.cat]; eexists; reflexivity.
Qed.
Section RunningTotals.
Variable count : Crystal_Graph.t -> Z.
Hypothesis count_nonneg : forall graph, (0 <= count graph)%Z.

Lemma total_firstn_S : forall (graphs : list Crystal_Graph.t) (k : nat) graph,
  nth_error graphs k = Some graph ->
  total (map count (firstn (S k) graphs))
  = (total (map count (firstn k graphs)) + count graph)%Z.
Proof.
  induction graphs as [| g graphs IH]; intros [| k] graph H; cbn in H; try discriminate H.
  - injection H as ->. cbn. lia.
  - specialize (IH k graph H).
    change (firstn (S (S k)) (g :: graphs)) with (g :: firstn (S k) graphs).
    change (firstn (S k) (g :: graphs)) with (g :: firstn k graphs).
    cbn [map total fold_right] in *. unfold total in IH. lia.
Qed.

Lemma total_firstn_mono : forall (graphs : list Crystal_Graph.t) (a b : nat),
  (a <= b)%nat ->
  (total (map count (firstn a graphs)) <= total (map count (firstn b graphs)))%Z.
Proof.
  induction graphs as [| g graphs IH]; intros a b Hab.
  - rewrite !firstn_nil. lia.
  - destruct a as [| a]; destruct b as [| b]; try lia.
    + cbn [firstn map total fold_right].
      assert (H0 := IH 0%nat b ltac:(lia)). cbn [firstn map total fold_right] in H0.
      pose proof (count_nonneg g). unfold total in *. lia.
    + cbn [firstn map total fold_right].
      assert (H0 := IH a b ltac:(lia)). unfold total in *. lia.
Qed.

End RunningTotals.

Lemma len_nonneg : forall (A : Type) (l : list A), (0 <= Tensor.len l)%Z.
Proof. intros; unfold Tensor.len; lia. Qed.

(** C3: [from_graphs] returns a batch for every non-empty list of
    well-formed graphs. In the batch it returns, the [atom_graph] of the
    structure at position [k] is shifted by the number of atoms of the
    structures before it, its [directed2undirected] and the two bond columns
    of its [bond_graph] by their number of undirected bonds, and the atom
    column of its [bond_graph] by their number of atoms. The indices of a
    structure with local indices then lie in the structure's own range,
    and the ranges of two structures do not overlap. *)
Theorem from_graphs_offsets_keep_structures_apart :
  forall (graphs : list Crystal_Graph.t) (bbe : BondEncoder.t) (abe : AngleEncoder.t)
         (compute_stress : bool),
    (graphs <> [] -> forallb well_formed graphs = true ->
     exists g, BatchedGraph.from_graphs graphs bbe abe compute_stress = Ok g)
    /\ forall g, BatchedGraph.from_graphs graphs bbe abe compute_stress = Ok g ->
       BatchedGraph.batched_atom_graph g
       = concat (map (fun kg =>
                        BatchedGraph.offset_atom_graph
                          (Crystal_Graph.atom_graph (snd kg))
                          (atoms_before graphs (fst kg)))
                   (enumerate graphs))
       /\ BatchedGraph.directed2undirected g
          = concat (map (fun kg =>
                           BatchedGraph.offset_directed2undirected
                             (Crystal_Graph.directed2undirected (snd kg))
                             (bonds_before graphs (fst kg)))
                      (enumerate graphs))
       /\ BatchedGraph.batched_bond_graph g
          = concat (map (fun kg =>
                           BatchedGraph.offset_bond_graph
                             (Crystal_Graph.bond_graph (snd kg))
                             (atoms_before graphs (fst kg))
                             (bonds_before graphs (fst kg)))
                      (enumerate graphs))
       /\ (forall (k : nat) (graph : Crystal_Graph.t),
              nth_error graphs k = Some graph -> local graph = true ->
              let atom_ok := fun a =>
                (atoms_before graphs k <= a < atoms_before graphs (S k))%Z in
              let bond_ok := fun b =>
                (bonds_before graphs k <= b < bonds_before graphs (S k))%Z in
              Forall (fun b => atom_ok (fst b) /\ atom_ok (snd b))
                (BatchedGraph.offset_atom_graph (Crystal_Graph.atom_graph graph)
                   (atoms_before graphs k))
              /\ Forall bond_ok
                   (BatchedGraph.offset_directed2undirected
                      (Crystal_Graph.directed2undirected graph)
                      (bonds_before graphs k))
              /\ Forall (fun r => atom_ok (fst (fst r)) /\ bond_ok (snd (fst r))
                                  /\ bond_ok (snd r))
                   (BatchedGraph.offset_bond_graph (Crystal_Graph.bond_graph graph)
                      (atoms_before graphs k) (bonds_before graphs k)))
       /\ (forall j k : nat, (j < k)%nat ->
              (atoms_before graphs (S j) <= atoms_before graphs k)%Z
              /\ (bonds_before graphs (S j) <= bonds_before graphs k)%Z).
Proof.
  intros graphs bbe abe compute_stress; split.
  - intros Hne Hwf. apply from_graphs_at_ok; [reflexivity | assumption | assumption].
  - intros g H. unfold BatchedGraph.from_graphs in H.
    apply from_graphs_at_inv in H.
    destruct H as (_ & _ & _ & _ & _ & Hag & Hbg & Hd2u & _).
    repeat split; try assumption.
    + (* atom_graph *)
      unfold atoms_before at 2 4.
      rewrite (@total_firstn_S n_atom graphs k graph H).
      unfold local in H0. rewrite !andb_true_iff in H0. destruct H0 as [[Ha _] _].
      rewrite forallb_forall in Ha. apply Forall_forall. intros b Hb.
      unfold BatchedGraph.offset_atom_graph in Hb. apply in_map_iff in Hb.
      destruct Hb as [b0 [<- Hb0]]. specialize (Ha b0 Hb0).
      apply andb_true_iff in Ha. destruct Ha as [Ha1 Ha2].
      apply in_range_spec in Ha1, Ha2. cbn [fst snd].
      fold (atoms_before graphs k). lia.
    + (* directed2undirected *)
      unfold bonds_before at 2.
      rewrite (@total_firstn_S n_bond graphs k graph H).
      unfold local in H0. rewrite !andb_true_iff in H0. destruct H0 as [[_ Hd] _].
      rewrite forallb_forall in Hd. apply Forall_forall. intros i Hi.
      unfold BatchedGraph.offset_directed2undirected in Hi. apply in_map_iff in Hi.
      destruct Hi as [i0 [<- Hi0]]. specialize (Hd i0 Hi0).
      apply in_range_spec in Hd. fold (bonds_before graphs k). lia.
    + (* bond_graph *)
      unfold atoms_before at 2, bonds_before at 2 4.
      rewrite (@total_firstn_S n_atom graphs k graph H),
              (@total_firstn_S n_bond graphs k graph H).
      unfold local in H0. rewrite !andb_true_iff in H0. destruct H0 as [_ Hb].
      rewrite forallb_forall in Hb. apply Forall_forall. intros r Hr.
      unfold BatchedGraph.offset_bond_graph in Hr. apply in_map_iff in Hr.
      destruct Hr as [r0 [<- Hr0]]. specialize (Hb r0 Hr0).
      rewrite !andb_true_iff in Hb. destruct Hb as [[Hb0 Hb1] Hb3].
      apply in_range_spec in Hb0, Hb1, Hb3. cbn [fst snd].
      fold (atoms_before graphs k) (bonds_before graphs k). lia.
    + apply total_firstn_mono; [intros; apply len_nonneg | lia].
    + apply total_firstn_mono; [intros; apply len_nonneg | lia].
Qed.
Lemma from_graphs_offsets_keep_structures_apart_witness :
  let bbe := @BondEncoder.__init__ Example.basis 5 3 1 6 false in
  let abe := AngleEncoder.mk 1 (@Fourier Example.basis 1 false) in
  exists g,
    BatchedGraph.from_graphs [Example.dimer; Example.trimer] bbe abe false = Ok g
    /\ BatchedGraph.batched_atom_graph g
       = [(0, 1); (1, 0); (2, 3); (3, 2); (2, 4); (4, 2)]%Z
    /\ BatchedGraph.directed2undirected g = [0; 0; 1; 1; 2; 2]%Z
    /\ BatchedGraph.batched_bond_graph g = [(2, 1, 2)]%Z.
Proof.
  intros bbe abe.
  destruct (from_graphs_offsets_keep_structures_apart
              [Example.dimer; Example.trimer] bbe abe false) as [Hok Hspec].
  destruct Hok as [g Hg]; [discriminate | reflexivity | ].
  destruct (Hspec g Hg) as (H1 & H2 & H3 & _).
  exists g. split; [exact Hg | ].
  rewrite H1, H2, H3.
  repeat split; reflexivity.
Defined.

(** ** CHGNet.__init__ *)

Section Init.
Context {basis : Basis} {layers : Layers} {params : Parameters}.

Lemma init_inv : forall (args : ModelArgs.t) (self : CHGNet.t),
  CHGNet.__init__ args = Ok self ->
  CHGNet.n_conv self = ModelArgs.n_conv args
  /\ CHGNet.is_intensive self = ModelArgs.is_intensive args
  /\ CHGNet.mlp_first self = ModelArgs.mlp_first args
  /\ CHGNet.atom_embedding self
     = AtomEmbedding.__init__ (ModelArgs.atom_fea_dim args)
         AtomEmbedding.max_num_elements_default
         (fun i => map (parameter "atom_embedding.embedding.weight" i)
                       (seq 0 (Z.to_nat (ModelArgs.atom_fea_dim args))))
  /\ CHGNet.atom_conv_layers self
     = map (AtomConv args) (CHGNet.range (ModelArgs.n_conv args))
  /\ length (CHGNet.bond_conv_layers self) = Z.to_nat (ModelArgs.n_conv args - 1)
  /\ length (CHGNet.angle_layers self) = Z.to_nat (ModelArgs.n_conv args - 1)
  /\ CHGNet.site_wise self = new_Linear "site_wise" (ModelArgs.atom_fea_dim args) 1 true
  /\ (CHGNet.read_out_type self, CHGNet.pooling self)
     = if ModelArgs.mlp_first args then ("sum"%string, GraphPooling false)
       else if existsb (String.eqb (ModelArgs.read_out args)) ["attn"; "weighted"]%string
       then ("attn"%string,
             GraphAttentionReadOut (ModelArgs.atom_fea_dim args)
               (match ModelArgs.kw_num_heads args with Some h => h | None => 3%Z end)
               true)
       else ("ave"%string, GraphPooling true).
Proof.
  intros args self H. unfold CHGNet.__init__ in H.
  assert (Hlen : forall (B : Type) (fn : nat -> B) (n : Z),
             length (map fn (CHGNet.range n)) = Z.to_nat n).
  { intros. unfold CHGNet.range. rewrite length_map, length_seq. reflexivity. }
  destruct (ModelArgs.mlp_first args) eqn:Emf;
    [ | destruct (existsb (String.eqb (ModelArgs.read_out args)) ["attn"; "weighted"]%string)
          eqn:Ero ];
    cbv beta iota zeta in H; bind_inv H; injection H as <-;
    cbn [CHGNet.n_conv CHGNet.is_intensive CHGNet.mlp_first CHGNet.atom_embedding
         CHGNet.atom_conv_layers CHGNet.bond_conv_layers CHGNet.angle_layers
         CHGNet.site_wise CHGNet.read_out_type CHGNet.pooling];
    rewrite ?Emf, ?Ero;
    (repeat split; try reflexivity;
     try (destruct (ModelArgs.update_bond args); apply Hlen);
     try (destruct (ModelArgs.update_angle args); apply Hlen)).
Qed.

End Init.

(** ** CHGNet.forward and CHGNet._compute *)

Section Forward.
Context {basis : Basis} {layers : Layers} {params : Parameters} {autograd : Autograd}.

Local Open Scope R_scope.

Lemma compute_inv :
  forall (self : CHGNet.t) (g : BatchedGraph.t) (grad_fn : CHGNet.tape)
         (site_wise compute_force compute_stress raf rcf : bool) (p : CHGNet.prediction),
    CHGNet._compute self g grad_fn site_wise compute_force compute_stress raf rcf = Ok p ->
    exists st crystal energy,
      CHGNet.readout self g site_wise raf rcf = Ok (st, crystal, energy)
      /\ CHGNet.atoms_per_graph p = Tensor.bincount (BatchedGraph.atom_owners g)
      /\ CHGNet.atom_fea p = CHGNet.mp_atom_fea st
      /\ CHGNet.m p = CHGNet.mp_m st
      /\ CHGNet.crystal_fea p = crystal
      /\ (if compute_force then
            exists grads,
              autograd_grad
                (fun positions =>
                   CHGNet.energy_sum self site_wise raf rcf
                     (CHGNet.wrt_positions grad_fn positions))
                (BatchedGraph.atom_positions g) = Ok grads
              /\ CHGNet.f p = Some (map CHGNet.neg_rows grads)
          else CHGNet.f p = None)
      /\ (if compute_stress then
            exists strains grads,
              mapM (fun o => match o with
                             | Some strain => Ok strain
                             | None => Raise TypeError
                             end) (BatchedGraph.strains g) = Ok strains
              /\ autograd_grad
                   (fun strains =>
                      CHGNet.energy_sum self site_wise raf rcf
                        (CHGNet.wrt_strains grad_fn strains))
                   strains = Ok grads
              /\ CHGNet.s p
                 = Some (Tensor.map2 (fun i j => Tensor.map_mat3 (fun x => x * j) i) grads
                           (map (fun v => 1 / v * 160.21766208) (BatchedGraph.volumes g)))
          else CHGNet.s p = None)
      /\ (if CHGNet.is_intensive self then
            Tensor.broadcast2 Rdiv energy
              (map INR (Tensor.bincount (BatchedGraph.atom_owners g))) = Ok (CHGNet.e p)
          else CHGNet.e p = energy).
Proof.
  intros self g grad_fn site_wise compute_force compute_stress raf rcf p H.
  unfold CHGNet._compute in H.
  destruct (CHGNet.readout self g site_wise raf rcf) as [[[st crystal] energy] | err];
    cbn [bind] in H; [ | discriminate H].
  exists st, crystal, energy.
  destruct compute_force, compute_stress, (CHGNet.is_intensive self);
    bind_inv H; injection H as <-;
    cbn [CHGNet.atoms_per_graph CHGNet.atom_fea CHGNet.m CHGNet.crystal_fea
         CHGNet.f CHGNet.s CHGNet.e];
    repeat match goal with
      | H : bind ?m _ = Ok _ |- _ =>
          let E := fresh "E" in
          destruct m eqn:E; cbn [bind] in H; [ | discriminate H]
      | H : Ok _ = Ok _ |- _ => injection H as <-
      end;
    repeat split; eauto.
Qed.

Lemma forward_inv :
  forall (self : CHGNet.t) (graphs : list Crystal_Graph.t) (task : string)
         (raf rcf : bool) (p : CHGNet.prediction),
    CHGNet.forward self graphs task raf rcf = Ok p ->
    exists g p0 comp_energy,
      BatchedGraph.from_graphs graphs (CHGNet.bond_basis_expansion self)
        (CHGNet.angle_basis_expansion self) (CHGNet.contains "s" task) = Ok g
      /\ CHGNet._compute self g (CHGNet.recorded self graphs (CHGNet.contains "s" task))
           (CHGNet.contains "m" task) (CHGNet.contains "f" task)
           (CHGNet.contains "s" task) raf rcf = Ok p0
      /\ match CHGNet.composition_model self with
         | Some model => exists c, model graphs = Ok c /\ comp_energy = Some c
         | None => comp_energy = None
         end
      /\ CHGNet.add_comp_energy (CHGNet.e p0) comp_energy = Ok (CHGNet.e p)
      /\ CHGNet.atoms_per_graph p = CHGNet.atoms_per_graph p0
      /\ CHGNet.atom_fea p = CHGNet.atom_fea p0
      /\ CHGNet.m p = CHGNet.m p0
      /\ CHGNet.crystal_fea p = CHGNet.crystal_fea p0
      /\ CHGNet.f p = CHGNet.f p0
      /\ CHGNet.s p = CHGNet.s p0.
Proof.
  intros self graphs task raf rcf p H. unfold CHGNet.forward in H.
  cbv zeta in H. bind_inv H. injection H as <-.
  exists a0, a1, a. cbn [CHGNet.atoms_per_graph CHGNet.atom_fea CHGNet.m
    CHGNet.crystal_fea CHGNet.f CHGNet.s CHGNet.e].
  repeat split; try assumption.
  destruct (CHGNet.composition_model self) as [model | ].
  - bind_inv E. injection E as <-. eexists; split; reflexivity.
  - injection E as <-. reflexivity.
Qed.

End Forward.
(** ** AtomEmbedding *)

Lemma index_select_in_range : forall (A : Type) (input : list A) (index : list Z) out,
  Tensor.index_select input index = Ok out ->
  Forall (fun i => (0 <= i < Tensor.len input)%Z) index.
Proof.
  intros A input. induction index as [| i index IH]; intros out H.
  - constructor.
  - unfold Tensor.index_select in H. cbn [mapM] in H. bind_inv H.
    constructor; [ | eapply IH; exact E0].
    destruct ((0 <=? i) && (i <? Tensor.len input))%Z eqn:Hi; [ | discriminate E].
    apply in_range_spec. exact Hi.
Qed.

Lemma index_select_out_of_range : forall (A : Type) (input : list A) (index : list Z),
  Exists (fun i => ~ (0 <= i < Tensor.len input)%Z) index ->
  Tensor.index_select input index = Raise IndexError.
Proof.
  intros A input. induction index as [| i index IH]; intros H.
  - inversion H.
  - unfold Tensor.index_select. cbn [mapM].
    destruct ((0 <=? i) && (i <? Tensor.len input))%Z eqn:Hi.
    + pose proof (proj1 (in_range_spec _ _) Hi) as Hr.
      destruct (nth_error_in_range input Hr) as [a ->]. cbn [bind].
      inversion H as [? ? Hbad | ? ? Hrest]; subst; [contradiction | ].
      fold (Tensor.index_select input index). rewrite (IH Hrest). reflexivity.
    + reflexivity.
Qed.

Section Embedding.
Context {basis : Basis} {layers : Layers} {params : Parameters} {autograd : Autograd}.

Lemma readout_embeds : forall self g sw raf rcf r,
  CHGNet.readout self g sw raf rcf = Ok r ->
  exists rows,
    AtomEmbedding.forward (CHGNet.atom_embedding self)
      (map (fun z => (z - 1)%Z) (BatchedGraph.atomic_numbers g)) = Ok rows.
Proof.
  intros self g sw raf rcf r H. unfold CHGNet.readout in H.
  destruct (AtomEmbedding.forward _ _) as [rows | err]; [ | discriminate H].
  exists rows; reflexivity.
Qed.

(** C10: the embedding table of a constructed model has 94 rows and is
    read at [atomic_number - 1]. The lookup returns for atomic numbers in
    [1, 94] and raises an index error as soon as one atomic number is below
    1 or above 94; the forward pass returns a prediction only when every
    atomic number of every structure lies in [1, 94], and raises
    otherwise. *)
Theorem atomic_numbers_must_lie_in_1_94 :
  forall (args : ModelArgs.t) (self : CHGNet.t),
    CHGNet.__init__ args = Ok self ->
    length (Embedding.weight (AtomEmbedding.embedding (CHGNet.atom_embedding self)))
      = 94%nat
    /\ (forall zs : list Z,
          Forall (fun z => (1 <= z <= 94)%Z) zs ->
          exists rows,
            AtomEmbedding.forward (CHGNet.atom_embedding self)
              (map (fun z => (z - 1)%Z) zs) = Ok rows)
    /\ (forall zs : list Z,
          Exists (fun z => (z < 1 \/ 94 < z)%Z) zs ->
          AtomEmbedding.forward (CHGNet.atom_embedding self)
            (map (fun z => (z - 1)%Z) zs) = Raise IndexError)
    /\ (forall graphs task raf rcf p,
          CHGNet.forward self graphs task raf rcf = Ok p ->
          Forall (fun graph =>
                    Forall (fun z => (1 <= z <= 94)%Z) (Crystal_Graph.atomic_number graph))
                 graphs)
    /\ (forall graphs task raf rcf,
          Exists (fun graph =>
                    Exists (fun z => (z < 1 \/ 94 < z)%Z)
                           (Crystal_Graph.atomic_number graph)) graphs ->
          exists err, CHGNet.forward self graphs task raf rcf = Raise err).
Proof.
  intros args self Hinit.
  destruct (init_inv _ Hinit) as (_ & _ & _ & Hemb & _).
  assert (Hlen : Tensor.len (Embedding.weight
                   (AtomEmbedding.embedding (CHGNet.atom_embedding self))) = 94%Z).
  { rewrite Hemb. unfold Tensor.len. cbn [AtomEmbedding.__init__ AtomEmbedding.embedding
      Embedding.__init__ Embedding.weight]. rewrite length_map, length_seq. reflexivity. }
  assert (Hfwd : forall graphs task raf rcf p,
             CHGNet.forward self graphs task raf rcf = Ok p ->
             Forall (fun graph =>
                       Forall (fun z => (1 <= z <= 94)%Z)
                              (Crystal_Graph.atomic_number graph)) graphs).
  { intros graphs task raf rcf p H.
    apply forward_inv in H. destruct H as (g & p0 & comp & Hg & Hc & _).
    apply compute_inv in Hc. destruct Hc as (st & crystal & energy & Hr & _).
    apply readout_embeds in Hr. destruct Hr as [rows Hrows].
    unfold AtomEmbedding.forward, Embedding.forward in Hrows.
    apply index_select_in_range in Hrows. rewrite Hlen in Hrows.
    unfold BatchedGraph.from_graphs in Hg. apply from_graphs_at_inv in Hg.
    destruct Hg as (_ & Han & _). rewrite Han in Hrows.
    rewrite Forall_map in Hrows. rewrite Forall_concat in Hrows.
    rewrite Forall_map in Hrows.
    eapply Forall_impl; [ | exact Hrows]. intros graph Hgr. cbv beta in Hgr.
    eapply Forall_impl; [ | exact Hgr]. intros z Hz. cbv beta in Hz. lia. }
  split; [ | split; [ | split; [ | split]]].
  - unfold Tensor.len in Hlen. lia.
  - intros zs Hzs. unfold AtomEmbedding.forward, Embedding.forward.
    apply index_select_ok. rewrite Hlen, forallb_forall.
    intros i Hi. apply in_map_iff in Hi. destruct Hi as [z [<- Hz]].
    rewrite Forall_forall in Hzs. specialize (Hzs z Hz).
    apply in_range_spec. lia.
  - intros zs Hzs. unfold AtomEmbedding.forward, Embedding.forward.
    apply index_select_out_of_range. rewrite Hlen.
    apply Exists_exists in Hzs. destruct Hzs as [z [Hz Hbad]].
    apply Exists_exists. exists (z - 1)%Z. split; [ | lia].
    apply in_map_iff. exists z; split; [reflexivity | exact Hz].
  - exact Hfwd.
  - intros graphs task raf rcf Hbad.
    destruct (CHGNet.forward self graphs task raf rcf) as [p | err] eqn:E;
      [ | exists err; reflexivity].
    exfalso. specialize (Hfwd _ _ _ _ _ E).
    apply Exists_exists in Hbad. destruct Hbad as [graph [Hg Hz]].
    rewrite Forall_forall in Hfwd. specialize (Hfwd graph Hg).
    apply Exists_exists in Hz. destruct Hz as [z [Hz Hout]].
    rewrite Forall_forall in Hfwd. specialize (Hfwd z Hz). lia.
Qed.

End Embedding.

Lemma atomic_numbers_must_lie_in_1_94_witness :
  exists self,
    @CHGNet.__init__ Example.basis Example.layers Example.params (Example.args_n_conv 2)
      = Ok self
    /\ (exists rows,
          AtomEmbedding.forward (CHGNet.atom_embedding self)
            (map (fun z => (z - 1)%Z) [1; 94]%Z) = Ok rows)
    /\ AtomEmbedding.forward (CHGNet.atom_embedding self)
         (map (fun z => (z - 1)%Z) [8; 0]%Z) = Raise IndexError.
Proof.
  destruct (@CHGNet.__init__ Example.basis Example.layers Example.params
              (Example.args_n_conv 2)) as [self | err] eqn:E;
    [ | run_in E; discriminate E].
  exists self. split; [reflexivity | ].
  destruct (@atomic_numbers_must_lie_in_1_94 Example.basis Example.layers Example.params
              Example.autograd _ _ E) as (_ & Hin & Hout & _).
  split.
  - apply Hin. repeat constructor; lia.
  - apply Hout. right; left. lia.
Defined.

(** ** The pooling selector *)

Section ReadOut.
Context {basis : Basis} {layers : Layers} {params : Parameters}.

(** C8 (as the code has it): the constructor never rejects a [read_out]
    value. With [mlp_first] unset, ["attn"] and ["weighted"] select the
    attention readout and every other string selects average pooling; with
    [mlp_first] set, [read_out] is ignored and the pooling is the sum. A
    construction that succeeds still succeeds with any other [read_out]. *)
Theorem read_out_selects_pooling_and_is_never_rejected :
  forall (args : ModelArgs.t) (self : CHGNet.t),
    CHGNet.__init__ args = Ok self ->
    (CHGNet.read_out_type self, CHGNet.pooling self)
    = (if ModelArgs.mlp_first args then ("sum"%string, GraphPooling false)
       else if existsb (String.eqb (ModelArgs.read_out args)) ["attn"; "weighted"]%string
       then ("attn"%string,
             GraphAttentionReadOut (ModelArgs.atom_fea_dim args)
               (match ModelArgs.kw_num_heads args with Some h => h | None => 3%Z end)
               true)
       else ("ave"%string, GraphPooling true))
    /\ forall read_out : string,
        exists self', CHGNet.__init__ (with_read_out read_out args) = Ok self'.
Proof.
  intros args self H. split; [apply (init_inv _ H) | ].
  intros read_out. unfold CHGNet.__init__ in *.
  cbn [with_read_out ModelArgs.atom_fea_dim ModelArgs.bond_fea_dim
       ModelArgs.angle_fea_dim ModelArgs.composition_model ModelArgs.num_radial
       ModelArgs.num_angular ModelArgs.n_conv ModelArgs.update_bond
       ModelArgs.update_angle ModelArgs.read_out ModelArgs.mlp_hidden_dims
       ModelArgs.mlp_dropout ModelArgs.mlp_first ModelArgs.is_intensive
       ModelArgs.non_linearity ModelArgs.atom_graph_cutoff ModelArgs.bond_graph_cutoff
       ModelArgs.learnable_rbf ModelArgs.kw_cutoff_coeff ModelArgs.kw_readout_norm
       ModelArgs.kw_num_heads ModelArgs.kw_final_mlp].
  destruct (match ModelArgs.composition_model args with
            | Some (inl name) =>
                model <- Atom_Ref (ModelArgs.is_intensive args) name ;; Ok (Some model)
            | Some (inr module) => Ok (Some module)
            | None => Ok None
            end) as [comp | err]; cbn [bind] in *; [ | discriminate H].
  destruct (AngleEncoder.__init__ (ModelArgs.num_angular args)
              (ModelArgs.learnable_rbf args)) as [abe | err];
    cbn [bind] in *; [ | discriminate H].
  destruct (existsb (String.eqb match ModelArgs.kw_final_mlp args with
                                | Some v => v
                                | None => "MLP"%string
                                end) ["normal"; "MLP"]%string).
  - destruct (ModelArgs.mlp_first args);
      [ | destruct (existsb (String.eqb read_out) ["attn"; "weighted"]%string) ];
      cbv beta iota zeta; cbn [bind]; eexists; reflexivity.
  - destruct (CHGNet.last_item (ModelArgs.mlp_hidden_dims args)) as [out_dim | err].
    + destruct (ModelArgs.mlp_first args);
        [ | destruct (existsb (String.eqb read_out) ["attn"; "weighted"]%string) ];
        cbv beta iota zeta; cbn [bind]; eexists; reflexivity.
    + exfalso.
      destruct (ModelArgs.mlp_first args);
        [ | destruct (existsb (String.eqb (ModelArgs.read_out args))
                        ["attn"; "weighted"]%string) ];
        cbv beta iota zeta in H; cbn [bind] in H; discriminate H.
Qed.

End ReadOut.

Lemma read_out_selects_pooling_and_is_never_rejected_witness :
  exists self,
    @CHGNet.__init__ Example.basis Example.layers Example.params
      (Example.args_read_out "attn") = Ok self
    /\ (CHGNet.read_out_type self, CHGNet.pooling self)
       = ("attn"%string, @GraphAttentionReadOut Example.layers 2 3 true)
    /\ exists self',
        @CHGNet.__init__ Example.basis Example.layers Example.params
          (with_read_out "max" (Example.args_read_out "attn")) = Ok self'.
Proof.
  destruct (@CHGNet.__init__ Example.basis Example.layers Example.params
              (Example.args_read_out "attn")) as [self | err] eqn:E;
    [ | run_in E; discriminate E].
  exists self. split; [reflexivity | ].
  destruct (@read_out_selects_pooling_and_is_never_rejected
              Example.basis Example.layers Example.params _ _ E) as [Hsel Hany].
  split; [exact Hsel | exact (Hany "max"%string)].
Defined.

(** C8 (as the claim has it) fails: the unsupported selector ["max"] is
    accepted, and the model it builds pools by averaging. *)
Lemma unsupported_read_out_is_accepted_as_average :
  exists self,
    @CHGNet.__init__ Example.basis Example.layers Example.params
      (Example.args_read_out "max") = Ok self
    /\ CHGNet.read_out_type self = "ave"%string
    /\ CHGNet.pooling self = @GraphPooling Example.layers true.
Proof.
  eexists. split; [run; reflexivity | ]. split; reflexivity.
Qed.

(** ** Magnetic moments *)

Lemma foldM_app : forall (A S : Type) (f : S -> A -> result S) (l1 l2 : list A) (s : S),
  foldM f (l1 ++ l2) s = (s1 <- foldM f l1 s ;; foldM f l2 s1).
Proof.
  induction l1 as [| a l1 IH]; intros l2 s; cbn [app foldM bind].
  - reflexivity.
  - destruct (f s a) as [s' | err]; cbn [bind]; [apply IH | reflexivity].
Qed.

Lemma combine_app_same_length :
  forall (A B : Type) (l1 l2 : list A) (m1 m2 : list B),
    length l1 = length m1 ->
    combine (l1 ++ l2) (m1 ++ m2) = combine l1 m1 ++ combine l2 m2.
Proof.
  induction l1 as [| a l1 IH]; intros l2 [| b m1] m2 H; cbn in H; try discriminate H.
  - reflexivity.
  - cbn. f_equal. apply IH. lia.
Qed.

Lemma enumerate_snoc : forall (A : Type) (l : list A) (x : A),
  enumerate (l ++ [x]) = enumerate l ++ [(length l, x)].
Proof.
  intros A l x. unfold enumerate.
  rewrite length_app. cbn [length]. rewrite Nat.add_1_r, seq_S. cbn [Nat.add].
  rewrite combine_app_same_length by (rewrite length_seq; reflexivity).
  reflexivity.
Qed.

Lemma zip3_length : forall (A B C : Type) (a : list A) (b : list B) (c : list C),
  length b = length a -> length c = length a ->
  length (CHGNet.zip3 a b c) = length a.
Proof.
  induction a as [| x a IH]; intros [| y b] [| z c] Hb Hc; cbn in *;
    try discriminate; auto.
Qed.

Lemma split_with_sizes_inv : forall (A : Type) (sizes : list nat) (x : list A) parts,
  Tensor.split_with_sizes x sizes = Ok parts ->
  concat parts = x /\ map (@length A) parts = sizes.
Proof.
  induction sizes as [| n sizes IH]; intros x parts H; cbn [Tensor.split_with_sizes] in H.
  - destruct x; [ | discriminate H]. injection H as <-. split; reflexivity.
  - destruct (n <=? length x)%nat eqn:Hn; [ | discriminate H].
    bind_inv H. injection H as <-. apply IH in E. destruct E as [Ec El].
    apply Nat.leb_le in Hn. cbn [concat map]. rewrite Ec, El, firstn_skipn.
    split; [reflexivity | ]. f_equal. apply firstn_length_le. exact Hn.
Qed.

Lemma bincount_nth : forall (x : list nat) (k : nat),
  nth k (Tensor.bincount x) 0%nat = count_occ Nat.eq_dec x k.
Proof.
  intros x k. unfold Tensor.bincount.
  destruct x as [| a x]; [destruct k; reflexivity | ].
  set (l := a :: x).
  destruct (Nat.lt_ge_cases k (S (list_max l))) as [Hlt | Hge].
  - rewrite (nth_indep _ 0%nat (count_occ Nat.eq_dec l 0))
      by (rewrite length_map, length_seq; exact Hlt).
    rewrite (map_nth (fun k => count_occ Nat.eq_dec l k)), seq_nth by exact Hlt.
    reflexivity.
  - rewrite nth_overflow by (rewrite length_map, length_seq; exact Hge).
    symmetry. apply count_occ_not_In. intros Hin.
    assert (Hmax : (list_max l <= list_max l)%nat) by lia.
    apply list_max_le in Hmax. rewrite Forall_forall in Hmax.
    specialize (Hmax k Hin). lia.
Qed.

Lemma count_occ_owners : forall (gs : list Crystal_Graph.t) (s k : nat),
  count_occ Nat.eq_dec
    (concat (map (fun kg => repeat (fst kg) (length (Crystal_Graph.atomic_number (snd kg))))
               (combine (seq s (length gs)) gs))) k
  = match nth_error gs (k - s) with
    | Some graph => if (s <=? k)%nat then length (Crystal_Graph.atomic_number graph) else 0%nat
    | None => 0%nat
    end.
Proof.
  induction gs as [| graph gs IH]; intros s k; cbn [length seq combine map concat].
  - destruct (k - s)%nat; reflexivity.
  - rewrite count_occ_app, IH. cbn [fst snd].
    destruct (Nat.eq_dec k s) as [-> | Hne].
    + rewrite count_occ_repeat_eq by reflexivity.
      rewrite Nat.sub_diag. cbn [nth_error]. rewrite Nat.leb_refl.
      replace (s - S s)%nat with 0%nat by lia.
      destruct (nth_error gs 0); [ | lia].
      destruct (Nat.leb_spec (S s) s); lia.
    + rewrite count_occ_repeat_neq by exact Hne. cbn [Nat.add].
      destruct (Nat.leb_spec s k) as [Hle | Hgt].
      * replace (k - s)%nat with (S (k - S s)) by lia. cbn [nth_error].
        destruct (Nat.leb_spec (S s) k); [reflexivity | lia].
      * replace (k - s)%nat with 0%nat by lia.
        replace (k - S s)%nat with 0%nat by lia.
        destruct (nth_error gs 0); cbn [nth_error]; [ | reflexivity].
        destruct (Nat.leb_spec (S s) k); [lia | reflexivity].
Qed.
Section Magmom.
Context {basis : Basis} {layers : Layers} {params : Parameters} {autograd : Autograd}.

Local Open Scope R_scope.

(** The moments the loop stores at index [n_conv - 2]. *)
Lemma mp_step_magmom :
  forall self g apg bwa bwb raf st idx item st',
    CHGNet.mp_step self g apg bwa bwb true raf st (idx, item) = Ok st' ->
    Z.of_nat idx = (CHGNet.n_conv self - 2)%Z ->
    exists atom_feas parts,
      CHGNet.mp_m st' = Some parts
      /\ Tensor.split_with_sizes
           (Tensor.view_flat (map (map Rabs)
                                (Linear.forward (CHGNet.site_wise self) atom_feas)))
           apg = Ok parts.
Proof.
  intros self g apg bwa bwb raf st idx [[atom_layer bond_layer] angle_layer] st' H Hidx.
  unfold CHGNet.mp_step in H. rewrite Hidx, Z.eqb_refl in H.
  bind_inv H. injection H as <-. cbn [CHGNet.mp_m].
  bind_inv E2. injection E2 as <-.
  exists a. eexists. split; [reflexivity | eassumption].
Qed.

Lemma readout_state :
  forall self g sw raf rcf st crystal energy,
    CHGNet.readout self g sw raf rcf = Ok (st, crystal, energy) ->
    exists atom_feas,
      foldM (CHGNet.mp_step self g (Tensor.bincount (BatchedGraph.atom_owners g))
               (Linear.forward (CHGNet.bond_weights_ag self) (BatchedGraph.bond_bases_ag g))
               (Linear.forward (CHGNet.bond_weights_bg self) (BatchedGraph.bond_bases_bg g))
               sw raf)
        (enumerate (CHGNet.zip3 (removelast (CHGNet.atom_conv_layers self))
                      (CHGNet.bond_conv_layers self) (CHGNet.angle_layers self)))
        (CHGNet.mk_mp atom_feas
           (Linear.forward (CHGNet.bond_embedding self) (BatchedGraph.bond_bases_ag g))
           (if negb (length (BatchedGraph.angle_bases g) =? 0)%nat
            then Linear.forward (CHGNet.angle_embedding self) (BatchedGraph.angle_bases g)
            else [])
           None None) = Ok st.
Proof.
  intros self g sw raf rcf st crystal energy H. unfold CHGNet.readout in H.
  cbv zeta in H.
  destruct (AtomEmbedding.forward _ _) as [atom_feas | err]; cbn [bind] in H;
    [ | discriminate H].
  exists atom_feas.
  destruct (foldM _ _ _) as [st0 | err]; cbn [bind] in H; [ | discriminate H].
  destruct (CHGNet.mlp_first self); bind_inv H; injection H as <- _ _; reflexivity.
Qed.

Lemma readout_magmom :
  forall args self g raf rcf st crystal energy,
    CHGNet.__init__ args = Ok self ->
    (2 <= ModelArgs.n_conv args)%Z ->
    CHGNet.readout self g true raf rcf = Ok (st, crystal, energy) ->
    exists atom_feas parts,
      CHGNet.mp_m st = Some parts
      /\ Tensor.split_with_sizes
           (Tensor.view_flat (map (map Rabs)
                                (Linear.forward (CHGNet.site_wise self) atom_feas)))
           (Tensor.bincount (BatchedGraph.atom_owners g)) = Ok parts.
Proof.
  intros args self g raf rcf st crystal energy Hinit Hn H.
  destruct (init_inv _ Hinit) as (Hnc & _ & _ & _ & Hacl & Hbcl & Hanl & _).
  apply readout_state in H. destruct H as [atom_feas0 H].
  set (items := CHGNet.zip3 _ _ _) in H.
  assert (Hlen : length items = Z.to_nat (ModelArgs.n_conv args - 1)).
  { assert (Hrl : length (removelast (CHGNet.atom_conv_layers self))
                  = Z.to_nat (ModelArgs.n_conv args - 1)).
    { rewrite Hacl. unfold CHGNet.range.
      replace (Z.to_nat (ModelArgs.n_conv args))
        with (S (Z.to_nat (ModelArgs.n_conv args - 1))) by lia.
      rewrite seq_S, map_app. cbn [map]. rewrite removelast_last, length_map, length_seq.
      reflexivity. }
    unfold items. rewrite zip3_length; congruence. }
  destruct (exists_last (l := items)) as [items0 [item Hitems]].
  { intros Hnil. rewrite Hnil in Hlen. cbn in Hlen. lia. }
  rewrite Hitems, enumerate_snoc, foldM_app in H.
  destruct (foldM _ (enumerate items0) _) as [st1 | err]; cbn [bind foldM] in H;
    [ | discriminate H].
  destruct (CHGNet.mp_step _ _ _ _ _ _ _ st1 _) as [st2 | err] eqn:Estep;
    cbn [bind] in H; [ | discriminate H].
  injection H as <-.
  eapply mp_step_magmom; [exact Estep | ].
  rewrite Hitems, length_app in Hlen. cbn [length] in Hlen. rewrite Hnc. lia.
Qed.

End Magmom.
Section MagmomClaim.
Context {basis : Basis} {layers : Layers} {params : Parameters} {autograd : Autograd}.

Local Open Scope R_scope.

Lemma Rabs_rows_nonneg : forall (x : Mat),
  Forall (fun v => 0 <= v) (Tensor.view_flat (map (map Rabs) x)).
Proof.
  intros x. unfold Tensor.view_flat. apply Forall_concat.
  apply Forall_forall. intros row Hrow. apply in_map_iff in Hrow.
  destruct Hrow as [row0 [<- _]].
  apply Forall_forall. intros v Hv. apply in_map_iff in Hv.
  destruct Hv as [v0 [<- _]]. apply Rabs_pos.
Qed.

Lemma owners_bincount_length : forall (graphs : list Crystal_Graph.t),
  (length (Tensor.bincount
             (concat (map (fun kg => repeat (fst kg)
                                       (length (Crystal_Graph.atomic_number (snd kg))))
                        (enumerate graphs))))
   <= length graphs)%nat.
Proof.
  intros graphs. set (owners := concat _).
  assert (Hlt : Forall (fun k => (k < length graphs)%nat) owners).
  { unfold owners. apply Forall_concat. apply Forall_forall.
    intros l Hl. apply in_map_iff in Hl. destruct Hl as [[k graph] [<- Hin]].
    cbn [fst snd]. apply Forall_forall. intros x Hx. apply repeat_spec in Hx. subst x.
    unfold enumerate in Hin. apply in_combine_l in Hin. apply in_seq in Hin. lia. }
  unfold Tensor.bincount. destruct owners as [| a owners]; [cbn; lia | ].
  rewrite length_map, length_seq.
  assert (Hmax : (list_max (a :: owners) <= length graphs - 1)%nat).
  { apply list_max_le. eapply Forall_impl; [ | exact Hlt]. cbv beta. intros; lia. }
  inversion Hlt; subst. lia.
Qed.

(** C9 (as the code has it): for a model with at least two convolution
    blocks, a forward pass whose task contains ["m"] returns magnetic
    moments: the absolute values of the linear projection [site_wise] of
    the atom features, split per structure, one moment per atom of each
    structure, none negative. *)
Theorem magnetic_moments_nonnegative_one_per_atom :
  forall (args : ModelArgs.t) (self : CHGNet.t) (graphs : list Crystal_Graph.t)
         (task : string) (raf rcf : bool) (p : CHGNet.prediction),
    CHGNet.__init__ args = Ok self ->
    (2 <= ModelArgs.n_conv args)%Z ->
    CHGNet.contains "m" task = true ->
    CHGNet.forward self graphs task raf rcf = Ok p ->
    exists (ms : list Vec) (atom_feas : Mat),
      CHGNet.m p = Some ms
      /\ concat ms
         = Tensor.view_flat (map (map Rabs)
                               (Linear.forward (CHGNet.site_wise self) atom_feas))
      /\ map (@length R) ms = CHGNet.atoms_per_graph p
      /\ (forall (k : nat) (graph : Crystal_Graph.t),
             nth_error graphs k = Some graph ->
             length (nth k ms []) = length (Crystal_Graph.atomic_number graph))
      /\ (length ms <= length graphs)%nat
      /\ Forall (Forall (fun x => 0 <= x)) ms.
Proof.
  intros args self graphs task raf rcf p Hinit Hn Hm H.
  apply forward_inv in H.
  destruct H as (g & p0 & comp & Hg & Hc & _ & _ & Hapg & _ & Hmp & _).
  apply compute_inv in Hc.
  destruct Hc as (st & crystal & energy & Hr & Hapg0 & _ & Hm0 & _).
  rewrite Hm in Hr.
  edestruct readout_magmom as (atom_feas & parts & Hparts & Hsplit);
    [exact Hinit | exact Hn | exact Hr | ].
  apply split_with_sizes_inv in Hsplit. destruct Hsplit as [Hcat Hlens].
  unfold BatchedGraph.from_graphs in Hg. apply from_graphs_at_inv in Hg.
  destruct Hg as (_ & _ & _ & _ & _ & _ & _ & _ & Hown).
  exists parts, atom_feas.
  split; [congruence | ]. split; [exact Hcat | ]. split; [congruence | ].
  split; [ | split].
  - intros k graph Hk.
    transitivity (nth k (map (@length R) parts) 0%nat);
      [symmetry; apply (map_nth (@length R) parts [] k) | ].
    rewrite Hlens, bincount_nth, Hown. unfold enumerate.
    rewrite count_occ_owners, Nat.sub_0_r, Hk. reflexivity.
  - unfold Vec. rewrite <- (length_map (@length R) parts), Hlens, Hown.
    apply owners_bincount_length.
  - apply Forall_concat. rewrite Hcat. apply Rabs_rows_nonneg.
Qed.

(** With fewer than two convolution blocks the loop of [_compute] has no
    iteration, and no forward pass returns magnetic moments. *)
Lemma no_magnetic_moments_below_two_blocks :
  forall (args : ModelArgs.t) (self : CHGNet.t) (graphs : list Crystal_Graph.t)
         (task : string) (raf rcf : bool) (p : CHGNet.prediction),
    CHGNet.__init__ args = Ok self ->
    (ModelArgs.n_conv args <= 1)%Z ->
    CHGNet.forward self graphs task raf rcf = Ok p ->
    CHGNet.m p = None.
Proof.
  intros args self graphs task raf rcf p Hinit Hn H.
  apply forward_inv in H.
  destruct H as (g & p0 & comp & _ & Hc & _ & _ & _ & _ & Hmp & _).
  apply compute_inv in Hc.
  destruct Hc as (st & crystal & energy & Hr & _ & _ & Hm0 & _).
  apply readout_state in Hr. destruct Hr as [atom_feas Hr].
  destruct (init_inv _ Hinit) as (_ & _ & _ & _ & Hacl & _).
  assert (Hnil : removelast (CHGNet.atom_conv_layers self) = []).
  { rewrite Hacl. unfold CHGNet.range.
    destruct (Z.to_nat (ModelArgs.n_conv args)) as [| [| n]] eqn:En; try reflexivity.
    lia. }
  rewrite Hnil in Hr. cbn in Hr. injection Hr as <-.
  rewrite Hmp, Hm0. reflexivity.
Qed.

End MagmomClaim.

Lemma magnetic_moments_nonnegative_one_per_atom_witness :
  exists self p ms,
    @CHGNet.__init__ Example.basis Example.layers Example.params (Example.args_n_conv 2)
      = Ok self
    /\ @CHGNet.forward Example.autograd self [Example.dimer; Example.trimer] "em" false false
       = Ok p
    /\ CHGNet.m p = Some ms
    /\ length (nth 0 ms []) = 2%nat
    /\ length (nth 1 ms []) = 3%nat
    /\ Forall (Forall (fun x => (0 <= x)%R)) ms.
Proof.
  destruct (@CHGNet.__init__ Example.basis Example.layers Example.params
              (Example.args_n_conv 2)) as [self | err] eqn:E;
    [ | run_in E; discriminate E].
  destruct (@CHGNet.forward Example.autograd self [Example.dimer; Example.trimer]
              "em" false false) as [p | err] eqn:Ef.
  2: { run_in E. injection E as <-. run_in Ef. discriminate Ef. }
  destruct (@magnetic_moments_nonnegative_one_per_atom
              Example.basis Example.layers Example.params Example.autograd
              (Example.args_n_conv 2) self [Example.dimer; Example.trimer] "em"
              false false p E ltac:(cbn; lia) eq_refl Ef)
    as (ms & atom_feas & Hm & _ & _ & Hk & _ & Hpos).
  exists self, p, ms. repeat split; try assumption.
  - exact (Hk 0%nat Example.dimer eq_refl).
  - exact (Hk 1%nat Example.trimer eq_refl).
Defined.

(** C9 (as the claim has it) fails: a model with a single convolution block
    returns a prediction without magnetic moments for the task ["em"]. *)
Lemma one_block_model_returns_no_magnetic_moments :
  exists self p,
    @CHGNet.__init__ Example.basis Example.layers Example.params (Example.args_n_conv 1)
      = Ok self
    /\ CHGNet.contains "m" "em" = true
    /\ @CHGNet.forward Example.autograd self [Example.dimer; Example.trimer] "em" false false
       = Ok p
    /\ CHGNet.m p = None.
Proof.
  eexists. eexists.
  split; [run; reflexivity | ]. split; [reflexivity | ].
  split; [run; reflexivity | reflexivity].
Qed.

(** ** Intensive and extensive energy *)

Section Intensive.
Context {basis : Basis} {layers : Layers} {params : Parameters} {autograd : Autograd}.

Local Open Scope R_scope.

Lemma readout_with_is_intensive : forall (b : bool) (self : CHGNet.t),
  CHGNet.readout (with_is_intensive b self) = CHGNet.readout self.
Proof. reflexivity. Qed.

Lemma energy_sum_with_is_intensive : forall (b : bool) (self : CHGNet.t),
  CHGNet.energy_sum (with_is_intensive b self) = CHGNet.energy_sum self.
Proof. reflexivity. Qed.

Lemma nth_map2_div : forall (xs ys : list R) (k : nat),
  length xs = length ys ->
  nth k (Tensor.map2 Rdiv xs ys) 0 = nth k xs 0 / nth k ys 0.
Proof.
  induction xs as [| x xs IH]; intros [| y ys] k H; cbn in H; try discriminate H.
  - destruct k; cbn; unfold Rdiv; ring.
  - destruct k; cbn [Tensor.map2 nth]; [reflexivity | apply IH; lia].
Qed.

(** C5: for an intensive model [_compute] returns, as energy, the energy
    the same model returns when it is extensive, divided by the number of
    atoms of each structure. The division comes after everything else:
    forces, stress, moments and features are those of the extensive
    model. *)
Theorem intensive_energy_is_extensive_energy_per_atom :
  forall (self : CHGNet.t) (g : BatchedGraph.t) (grad_fn : CHGNet.tape)
         (site_wise compute_force compute_stress raf rcf : bool)
         (p : CHGNet.prediction),
    CHGNet.is_intensive self = true ->
    CHGNet._compute self g grad_fn site_wise compute_force compute_stress raf rcf = Ok p ->
    exists p_ext : CHGNet.prediction,
      CHGNet._compute (with_is_intensive false self) g grad_fn
        site_wise compute_force compute_stress raf rcf = Ok p_ext
      /\ Tensor.broadcast2 Rdiv (CHGNet.e p_ext) (map INR (CHGNet.atoms_per_graph p_ext))
         = Ok (CHGNet.e p)
      /\ (length (CHGNet.e p_ext) = length (CHGNet.atoms_per_graph p_ext) ->
          forall k : nat,
            nth k (CHGNet.e p) 0
            = nth k (CHGNet.e p_ext) 0 / INR (nth k (CHGNet.atoms_per_graph p_ext) 0%nat))
      /\ CHGNet.f p = CHGNet.f p_ext
      /\ CHGNet.s p = CHGNet.s p_ext
      /\ CHGNet.m p = CHGNet.m p_ext
      /\ CHGNet.atom_fea p = CHGNet.atom_fea p_ext
      /\ CHGNet.crystal_fea p = CHGNet.crystal_fea p_ext
      /\ CHGNet.atoms_per_graph p = CHGNet.atoms_per_graph p_ext.
Proof.
  intros self g grad_fn site_wise compute_force compute_stress raf rcf p Hint H.
  apply compute_inv in H.
  destruct H as (st & crystal & energy & Hr & Hapg & Hfea & Hm & Hcf & Hf & Hs & He).
  rewrite Hint in He.
  unfold CHGNet._compute.
  rewrite readout_with_is_intensive, !energy_sum_with_is_intensive, Hr.
  cbn [bind with_is_intensive CHGNet.is_intensive].
  assert (Hdiv : forall e_ext apg,
             e_ext = energy -> apg = Tensor.bincount (BatchedGraph.atom_owners g) ->
             Tensor.broadcast2 Rdiv e_ext (map INR apg) = Ok (CHGNet.e p)
             /\ (length e_ext = length apg ->
                 forall k, nth k (CHGNet.e p) 0 = nth k e_ext 0 / INR (nth k apg 0%nat))).
  { intros e_ext apg -> ->. split; [exact He | ].
    intros Hlen k.
    rewrite broadcast2_same_length in He by (rewrite length_map; exact Hlen).
    injection He as <-.
    rewrite nth_map2_div by (rewrite length_map; exact Hlen).
    f_equal. change 0 with (INR 0). apply map_nth. }
  destruct compute_force, compute_stress.
  - destruct Hf as (grads & -> & ->), Hs as (strains & sgrads & -> & Hsg & ->).
    cbn [bind]. rewrite Hsg. cbn [bind]. eexists. split; [reflexivity | ].
    cbn [CHGNet.e CHGNet.atoms_per_graph CHGNet.f CHGNet.s CHGNet.m CHGNet.atom_fea
         CHGNet.crystal_fea].
    destruct (Hdiv energy _ eq_refl eq_refl). repeat split; assumption.
  - destruct Hf as (grads & -> & ->). rewrite Hs.
    cbn [bind]. eexists. split; [reflexivity | ].
    cbn [CHGNet.e CHGNet.atoms_per_graph CHGNet.f CHGNet.s CHGNet.m CHGNet.atom_fea
         CHGNet.crystal_fea].
    destruct (Hdiv energy _ eq_refl eq_refl). repeat split; assumption.
  - destruct Hs as (strains & sgrads & -> & Hsg & ->). rewrite Hf.
    cbn [bind]. rewrite Hsg. cbn [bind]. eexists. split; [reflexivity | ].
    cbn [CHGNet.e CHGNet.atoms_per_graph CHGNet.f CHGNet.s CHGNet.m CHGNet.atom_fea
         CHGNet.crystal_fea].
    destruct (Hdiv energy _ eq_refl eq_refl). repeat split; assumption.
  - rewrite Hf, Hs.
    cbn [bind]. eexists. split; [reflexivity | ].
    cbn [CHGNet.e CHGNet.atoms_per_graph CHGNet.f CHGNet.s CHGNet.m CHGNet.atom_fea
         CHGNet.crystal_fea].
    destruct (Hdiv energy _ eq_refl eq_refl). repeat split; assumption.
Qed.

(** Without a composition model [forward] returns the energy of
    [_compute]; with one, it adds the energy of that model to it, after the
    division. *)
Lemma forward_energy_without_composition_model :
  forall (self : CHGNet.t) (graphs : list Crystal_Graph.t) (task : string)
         (raf rcf : bool) (p : CHGNet.prediction),
    CHGNet.composition_model self = None ->
    CHGNet.forward self graphs task raf rcf = Ok p ->
    exists (g : BatchedGraph.t) (p0 : CHGNet.prediction),
      CHGNet._compute self g (CHGNet.recorded self graphs (CHGNet.contains "s" task))
        (CHGNet.contains "m" task) (CHGNet.contains "f" task)
        (CHGNet.contains "s" task) raf rcf = Ok p0
      /\ CHGNet.e p = CHGNet.e p0.
Proof.
  intros self graphs task raf rcf p Hnone H.
  apply forward_inv in H.
  destruct H as (g & p0 & comp & _ & Hc & Hcomp & He & _).
  rewrite Hnone in Hcomp. subst comp. cbn [CHGNet.add_comp_energy] in He.
  injection He as <-. exists g, p0. split; [exact Hc | ].
  rewrite <- (map_id (CHGNet.e p0)) at 2. apply map_ext. intros x. ring.
Qed.

End Intensive.

Lemma intensive_energy_is_extensive_energy_per_atom_witness :
  exists self g p p_ext,
    @CHGNet.__init__ Example.basis Example.layers Example.params (Example.args_n_conv 2)
      = Ok self
    /\ BatchedGraph.from_graphs [Example.dimer; Example.trimer]
         (CHGNet.bond_basis_expansion self) (CHGNet.angle_basis_expansion self) true
       = Ok g
    /\ @CHGNet._compute Example.autograd self g
         (CHGNet.recorded self [Example.dimer; Example.trimer] true)
         true true true false false = Ok p
    /\ @CHGNet._compute Example.autograd (with_is_intensive false self) g
         (CHGNet.recorded self [Example.dimer; Example.trimer] true)
         true true true false false = Ok p_ext
    /\ Tensor.broadcast2 Rdiv (CHGNet.e p_ext) (map INR (CHGNet.atoms_per_graph p_ext))
       = Ok (CHGNet.e p)
    /\ CHGNet.f p = CHGNet.f p_ext.
Proof.
  destruct (@CHGNet.__init__ Example.basis Example.layers Example.params
              (Example.args_n_conv 2)) as [self | err] eqn:E;
    [ | run_in E; discriminate E].
  assert (Hint : CHGNet.is_intensive self = true)
    by (run_in E; injection E as <-; reflexivity).
  destruct (BatchedGraph.from_graphs [Example.dimer; Example.trimer]
              (CHGNet.bond_basis_expansion self) (CHGNet.angle_basis_expansion self) true)
    as [g | err] eqn:Eg.
  2: { run_in E. injection E as <-. run_in Eg. discriminate Eg. }
  destruct (@CHGNet._compute Example.autograd self g
              (CHGNet.recorded self [Example.dimer; Example.trimer] true)
              true true true false false) as [p | err] eqn:Ec.
  2: { run_in E. injection E as <-. run_in Eg. injection Eg as <-.
       run_in Ec. discriminate Ec. }
  destruct (@intensive_energy_is_extensive_energy_per_atom Example.autograd
              self g (CHGNet.recorded self [Example.dimer; Example.trimer] true)
              true true true false false p Hint Ec)
    as (p_ext & Hext & Hdiv & _ & Hf & _).
  exists self, g, p, p_ext. repeat split; assumption.
Defined.

(** ** Forces and stress *)

Local Open Scope R_scope.

Lemma matmul3_eye_plus_zeros : forall (m : Mat3),
  Tensor.matmul3 m (Tensor.add_mat3 Tensor.eye3 Tensor.zeros3) = m.
Proof.
  intros [[[[a b] c] [[d e] f]] [[g h] i]].
  unfold Tensor.matmul3, Tensor.row_matmul, Tensor.add_mat3, Tensor.eye3,
    Tensor.zeros3, Tensor.add3, Tensor.scale3.
  repeat f_equal; ring.
Qed.

Lemma lattice_of_zero_strain : forall (cs : bool) (lv : BatchedGraph.leaves) (k : nat)
    (graph : Crystal_Graph.t),
  BatchedGraph.strain_at lv k = Tensor.zeros3 ->
  lattice_of cs lv k graph = Crystal_Graph.lattice graph.
Proof.
  intros cs lv k graph Hz. unfold lattice_of. destruct cs; [ | reflexivity].
  rewrite Hz. apply matmul3_eye_plus_zeros.
Qed.

Lemma step_ext : forall bbe abe cs lv1 lv2 st k graph,
  BatchedGraph.strain_at lv1 k = BatchedGraph.strain_at lv2 k ->
  positions_of cs lv1 k graph = positions_of cs lv2 k graph ->
  BatchedGraph.step bbe abe cs lv1 st (k, graph)
  = BatchedGraph.step bbe abe cs lv2 st (k, graph).
Proof.
  intros bbe abe cs lv1 lv2 st k graph Hs Hp.
  unfold positions_of, lattice_of in Hp. unfold BatchedGraph.step.
  rewrite Hs in *. destruct cs; cbv beta iota zeta; rewrite Hp; reflexivity.
Qed.

Lemma foldM_ext : forall (A S : Type) (f1 f2 : S -> A -> result S) (l : list A) (s : S),
  (forall a s', In a l -> f1 s' a = f2 s' a) ->
  foldM f1 l s = foldM f2 l s.
Proof.
  induction l as [| a l IH]; intros s H; cbn [foldM]; [reflexivity | ].
  rewrite (H a s (or_introl eq_refl)).
  destruct (f2 s a) as [s' | err]; cbn [bind]; [ | reflexivity].
  apply IH. intros a' s'' Hin. apply H. right; exact Hin.
Qed.

Lemma nth_error_combine_seq : forall (A : Type) (l : list A) (s k : nat) (a : A),
  In (k, a) (combine (seq s (length l)) l) ->
  (s <= k)%nat /\ nth_error (combine (seq s (length l)) l) (k - s) = Some (k, a).
Proof.
  induction l as [| x l IH]; intros s k a H; cbn [length seq combine] in H |- *.
  - contradiction.
  - destruct H as [H | H].
    + injection H as <- <-. rewrite Nat.sub_diag. split; [lia | reflexivity].
    + apply IH in H. destruct H as [Hle Hnth]. split; [lia | ].
      replace (k - s)%nat with (S (k - S s)) by lia. exact Hnth.
Qed.

Lemma nth_error_enumerate : forall (A : Type) (l : list A) (k : nat) (a : A),
  In (k, a) (enumerate l) -> nth_error (enumerate l) k = Some (k, a).
Proof.
  intros A l k a H. apply nth_error_combine_seq in H.
  rewrite Nat.sub_0_r in H. apply H.
Qed.

(** The recorded graph, evaluated at the tensors [from_graphs] built,
    gives the batch [from_graphs] returned. *)
Lemma from_graphs_at_actual_positions : forall graphs bbe abe cs g,
  BatchedGraph.from_graphs graphs bbe abe cs = Ok g ->
  BatchedGraph.from_graphs_at graphs bbe abe cs
    (BatchedGraph.mk_leaves (fun _ => Tensor.zeros3)
       (fun k => nth_error (BatchedGraph.atom_positions g) k)) = Ok g.
Proof.
  intros graphs bbe abe cs g H.
  transitivity (BatchedGraph.from_graphs graphs bbe abe cs); [ | exact H].
  unfold BatchedGraph.from_graphs in *.
  apply from_graphs_at_inv in H. destruct H as (_ & _ & Hpos & _).
  unfold BatchedGraph.from_graphs_at. f_equal. apply foldM_ext.
  intros [k graph] st Hin. apply step_ext; [reflexivity | ].
  unfold positions_of at 1. cbn [BatchedGraph.position_at].
  rewrite Hpos, nth_error_map, (@nth_error_enumerate _ graphs k graph Hin). reflexivity.
Qed.

Lemma from_graphs_at_zero_strains : forall graphs bbe abe cs,
  BatchedGraph.from_graphs_at graphs bbe abe cs
    (BatchedGraph.mk_leaves
       (fun k => nth k (map (fun _ => Tensor.zeros3) graphs) Tensor.zeros3)
       (fun _ => None))
  = BatchedGraph.from_graphs graphs bbe abe cs.
Proof.
  intros graphs bbe abe cs.
  unfold BatchedGraph.from_graphs, BatchedGraph.from_graphs_at. f_equal.
  apply foldM_ext. intros [k graph] st Hin.
  assert (Hz : nth k (map (fun _ : Crystal_Graph.t => Tensor.zeros3) graphs) Tensor.zeros3
               = Tensor.zeros3).
  { destruct (nth_in_or_default k (map (fun _ : Crystal_Graph.t => Tensor.zeros3) graphs)
                Tensor.zeros3) as [Hin' | ->]; [ | reflexivity].
    apply in_map_iff in Hin'. destruct Hin' as [? [<- _]]. reflexivity. }
  apply step_ext; cbn [BatchedGraph.strain_at BatchedGraph.initial_leaves].
  - exact Hz.
  - unfold positions_of, lattice_of.
    cbn [BatchedGraph.position_at BatchedGraph.strain_at BatchedGraph.initial_leaves].
    rewrite Hz. reflexivity.
Qed.

Lemma map_enumerate_snd : forall (A B : Type) (fn : A -> B) (l : list A),
  map (fun kg => fn (snd kg)) (enumerate l) = map fn l.
Proof.
  intros A B fn l. unfold enumerate. generalize 0%nat.
  induction l as [| a l IH]; intros s; cbn [length seq combine map];
    [reflexivity | ]. rewrite IH. reflexivity.
Qed.

Lemma neg_rows_opp : forall (grads : list (list Vec3)),
  map CHGNet.neg_rows grads = map (map opp3) grads.
Proof.
  intros grads. apply map_ext. intros rows. unfold CHGNet.neg_rows.
  apply map_ext. intros [[a b] c]. unfold opp3. repeat f_equal; ring.
Qed.

Lemma map2_map_r : forall (A B C D : Type) (fn : A -> C -> D) (h : B -> C)
    (xs : list A) (ys : list B),
  Tensor.map2 fn xs (map h ys) = Tensor.map2 (fun x y => fn x (h y)) xs ys.
Proof.
  induction xs as [| x xs IH]; intros [| y ys]; cbn; try reflexivity.
  rewrite IH. reflexivity.
Qed.

Lemma map2_ext : forall (A B C : Type) (f1 f2 : A -> B -> C) (xs : list A) (ys : list B),
  (forall x y, f1 x y = f2 x y) -> Tensor.map2 f1 xs ys = Tensor.map2 f2 xs ys.
Proof.
  induction xs as [| x xs IH]; intros [| y ys] H; cbn; try reflexivity.
  rewrite H, (IH ys H). reflexivity.
Qed.
Lemma map_mat3_ext : forall (f1 f2 : R -> R) (m : Mat3),
  (forall x, f1 x = f2 x) -> Tensor.map_mat3 f1 m = Tensor.map_mat3 f2 m.
Proof.
  intros f1 f2 [[[[a b] c] [[d e] f]] [[h i] j]] H. unfold Tensor.map_mat3.
  rewrite !H. reflexivity.
Qed.

Section Derivatives.
Context {autograd : Autograd}.


(** C2: when the task contains ["s"], the stress [forward] returns for a
    structure is the gradient of the total energy of the batch with respect
    to the strain of that structure, taken at zero strain, divided by the
    volume of the structure (the determinant of its lattice) and multiplied
    by 160.21766208. *)
Theorem stress_is_strain_gradient_over_volume_times_constant :
  forall (self : CHGNet.t) (graphs : list Crystal_Graph.t) (task : string)
         (raf rcf : bool) (p : CHGNet.prediction),
    CHGNet.contains "s" task = true ->
    CHGNet.forward self graphs task raf rcf = Ok p ->
    exists (g : BatchedGraph.t) (st : CHGNet.mp_state) (crystal : option Mat)
           (energy : Vec) (grads : list Mat3),
      BatchedGraph.from_graphs graphs (CHGNet.bond_basis_expansion self)
        (CHGNet.angle_basis_expansion self) true = Ok g
      /\ BatchedGraph.strains g = map (fun _ => Some Tensor.zeros3) graphs
      /\ BatchedGraph.volumes g
         = map (fun graph => Tensor.det (Crystal_Graph.lattice graph)) graphs
      /\ CHGNet.readout self g (CHGNet.contains "m" task) raf rcf
         = Ok (st, crystal, energy)
      /\ total_energy_of_strains self graphs task raf rcf
           (map (fun _ => Tensor.zeros3) graphs) = Ok (Tensor.sum energy)
      /\ autograd_grad (total_energy_of_strains self graphs task raf rcf)
           (map (fun _ => Tensor.zeros3) graphs) = Ok grads
      /\ CHGNet.s p
         = Some (Tensor.map2
                   (fun gradient volume =>
                      Tensor.map_mat3 (fun x => x / volume * 160.21766208) gradient)
                   grads (BatchedGraph.volumes g)).
Proof.
  intros self graphs task raf rcf p Hs H.
  apply forward_inv in H. rewrite Hs in H.
  destruct H as (g & p0 & comp & Hg & Hc & _ & _ & _ & _ & _ & _ & _ & Hsp).
  apply compute_inv in Hc.
  destruct Hc as (st & crystal & energy & Hr & _ & _ & _ & _ & _ & Hstress & _).
  destruct Hstress as (strains & grads & Hstrains & Hgrad & Hs0).
  pose proof Hg as Hinv. unfold BatchedGraph.from_graphs in Hinv.
  apply from_graphs_at_inv in Hinv.
  destruct Hinv as (_ & _ & _ & Hstr & Hvol & _).
  assert (Hstr' : BatchedGraph.strains g = map (fun _ => Some Tensor.zeros3) graphs).
  { rewrite Hstr.
    rewrite <- (map_enumerate_snd (fun _ => Some Tensor.zeros3) graphs). reflexivity. }
  assert (Hstrains' : strains = map (fun _ => Tensor.zeros3) graphs).
  { rewrite Hstr' in Hstrains. clear - Hstrains. revert strains Hstrains.
    induction graphs as [| graph graphs IH]; intros strains H; cbn [map mapM bind] in H.
    - injection H as <-. reflexivity.
    - destruct (mapM _ _) as [rest | err]; cbn [bind] in H; [ | discriminate H].
      injection H as <-. cbn [map]. f_equal. apply IH. reflexivity. }
  subst strains.
  exists g, st, crystal, energy, grads.
  split; [exact Hg | ]. split; [exact Hstr' | ].
  split; [ | split; [exact Hr | split; [ | split]]].
  - rewrite Hvol.
    rewrite <- (map_enumerate_snd
                  (fun graph => Tensor.det (Crystal_Graph.lattice graph)) graphs).
    apply map_ext. intros [k graph].
    cbn [fst snd]. rewrite lattice_of_zero_strain by reflexivity. reflexivity.
  - unfold total_energy_of_strains, CHGNet.recorded. rewrite Hs.
    cbn [CHGNet.wrt_strains].
    rewrite from_graphs_at_zero_strains, Hg.
    unfold CHGNet.energy_sum. cbn [bind]. rewrite Hr. reflexivity.
  - unfold total_energy_of_strains. rewrite Hs. exact Hgrad.
  - rewrite Hsp, Hs0, map2_map_r. f_equal. apply map2_ext.
    intros gradient v. apply map_mat3_ext. intros x. unfold Rdiv. ring.
Qed.

End Derivatives.

Lemma stress_is_strain_gradient_over_volume_times_constant_witness :
  exists self p grads,
    @CHGNet.__init__ Example.basis Example.layers Example.params (Example.args_n_conv 2)
      = Ok self
    /\ @CHGNet.forward Example.autograd self [Example.dimer; Example.trimer] "efs"
         false false = Ok p
    /\ @autograd_grad Example.autograd _
         (total_energy_of_strains self [Example.dimer; Example.trimer] "efs" false false)
         [Tensor.zeros3; Tensor.zeros3] = Ok grads
    /\ CHGNet.s p
       = Some (Tensor.map2
                 (fun gradient volume =>
                    Tensor.map_mat3 (fun x => (x / volume * 160.21766208)%R) gradient)
                 grads
                 [Tensor.det (Crystal_Graph.lattice Example.dimer);
                  Tensor.det (Crystal_Graph.lattice Example.trimer)]).
Proof.
  destruct (@CHGNet.__init__ Example.basis Example.layers Example.params
              (Example.args_n_conv 2)) as [self | err] eqn:E;
    [ | run_in E; discriminate E].
  destruct (@CHGNet.forward Example.autograd self [Example.dimer; Example.trimer]
              "efs" false false) as [p | err] eqn:Ef.
  2: { run_in E. injection E as <-. run_in Ef. discriminate Ef. }
  destruct (@stress_is_strain_gradient_over_volume_times_constant Example.autograd
              self [Example.dimer; Example.trimer] "efs" false false p eq_refl Ef)
    as (g & st & crystal & energy & grads & _ & _ & Hvol & _ & _ & Hgrad & Hs).
  rewrite Hvol in Hs.
  exists self, p, grads. repeat split; assumption.
Defined.

(** ** The angle encoder *)

Lemma clamp_inside : forall d : R, -1 <= d <= 1 -> -1 < d * (1 - 1e-6) < 1.
Proof. intros d H. lra. Qed.

Lemma acos_derivable_inside : forall c : R,
  -1 < c < 1 -> derivable_pt_lim acos c (-1 / sqrt (1 - c²)).
Proof.
  intros c H. rewrite <- (derive_pt_acos c H). 
  apply (derive_pt_eq_1 acos c _ (derivable_pt_acos c H)). reflexivity.
Qed.

(** In floating arithmetic too an absolute value never compares below
    zero, whatever its argument. *)
Remark SFabs_not_negative : forall x : spec_float,
  SFltb (SFabs x) (S754_zero false) = false.
Proof. intros [s | s | | s m e]; reflexivity. Qed.

Section Binary32.
Local Open Scope Z_scope.

Lemma digits2_pos_bounds : forall m : positive,
  2 ^ (Zpos (digits2_pos m) - 1) <= Zpos m < 2 ^ Zpos (digits2_pos m).
Proof.
  induction m as [m IH | m IH | ]; cbn [digits2_pos].
  - rewrite Pos2Z.inj_succ.
    replace (Z.succ (Z.pos (digits2_pos m)) - 1) with (Z.succ (Z.pos (digits2_pos m) - 1)) by lia.
    rewrite !Z.pow_succ_r by lia. lia.
  - rewrite Pos2Z.inj_succ.
    replace (Z.succ (Z.pos (digits2_pos m)) - 1) with (Z.succ (Z.pos (digits2_pos m) - 1)) by lia.
    rewrite !Z.pow_succ_r by lia. lia.
  - cbn. lia.
Qed.

Lemma digits2_pos_le : forall (m : positive) (k : Z),
  0 <= k -> Zpos m < 2 ^ k -> Zpos (digits2_pos m) <= k.
Proof.
  intros m k Hk Hm.
  destruct (Z_le_gt_dec (Zpos (digits2_pos m)) k) as [Hle | Hgt]; [exact Hle | ].
  exfalso. pose proof (digits2_pos_bounds m) as [Hlow _].
  assert (2 ^ k <= 2 ^ (Zpos (digits2_pos m) - 1)) by (apply Z.pow_le_mono_r; lia).
  lia.
Qed.

Lemma shr_1_div2 : forall mrs : shr_record,
  0 <= shr_m mrs -> shr_m (shr_1 mrs) = shr_m mrs / 2.
Proof.
  intros [m r s] Hm; cbn [shr_m] in *. unfold shr_1.
  destruct m as [| [p | p | ] | p]; cbn [shr_m]; try lia.
  all: try reflexivity.
  - apply (Z.div_unique (Z.pos p~1) 2 (Z.pos p) 1); lia.
  - apply (Z.div_unique (Z.pos p~0) 2 (Z.pos p) 0); lia.
Qed.

Lemma iter_shr_1_div : forall (p : positive) (mrs : shr_record),
  0 <= shr_m mrs ->
  shr_m (iter_pos shr_1 p mrs) = shr_m mrs / 2 ^ Zpos p.
Proof.
  induction p as [p IH | p IH | ]; intros mrs Hm; cbn [iter_pos].
  - assert (H1 : 0 <= shr_m (shr_1 mrs)).
    { rewrite shr_1_div2 by exact Hm. apply Z.div_pos; lia. }
    assert (H2 : 0 <= shr_m (iter_pos shr_1 p (shr_1 mrs))).
    { rewrite IH by exact H1. apply Z.div_pos; [exact H1 | ]. apply Z.pow_pos_nonneg; lia. }
    rewrite IH by exact H2. rewrite IH by exact H1. rewrite shr_1_div2 by exact Hm.
    rewrite !Z.div_div by (try apply Z.pow_pos_nonneg; lia).
    f_equal.
    replace (Z.pos p~1) with (Z.pos p + Z.pos p + 1) by lia.
    rewrite !Z.pow_add_r, Z.pow_1_r by lia. ring.
  - assert (H2 : 0 <= shr_m (iter_pos shr_1 p mrs)).
    { rewrite IH by exact Hm. apply Z.div_pos; [exact Hm | ]. apply Z.pow_pos_nonneg; lia. }
    rewrite IH by exact H2. rewrite IH by exact Hm.
    rewrite !Z.div_div by (try apply Z.pow_pos_nonneg; lia).
    f_equal.
    replace (Z.pos p~0) with (Z.pos p + Z.pos p) by lia.
    rewrite !Z.pow_add_r by lia. ring.
  - rewrite shr_1_div2 by exact Hm. reflexivity.
Qed.

Lemma round_nearest_even_bounds : forall (m : Z) (l : location),
  m <= round_nearest_even m l <= m + 1.
Proof.
  intros m [| [ | | ]]; cbn [round_nearest_even]; try lia.
  destruct (Z.even m); lia.
Qed.

Lemma fexp_32 : forall x : Z, fexp 24 128 x = Z.max (x - 24) (-149).
Proof. reflexivity. Qed.

(** Rounding a positive product that is at most [(2^24 - 17) * 2^e0 * 2^24],
    the value of [Float32.scalar], gives zero or a number whose exponent is
    at most -24, below the exponent of 1. *)
Lemma binary_round_aux_below_one : forall (sx : bool) (p : positive) (e0 : Z),
  e0 <= -47 ->
  Zpos p <= (2 ^ 24 - 17) * 2 ^ (- e0 - 24) ->
  binary_round_aux 24 128 sx (Zpos p) e0 loc_Exact = S754_zero sx
  \/ exists (m' : positive) (e' : Z),
       binary_round_aux 24 128 sx (Zpos p) e0 loc_Exact = S754_finite sx m' e'
       /\ e' <= -24.
Proof.
  intros sx p e0 He0 Hp.
  assert (Hpow : 0 < 2 ^ (- e0 - 24)) by (apply Z.pow_pos_nonneg; lia).
  assert (Hlt : Zpos p < 2 ^ (- e0)).
  { replace (- e0) with (24 + (- e0 - 24)) by lia. rewrite Z.pow_add_r by lia. nia. }
  assert (Hd : Zpos (digits2_pos p) <= - e0) by (apply digits2_pos_le; [lia | exact Hlt]).
  unfold binary_round_aux, shr_fexp, shr. cbn [Zdigits2 shr_record_of_loc].
  rewrite fexp_32.
  set (E := Z.max (Zpos (digits2_pos p) + e0 - 24) (-149)).
  assert (HE : -149 <= E <= -24) by (unfold E; lia).
  destruct (E - e0) as [| q | q] eqn:Hn.
  - (* the product is representable *)
    cbn [shr_m loc_of_shr_record round_nearest_even Zdigits2].
    rewrite fexp_32. fold E. rewrite Hn.
    cbn [shr_m]. right. exists p, e0.
    destruct (Z.leb_spec e0 (128 - 24)); [ | lia]. split; [reflexivity | lia].
  - (* the product is shifted right by [q] bits and rounded *)
    set (mrs := iter_pos shr_1 q _).
    assert (HM1 : shr_m mrs = Zpos p / 2 ^ Zpos q).
    { unfold mrs. rewrite iter_shr_1_div by (cbn; lia). reflexivity. }
    set (M := round_nearest_even (shr_m mrs) (loc_of_shr_record mrs)).
    pose proof (round_nearest_even_bounds (shr_m mrs) (loc_of_shr_record mrs)) as HM.
    fold M in HM.
    assert (Hq : 0 < 2 ^ Zpos q) by (apply Z.pow_pos_nonneg; lia).
    assert (H0 : 0 <= shr_m mrs) by (rewrite HM1; apply Z.div_pos; lia).
    (* the mantissa after rounding is below 2^(-E) *)
    assert (Hk : 0 < 2 ^ (- E - 24)) by (apply Z.pow_pos_nonneg; lia).
    assert (Hup : shr_m mrs <= (2 ^ 24 - 17) * 2 ^ (- E - 24)).
    { rewrite HM1. apply Z.div_le_upper_bound; [exact Hq | ].
      replace (- e0 - 24) with (Zpos q + (- E - 24)) in Hp by lia.
      rewrite Z.pow_add_r in Hp by lia. nia. }
    assert (HME : M < 2 ^ (- E)).
    { replace (- E) with (24 + (- E - 24)) by lia. rewrite Z.pow_add_r by lia. nia. }
    replace (e0 + Zpos q) with E by lia.
    rewrite fexp_32.
    assert (HE2 : Z.max (Zdigits2 M + E - 24) (-149) <= -24).
    { destruct M as [| pm | pm]; cbn [Zdigits2]; [lia | | lia].
      assert (Zpos (digits2_pos pm) <= - E) by (apply digits2_pos_le; [lia | exact HME]).
      lia. }
    destruct (Z.max (Zdigits2 M + E - 24) (-149) - E) as [| q2 | q2] eqn:Hn2.
    + cbn [shr_m]. destruct M as [| pm | pm]; [left; reflexivity | | lia].
      right. exists pm, E.
      destruct (Z.leb_spec E (128 - 24)); [ | lia]. split; [reflexivity | lia].
    + set (mrs2 := iter_pos shr_1 q2 _).
      assert (HM2 : 0 <= shr_m mrs2).
      { unfold mrs2. rewrite iter_shr_1_div by (cbn; lia). cbn [shr_m].
        apply Z.div_pos; [lia | apply Z.pow_pos_nonneg; lia]. }
      destruct (shr_m mrs2) as [| pm | pm]; [left; reflexivity | | lia].
      right. exists pm, (E + Zpos q2).
      destruct (Z.leb_spec (E + Zpos q2) (128 - 24)); [ | lia].
      split; [reflexivity | lia].
    + cbn [shr_m]. destruct M as [| pm | pm]; [left; reflexivity | | lia].
      right. exists pm, E.
      destruct (Z.leb_spec E (128 - 24)); [ | lia]. split; [reflexivity | lia].
  - cbn [shr_m loc_of_shr_record round_nearest_even Zdigits2].
    rewrite fexp_32. fold E. rewrite Hn.
    cbn [shr_m]. right. exists p, e0.
    destruct (Z.leb_spec e0 (128 - 24)); [ | lia]. split; [reflexivity | lia].
Qed.

(** The scalar is 16777199 / 2^24, that is 1 - 17 / 2^24. *)
Lemma Float32_scalar_value : Float32.scalar = S754_finite false 16777199 (-24).
Proof. vm_compute. reflexivity. Qed.

(** In binary32, the product of a dot product in [-1, 1] by the scalar
    [1 - 1e-6] is strictly between -1 and 1: it is a number, not an
    infinity and not NaN, and its absolute value compares below 1. *)
Lemma Float32_clamp_strictly_inside : forall dot : spec_float,
  valid_binary Float32.prec Float32.emax dot = true ->
  SFleb (SFabs dot) Float32.one = true ->
  SFltb (SFabs (Float32.clamp dot)) Float32.one = true.
Proof.
  intros [s | s | | s m e] Hvalid Hle.
  - unfold Float32.clamp. rewrite Float32_scalar_value. destruct s; reflexivity.
  - discriminate Hle.
  - discriminate Hle.
  - unfold SFabs in Hle. unfold Float32.clamp. rewrite Float32_scalar_value.
    unfold SFmul.
    unfold valid_binary, bounded, canonical_mantissa in Hvalid.
    apply andb_true_iff in Hvalid. destruct Hvalid as [Hcan _].
    apply Z.eqb_eq in Hcan. change (fexp Float32.prec Float32.emax) with (fexp 24 128) in Hcan.
    rewrite fexp_32 in Hcan.
    pose proof (digits2_pos_bounds m) as [_ Hm].
    assert (Hm24 : Zpos m < 2 ^ 24).
    { eapply Z.lt_le_trans; [exact Hm | ]. apply Z.pow_le_mono_r; lia. }
    assert (He : e <= -23 /\ (e = -23 -> Zpos m <= 2 ^ 23)).
    { unfold SFleb, SFcompare, Float32.one in Hle.
      destruct (Z.compare_spec e (-23)) as [-> | Hlt | Hgt].
      - split; [lia | intros _].
        destruct (Pos.compare_cont Eq m 8388608) eqn:Hc; try discriminate Hle.
        + apply Pos.compare_eq in Hc. subst m.
          change (2 ^ 23) with (Zpos 8388608). apply Z.le_refl.
        + assert (HltZ : Zpos m < Zpos 8388608) by (apply Pos2Z.pos_lt_pos; exact Hc).
          change (2 ^ 23) with (Zpos 8388608). clear - HltZ. lia.
      - split; lia.
      - discriminate Hle. }
    destruct He as [He He23].
    assert (Hx : Zpos m <= 2 ^ (- e)).
    { destruct (Z.eq_dec e (-23)) as [-> | Hne]; [exact (He23 eq_refl) | ].
      apply Z.le_trans with (2 ^ 24); [lia | apply Z.pow_le_mono_r; lia]. }
    destruct (@binary_round_aux_below_one (xorb s false) (m * 16777199)%positive (e + -24))
      as [Hz | (m' & e' & Hf & He')].
    + lia.
    + rewrite Pos2Z.inj_mul. replace (- (e + -24) - 24) with (- e) by lia.
      change (Z.pos 16777199) with (2 ^ 24 - 17). nia.
    + change (binary_round_aux Float32.prec Float32.emax) with (binary_round_aux 24 128).
      rewrite Hz. reflexivity.
    + change (binary_round_aux Float32.prec Float32.emax) with (binary_round_aux 24 128).
      rewrite Hf. unfold SFltb, SFabs, SFcompare, Float32.one.
      destruct (Z.compare_spec e' (-23)); [lia | reflexivity | lia].
Qed.

End Binary32.



(** The clamp under rounding. Floating arithmetic returns the rounding of
    the exact result; [rnd] is any rounding that is monotone and leaves the
    values of its format unchanged, and the format has a value in
    [1 - 1e-6, 1), as binary32 and binary64 have. The constant is rounded
    when it is converted to the type of the tensor, and the product is
    rounded: the argument of [acos] is still strictly between -1 and 1. *)
Section Rounding.
Variable rnd : R -> R.
Variable format : R -> Prop.
Hypothesis rnd_monotone : forall x y : R, x <= y -> rnd x <= rnd y.
Hypothesis rnd_in_format : forall x : R, format (rnd x).
Hypothesis rnd_of_format : forall x : R, format x -> rnd x = x.
Hypothesis format_zero : format 0.
Hypothesis format_opp : forall x : R, format x -> format (- x).
Variable below_one : R.
Hypothesis below_one_in_format : format below_one.
Hypothesis below_one_range : 1 - 1e-6 <= below_one < 1.

Lemma clamp_survives_rounding : forall d : R,
  -1 <= d <= 1 -> -1 < rnd (d * rnd (1 - 1e-6)) < 1.
Proof.
  intros d Hd. set (c := rnd (1 - 1e-6)).
  assert (Hc1 : c <= below_one).
  { unfold c. rewrite <- (rnd_of_format below_one_in_format).
    apply rnd_monotone. lra. }
  assert (Hc0 : 0 <= c).
  { unfold c. rewrite <- (rnd_of_format format_zero). apply rnd_monotone. lra. }
  assert (Hup : rnd (d * c) <= c).
  { apply Rle_trans with (rnd c); [apply rnd_monotone; nra | ].
    right. apply rnd_of_format. apply rnd_in_format. }
  assert (Hlow : - c <= rnd (d * c)).
  { apply Rle_trans with (rnd (- c)); [ | apply rnd_monotone; nra].
    right. symmetry. apply rnd_of_format, format_opp, rnd_in_format. }
  lra.
Qed.

End Rounding.

(** Exact arithmetic is one such rounding. *)
Example clamp_survives_exact_rounding : forall d : R,
  -1 <= d <= 1 -> -1 < d * (1 - 1e-6) < 1.
Proof.
  intros d Hd.
  apply (@clamp_survives_rounding (fun x => x) (fun _ => True)
           ltac:(intros; assumption) ltac:(intros; exact I) ltac:(reflexivity)
           I ltac:(intros; exact I) (1 - 1e-6) I ltac:(lra) d Hd).
Qed.

(** * Further properties of the code *)

(** ** BatchedGraph.from_graphs and the batch it returns *)

(** X1: an empty list of graphs has no batch: [from_graphs] raises at its
    first concatenation, whatever the encoders and the flag, and no forward
    pass on an empty list returns a prediction. *)
Theorem no_batch_and_no_prediction_for_an_empty_list :
  forall (autograd : Autograd),
    (forall bbe abe cs, BatchedGraph.from_graphs [] bbe abe cs = Raise RuntimeError)
    /\ (forall self task raf rcf p, CHGNet.forward self [] task raf rcf <> Ok p).
Proof.
  intros autograd. split.
  - intros bbe abe cs. reflexivity.
  - intros self task raf rcf p H. apply forward_inv in H.
    destruct H as (g & _ & _ & Hg & _). discriminate Hg.
Qed.

Lemma In_le_list_max : forall (l : list nat) (x : nat), In x l -> (x <= list_max l)%nat.
Proof.
  intros l x Hin.
  assert (H : (list_max l <= list_max l)%nat) by lia.
  apply list_max_le in H. rewrite Forall_forall in H. exact (H x Hin).
Qed.

Lemma owners_bincount_full : forall (graphs : list Crystal_Graph.t),
  Forall (fun graph => Crystal_Graph.atomic_number graph <> []) graphs ->
  Tensor.bincount
    (concat (map (fun kg => repeat (fst kg)
                              (length (Crystal_Graph.atomic_number (snd kg))))
               (enumerate graphs)))
  = map (fun graph => length (Crystal_Graph.atomic_number graph)) graphs.
Proof.
  intros graphs Hne.
  assert (Hnth : forall k,
             nth k (Tensor.bincount
                      (concat (map (fun kg => repeat (fst kg)
                                      (length (Crystal_Graph.atomic_number (snd kg))))
                                 (enumerate graphs)))) 0%nat
             = nth k (map (fun graph => length (Crystal_Graph.atomic_number graph)) graphs)
                 0%nat).
  { intros k. rewrite bincount_nth. unfold enumerate.
    rewrite count_occ_owners, Nat.sub_0_r. cbn [Nat.leb].
    destruct (nth_error graphs k) as [graph | ] eqn:Ek.
    - symmetry. erewrite nth_error_nth; [reflexivity | ].
      rewrite nth_error_map, Ek. reflexivity.
    - symmetry. apply nth_overflow. rewrite length_map.
      apply nth_error_None. exact Ek. }
  apply nth_ext with (d := 0%nat) (d' := 0%nat); [ | intros k _; apply Hnth].
  rewrite length_map. apply Nat.le_antisymm; [apply owners_bincount_length | ].
  destruct graphs as [| g0 gs] eqn:Egs; [cbn; lia | ]. rewrite <- Egs in *.
  destruct (exists_last (l := graphs)) as [graphs0 [graph Hg]];
    [rewrite Egs; discriminate | ].
  assert (Hlast : Crystal_Graph.atomic_number graph <> []).
  { rewrite Forall_forall in Hne. apply Hne. rewrite Hg. apply in_or_app.
    right. left. reflexivity. }
  set (owners := concat _).
  assert (Hin : In (length graphs0) owners).
  { unfold owners. apply in_concat.
    exists (repeat (length graphs0) (length (Crystal_Graph.atomic_number graph))).
    split.
    - apply in_map_iff. exists (length graphs0, graph). split; [reflexivity | ].
      rewrite Hg, enumerate_snoc. apply in_or_app. right. left. reflexivity.
    - destruct (Crystal_Graph.atomic_number graph); [contradiction | ]. left. reflexivity. }
  unfold Tensor.bincount. destruct owners as [| a owners'] eqn:Eo; [contradiction | ].
  rewrite length_map, length_seq. apply In_le_list_max in Hin.
  rewrite Hg, length_app. cbn [length]. lia.
Qed.

(** X2: the key ["atoms_per_graph"] of a prediction counts the atoms of
    each structure of the list: entry [k] is the number of atoms of graph
    [k], there are never more entries than graphs, and as many when every
    structure has an atom. *)
Theorem atoms_per_graph_counts_the_atoms_of_each_structure :
  forall (autograd : Autograd) (self : CHGNet.t) (graphs : list Crystal_Graph.t)
         (task : string) (raf rcf : bool) (p : CHGNet.prediction),
    CHGNet.forward self graphs task raf rcf = Ok p ->
    (forall (k : nat) (graph : Crystal_Graph.t),
        nth_error graphs k = Some graph ->
        nth k (CHGNet.atoms_per_graph p) 0%nat
        = length (Crystal_Graph.atomic_number graph))
    /\ (length (CHGNet.atoms_per_graph p) <= length graphs)%nat
    /\ (Forall (fun graph => Crystal_Graph.atomic_number graph <> []) graphs ->
        CHGNet.atoms_per_graph p
        = map (fun graph => length (Crystal_Graph.atomic_number graph)) graphs).
Proof.
  intros autograd self graphs task raf rcf p H.
  apply forward_inv in H.
  destruct H as (g & p0 & comp & Hg & Hc & _ & _ & Hapg & _).
  apply compute_inv in Hc. destruct Hc as (st & crystal & energy & _ & Hapg0 & _).
  unfold BatchedGraph.from_graphs in Hg. apply from_graphs_at_inv in Hg.
  destruct Hg as (_ & _ & _ & _ & _ & _ & _ & _ & Hown).
  rewrite Hapg, Hapg0, Hown. split; [ | split].
  - intros k graph Hk. rewrite bincount_nth. unfold enumerate.
    rewrite count_occ_owners, Nat.sub_0_r, Hk. reflexivity.
  - apply owners_bincount_length.
  - apply owners_bincount_full.
Qed.

Lemma atoms_per_graph_counts_the_atoms_of_each_structure_witness :
  exists self p,
    @CHGNet.__init__ Example.basis Example.layers Example.params (Example.args_n_conv 2)
      = Ok self
    /\ @CHGNet.forward Example.autograd self [Example.dimer; Example.trimer] "e"
         false false = Ok p
    /\ CHGNet.atoms_per_graph p = [2; 3]%nat.
Proof.
  destruct (@CHGNet.__init__ Example.basis Example.layers Example.params
              (Example.args_n_conv 2)) as [self | err] eqn:E;
    [ | run_in E; discriminate E].
  destruct (@CHGNet.forward Example.autograd self [Example.dimer; Example.trimer] "e"
              false false) as [p | err] eqn:Ef.
  2: { run_in E. injection E as <-. run_in Ef. discriminate Ef. }
  exists self, p. split; [reflexivity | ]. split; [exact Ef | ].
  destruct (@atoms_per_graph_counts_the_atoms_of_each_structure Example.autograd self
              [Example.dimer; Example.trimer] "e" false false p Ef) as (_ & _ & Hall).
  rewrite Hall; [reflexivity | ].
  repeat constructor; discriminate.
Defined.

(** X3: the per-structure tensors of a batch come one per structure, in
    the order of the list. The strain [from_graphs] creates is zero, so the
    Cartesian positions and the volumes are those of the lattice as given,
    whether stress is asked for or not; the strains are absent without
    stress. *)
Theorem from_graphs_positions_volumes_and_strains :
  forall (graphs : list Crystal_Graph.t) (bbe : BondEncoder.t) (abe : AngleEncoder.t)
         (cs : bool) (g : BatchedGraph.t),
    BatchedGraph.from_graphs graphs bbe abe cs = Ok g ->
    BatchedGraph.atom_positions g
    = map (fun graph => Tensor.matmul_rows (Crystal_Graph.atom_frac_coord graph)
                          (Crystal_Graph.lattice graph)) graphs
    /\ BatchedGraph.volumes g
       = map (fun graph => Tensor.det (Crystal_Graph.lattice graph)) graphs
    /\ BatchedGraph.strains g
       = map (fun _ => if cs then Some Tensor.zeros3 else None) graphs
    /\ BatchedGraph.atomic_numbers g
       = concat (map Crystal_Graph.atomic_number graphs).
Proof.
  intros graphs bbe abe cs g H.
  unfold BatchedGraph.from_graphs in H. apply from_graphs_at_inv in H.
  destruct H as (_ & Hz & Hpos & Hstr & Hvol & _).
  rewrite Hpos, Hstr, Hvol, Hz. repeat split.
  - rewrite <- (map_enumerate_snd
                  (fun graph => Tensor.matmul_rows (Crystal_Graph.atom_frac_coord graph)
                                  (Crystal_Graph.lattice graph)) graphs).
    apply map_ext. intros [k graph]. cbn [fst snd].
    unfold positions_of. cbn [BatchedGraph.position_at BatchedGraph.initial_leaves].
    rewrite lattice_of_zero_strain by reflexivity. reflexivity.
  - rewrite <- (map_enumerate_snd
                  (fun graph => Tensor.det (Crystal_Graph.lattice graph)) graphs).
    apply map_ext. intros [k graph]. cbn [fst snd].
    rewrite lattice_of_zero_strain by reflexivity. reflexivity.
  - rewrite <- (map_enumerate_snd
                  (fun _ : Crystal_Graph.t => if cs then Some Tensor.zeros3 else None)
                  graphs).
    apply map_ext. intros [k graph]. reflexivity.
Qed.

Lemma from_graphs_positions_volumes_and_strains_witness :
  exists g,
    BatchedGraph.from_graphs [Example.dimer; Example.trimer]
      (@BondEncoder.__init__ Example.basis 5 3 1 6 false)
      (AngleEncoder.mk 1 (fun a => [a])) true = Ok g
    /\ BatchedGraph.volumes g
       = map (fun graph => Tensor.det (Crystal_Graph.lattice graph))
           [Example.dimer; Example.trimer]
    /\ BatchedGraph.strains g = [Some Tensor.zeros3; Some Tensor.zeros3].
Proof.
  destruct (BatchedGraph.from_graphs [Example.dimer; Example.trimer]
              (@BondEncoder.__init__ Example.basis 5 3 1 6 false)
              (AngleEncoder.mk 1 (fun a => [a])) true) as [g | err] eqn:E;
    [ | run_in E; discriminate E].
  exists g. split; [reflexivity | ].
  destruct (from_graphs_positions_volumes_and_strains _ _ _ _ E) as (_ & Hv & Hs & _).
  split; assumption.
Defined.

Lemma AngleEncoder_forward_length : forall self (bond_i bond_j : list Vec3) out,
  length bond_i = length bond_j ->
  AngleEncoder.forward self bond_i bond_j = Ok out ->
  length out = length bond_i.
Proof.
  intros self bond_i bond_j out Hlen H.
  unfold AngleEncoder.forward, AngleEncoder.cosine_ij in H.
  rewrite broadcast2_same_length in H by exact Hlen. cbn [bind] in H.
  injection H as <-. rewrite !length_map. apply map2_length. exact Hlen.
Qed.

Lemma step_rows : forall bbe abe cs lv st k graph st',
  BatchedGraph.step bbe abe cs lv st (k, graph) = Ok st' ->
  length (concat (BatchedGraph.l_bond_bases_ag st'))
  = (length (concat (BatchedGraph.l_bond_bases_ag st))
     + length (Crystal_Graph.undirected2directed graph))%nat
  /\ length (concat (BatchedGraph.l_bond_bases_bg st'))
     = (length (concat (BatchedGraph.l_bond_bases_bg st))
        + length (Crystal_Graph.undirected2directed graph))%nat
  /\ length (concat (BatchedGraph.l_angle_bases st'))
     = (length (concat (BatchedGraph.l_angle_bases st))
        + length (Crystal_Graph.bond_graph graph))%nat.
Proof.
  intros bbe abe cs lv st k graph st' H.
  unfold BatchedGraph.step in H.
  destruct cs; bind_inv H; injection H as <-;
    cbn [BatchedGraph.l_bond_bases_ag BatchedGraph.l_bond_bases_bg
         BatchedGraph.l_angle_bases].
  all: match goal with
       | E : BondEncoder.forward _ _ _ _ _ _ = Ok (?ag, ?bg, _) |- _ =>
           assert (Hag : length ag = length (Crystal_Graph.undirected2directed graph)
                         /\ length bg = length (Crystal_Graph.undirected2directed graph));
           [ unfold BondEncoder.forward in E; bind_inv E; injection E as <- <- _;
             rewrite !length_map; split; eapply index_select_length; eassumption | ]
       end.
  all: destruct Hag as [Hag Hbg].
  all: rewrite !concat_app, !length_app; cbn [concat]; rewrite !app_nil_r, Hag, Hbg.
  all: split; [reflexivity | split; [reflexivity | ]].
  all: destruct (Crystal_Graph.bond_graph graph) as [| r rest] eqn:Ebg;
    cbn [length Nat.eqb negb] in E2;
    [ injection E2 as <- _; cbn [length]; lia | ].
  all: bind_inv E2; injection E2 as <- _.
  all: rewrite concat_app, length_app; cbn [concat]; rewrite app_nil_r.
  all: f_equal.
  all: match goal with
       | Ea : AngleEncoder.forward _ ?bi ?bj = Ok _,
         Ei : Tensor.index_select _ _ = Ok ?bi,
         Ej : Tensor.index_select _ _ = Ok ?bj |- _ =>
           apply index_select_length in Ei, Ej; rewrite length_map in Ei, Ej;
           rewrite (@AngleEncoder_forward_length _ bi bj _ ltac:(congruence) Ea), Ei;
           reflexivity
       end.
Qed.

Lemma fold_step_rows : forall bbe abe cs lv gs i st st',
  foldM (BatchedGraph.step bbe abe cs lv) (combine (seq i (length gs)) gs) st = Ok st' ->
  length (concat (BatchedGraph.l_bond_bases_ag st'))
  = (length (concat (BatchedGraph.l_bond_bases_ag st))
     + list_sum (map (fun graph => length (Crystal_Graph.undirected2directed graph)) gs))%nat
  /\ length (concat (BatchedGraph.l_bond_bases_bg st'))
     = (length (concat (BatchedGraph.l_bond_bases_bg st))
        + list_sum (map (fun graph => length (Crystal_Graph.undirected2directed graph))
                      gs))%nat
  /\ length (concat (BatchedGraph.l_angle_bases st'))
     = (length (concat (BatchedGraph.l_angle_bases st))
        + list_sum (map (fun graph => length (Crystal_Graph.bond_graph graph)) gs))%nat.
Proof.
  induction gs as [| graph gs IH]; intros i st st' H; cbn [length seq combine foldM] in H.
  - injection H as <-. cbn [map]. unfold list_sum. cbn [fold_right]. lia.
  - bind_inv H. apply step_rows in E. apply IH in H.
    unfold list_sum in *. cbn [map fold_right]. lia.
Qed.

Lemma list_sum_zero : forall (l : list nat),
  list_sum l = 0%nat <-> Forall (fun n => n = 0%nat) l.
Proof.
  induction l as [| n l IH].
  - split; [constructor | reflexivity].
  - change (list_sum (n :: l)) with (n + list_sum l)%nat. split.
    + intros H. constructor; [lia | apply IH; lia].
    + intros H. inversion H; subst. apply IH in H3. lia.
Qed.

(** X4: a batch has one row of each bond basis per undirected bond of the
    list, and one angle basis row per row of its bond graph, which is one
    per angle of the list. The angle tensors of the batch are empty exactly
    when no structure has an angle. *)
Theorem from_graphs_one_basis_row_per_bond_and_per_angle :
  forall (graphs : list Crystal_Graph.t) (bbe : BondEncoder.t) (abe : AngleEncoder.t)
         (cs : bool) (g : BatchedGraph.t),
    BatchedGraph.from_graphs graphs bbe abe cs = Ok g ->
    let bonds :=
      list_sum (map (fun graph => length (Crystal_Graph.undirected2directed graph))
                  graphs) in
    let angles :=
      list_sum (map (fun graph => length (Crystal_Graph.bond_graph graph)) graphs) in
    length (BatchedGraph.bond_bases_ag g) = bonds
    /\ length (BatchedGraph.bond_bases_bg g) = bonds
    /\ length (BatchedGraph.angle_bases g) = angles
    /\ length (BatchedGraph.batched_bond_graph g) = angles
    /\ (BatchedGraph.angle_bases g = []
        <-> Forall (fun graph => Crystal_Graph.bond_graph graph = []) graphs).
Proof.
  intros graphs bbe abe cs g H bonds angles.
  pose proof H as Hinv. unfold BatchedGraph.from_graphs in Hinv.
  apply from_graphs_at_inv in Hinv.
  destruct Hinv as (_ & _ & _ & _ & _ & _ & Hbg & _).
  unfold BatchedGraph.from_graphs, BatchedGraph.from_graphs_at in H.
  bind_inv H. rename a into st. unfold enumerate in E.
  apply fold_step_rows in E. cbn [BatchedGraph.initial_state
    BatchedGraph.l_bond_bases_ag BatchedGraph.l_bond_bases_bg
    BatchedGraph.l_angle_bases concat length Nat.add] in E.
  destruct E as (Lag & Lbg & Lan).
  unfold BatchedGraph.make_tensors in H. bind_inv H. injection H as <-.
  cbn [BatchedGraph.bond_bases_ag BatchedGraph.bond_bases_bg BatchedGraph.angle_bases
       BatchedGraph.batched_bond_graph] in *.
  apply cat_Ok_inv in E0, E1. destruct E0 as [_ ->], E1 as [_ ->].
  assert (Ha : a2 = concat (BatchedGraph.l_angle_bases st)).
  { destruct (BatchedGraph.l_angle_bases st) as [| ab abs] eqn:Eab;
      cbn [length Nat.eqb negb] in E2.
    - injection E2 as <-. reflexivity.
    - apply cat_Ok_inv in E2. apply E2. }
  assert (Hlen : length a4 = angles).
  { rewrite Hbg. unfold angles. clear. unfold enumerate. generalize 0%nat.
    generalize graphs at 1 2 as all.
    induction graphs as [| graph gs IH]; intros all s; cbn [length seq combine map concat list_sum];
      [reflexivity | ].
    rewrite length_app, IH.
    change (list_sum (?x :: ?l)) with (x + list_sum l)%nat.
    unfold BatchedGraph.offset_bond_graph. rewrite length_map. reflexivity. }
  subst a2. repeat split; try assumption.
  - intros Hnil. rewrite Hnil in Lan. cbn [length] in Lan. symmetry in Lan.
    apply list_sum_zero in Lan. rewrite Forall_map in Lan.
    eapply Forall_impl; [ | exact Lan]. cbv beta. intros graph Hl.
    apply length_zero_iff_nil. exact Hl.
  - intros Hall. apply length_zero_iff_nil. rewrite Lan. apply list_sum_zero.
    rewrite Forall_map. eapply Forall_impl; [ | exact Hall]. cbv beta.
    intros graph ->. reflexivity.
Qed.

Lemma from_graphs_one_basis_row_per_bond_and_per_angle_witness :
  exists g,
    BatchedGraph.from_graphs [Example.dimer; Example.trimer]
      (@BondEncoder.__init__ Example.basis 5 3 1 6 false)
      (AngleEncoder.mk 1 (fun a => [a])) false = Ok g
    /\ length (BatchedGraph.bond_bases_ag g) = 3%nat
    /\ length (BatchedGraph.angle_bases g) = 1%nat.
Proof.
  destruct (BatchedGraph.from_graphs [Example.dimer; Example.trimer]
              (@BondEncoder.__init__ Example.basis 5 3 1 6 false)
              (AngleEncoder.mk 1 (fun a => [a])) false) as [g | err] eqn:E;
    [ | run_in E; discriminate E].
  exists g. split; [reflexivity | ].
  destruct (from_graphs_one_basis_row_per_bond_and_per_angle _ _ _ _ E)
    as (Hb & _ & Ha & _).
  split; assumption.
Defined.

Lemma nth_error_enumerate_eq : forall (A : Type) (l : list A) (k : nat),
  nth_error (enumerate l) k = option_map (pair k) (nth_error l k).
Proof.
  intros A l k. unfold enumerate.
  assert (H : forall s, nth_error (combine (seq s (length l)) l) k
                        = option_map (pair (s + k)%nat) (nth_error l k)).
  { revert k. induction l as [| a l IH]; intros k s; cbn [length seq combine].
    - destruct k; reflexivity.
    - destruct k as [| k]; cbn [nth_error option_map].
      + rewrite Nat.add_0_r. reflexivity.
      + rewrite IH. replace (S s + k)%nat with (s + S k)%nat by lia. reflexivity. }
  apply (H 0%nat).
Qed.

Lemma foldM_Ok_each : forall (A S : Type) (f : S -> A -> result S) (l : list A) (s s' : S),
  foldM f l s = Ok s' ->
  forall a, In a l -> exists s1 s2, f s1 a = Ok s2.
Proof.
  induction l as [| x l IH]; intros s s' H a Hin; cbn [foldM] in H; [contradiction | ].
  destruct (f s x) as [s1 | err] eqn:E; cbn [bind] in H; [ | discriminate H].
  destruct Hin as [<- | Hin].
  - exists s, s1. exact E.
  - exact (IH _ _ H a Hin).
Qed.

Lemma getitem_in_range : forall (A : Type) (input : list A) (index : list Z) out,
  Tensor.getitem input index = Ok out ->
  Forall (fun i => (- Tensor.len input <= i < Tensor.len input)%Z) index.
Proof.
  intros A input. induction index as [| i index IH]; intros out H.
  - constructor.
  - unfold Tensor.getitem in H. cbn [mapM] in H. cbv zeta in H. bind_inv H.
    constructor; [ | eapply IH; exact E0].
    destruct (_ && _)%bool eqn:Hi; [ | discriminate E].
    apply andb_true_iff in Hi. destruct Hi as [H0 H1].
    apply Z.leb_le in H0. apply Z.ltb_lt in H1.
    pose proof (len_nonneg input).
    destruct (i <? 0)%Z eqn:Hneg;
      [apply Z.ltb_lt in Hneg | apply Z.ltb_ge in Hneg]; lia.
Qed.

(** X5: the bounds of the atom indices. [from_graphs] returns a batch
    only if both atom indices of every bond of every graph lie in
    [-n, n), for [n] the number of coordinate rows of the graph: with an
    index of [n] or more, or one below [-n], it raises. The indices from
    [-n] to -1 are inside the range, they count from the last atom. *)
Theorem from_graphs_returns_only_for_atom_indices_in_range :
  forall (graphs : list Crystal_Graph.t) (bbe : BondEncoder.t) (abe : AngleEncoder.t)
         (cs : bool) (g : BatchedGraph.t),
    BatchedGraph.from_graphs graphs bbe abe cs = Ok g ->
    Forall (fun graph =>
              let n := Tensor.len (Crystal_Graph.atom_frac_coord graph) in
              Forall (fun b => (- n <= fst b < n)%Z /\ (- n <= snd b < n)%Z)
                     (Crystal_Graph.atom_graph graph))
           graphs.
Proof.
  intros graphs bbe abe cs g H.
  unfold BatchedGraph.from_graphs, BatchedGraph.from_graphs_at in H. bind_inv H.
  apply Forall_forall. intros graph Hin. cbv zeta.
  destruct (In_nth_error _ _ Hin) as [k Hk].
  assert (Hitem : In (k, graph) (enumerate graphs)).
  { eapply nth_error_In. rewrite nth_error_enumerate_eq, Hk. reflexivity. }
  destruct (foldM_Ok_each _ _ _ E _ Hitem) as (s1 & s2 & Hstep).
  unfold BatchedGraph.step in Hstep.
  cbn [BatchedGraph.position_at BatchedGraph.initial_leaves] in Hstep.
  assert (Hlen : forall lat,
             Tensor.len (Tensor.matmul_rows (Crystal_Graph.atom_frac_coord graph) lat)
             = Tensor.len (Crystal_Graph.atom_frac_coord graph)).
  { intros lat. unfold Tensor.len, Tensor.matmul_rows. rewrite length_map. reflexivity. }
  destruct cs; bind_inv Hstep; apply getitem_in_range in E0, E1;
    rewrite Hlen in E0, E1; rewrite Forall_map in E0, E1;
    rewrite Forall_forall in E0, E1 |- *; intros b Hb; split; auto.
Qed.

Lemma from_graphs_returns_only_for_atom_indices_in_range_witness :
  exists g,
    BatchedGraph.from_graphs [Example.dimer; Example.trimer]
      (@BondEncoder.__init__ Example.basis 5 3 1 6 false)
      (AngleEncoder.mk 1 (fun a => [a])) false = Ok g
    /\ Forall (fun graph =>
                 let n := Tensor.len (Crystal_Graph.atom_frac_coord graph) in
                 Forall (fun b => (- n <= fst b < n)%Z /\ (- n <= snd b < n)%Z)
                        (Crystal_Graph.atom_graph graph))
              [Example.dimer; Example.trimer].
Proof.
  destruct (BatchedGraph.from_graphs [Example.dimer; Example.trimer]
              (@BondEncoder.__init__ Example.basis 5 3 1 6 false)
              (AngleEncoder.mk 1 (fun a => [a])) false) as [g | err] eqn:E;
    [ | run_in E; discriminate E].
  exists g. split; [reflexivity | ].
  exact (from_graphs_returns_only_for_atom_indices_in_range _ _ _ _ E).
Defined.

(** ** CHGNet.forward and CHGNet._compute: what a prediction holds *)

Section MessagePassing.
Context {basis : Basis} {layers : Layers} {params : Parameters} {autograd : Autograd}.

Lemma mp_step_side_outputs : forall self g apg bwa bwb sw raf st item st',
  CHGNet.mp_step self g apg bwa bwb sw raf st item = Ok st' ->
  (sw = false -> CHGNet.mp_m st' = CHGNet.mp_m st)
  /\ (raf = false -> CHGNet.mp_atom_fea st' = CHGNet.mp_atom_fea st).
Proof.
  intros self g apg bwa bwb sw raf st [idx [[atom_layer bond_layer] angle_layer]] st' H.
  unfold CHGNet.mp_step in H. bind_inv H.
  destruct (Z.of_nat idx =? CHGNet.n_conv self - 2)%Z.
  - bind_inv H. injection H as <-. cbn [CHGNet.mp_m CHGNet.mp_atom_fea].
    split; intros ->; [injection E2 as <- | injection E1 as <-]; reflexivity.
  - injection H as <-. split; reflexivity.
Qed.

Lemma fold_mp_step_side_outputs : forall self g apg bwa bwb sw raf items st st',
  foldM (CHGNet.mp_step self g apg bwa bwb sw raf) items st = Ok st' ->
  (sw = false -> CHGNet.mp_m st' = CHGNet.mp_m st)
  /\ (raf = false -> CHGNet.mp_atom_fea st' = CHGNet.mp_atom_fea st).
Proof.
  induction items as [| item items IH]; intros st st' H; cbn [foldM] in H.
  - injection H as <-. split; reflexivity.
  - bind_inv H. apply mp_step_side_outputs in E. apply IH in H.
    destruct E as [E1 E2], H as [H1 H2].
    split; intros Hf; [rewrite H1, E1 | rewrite H2, E2]; auto.
Qed.

(** The crystal features and the last layer behind a readout that
    returns. *)
Lemma readout_crystal : forall self g sw raf rcf st crystal energy,
  CHGNet.readout self g sw raf rcf = Ok (st, crystal, energy) ->
  (exists layer, CHGNet.last_item (CHGNet.atom_conv_layers self) = Ok layer)
  /\ (if CHGNet.mlp_first self then crystal = None
      else exists crystal_feas,
          crystal = if rcf then Some crystal_feas else None).
Proof.
  intros self g sw raf rcf st crystal energy H. unfold CHGNet.readout in H.
  cbv zeta in H.
  destruct (AtomEmbedding.forward _ _) as [atom_feas | err]; cbn [bind] in H;
    [ | discriminate H].
  destruct (foldM _ _ _) as [st0 | err]; cbn [bind] in H; [ | discriminate H].
  destruct (CHGNet.last_item (CHGNet.atom_conv_layers self)) as [layer | err];
    cbn [bind] in H; [ | discriminate H].
  split; [exists layer; reflexivity | ].
  destruct (CHGNet.mlp_first self); bind_inv H; injection H as _ <- _;
    [reflexivity | eexists; reflexivity].
Qed.

End MessagePassing.

(** X6: a prediction holds forces exactly when the task has an ["f"],
    stress exactly when it has an ["s"]; it holds no magnetic moments
    without ["m"], no atom features unless they were asked for, and crystal
    features exactly when they were asked for and the model pools before
    its final network ([mlp_first] unset). *)
Theorem prediction_holds_the_keys_asked_for :
  forall (autograd : Autograd) (self : CHGNet.t) (graphs : list Crystal_Graph.t)
         (task : string) (raf rcf : bool) (p : CHGNet.prediction),
    CHGNet.forward self graphs task raf rcf = Ok p ->
    (CHGNet.f p = None <-> CHGNet.contains "f" task = false)
    /\ (CHGNet.s p = None <-> CHGNet.contains "s" task = false)
    /\ (CHGNet.contains "m" task = false -> CHGNet.m p = None)
    /\ (raf = false -> CHGNet.atom_fea p = None)
    /\ (CHGNet.crystal_fea p = None <-> rcf = false \/ CHGNet.mlp_first self = true).
Proof.
  intros autograd self graphs task raf rcf p H.
  apply forward_inv in H.
  destruct H as (g & p0 & comp & _ & Hc & _ & _ & _ & Hfea & Hm & Hcf & Hf & Hs).
  apply compute_inv in Hc.
  destruct Hc as (st & crystal & energy & Hr & _ & Hfea0 & Hm0 & Hcf0 & Hf0 & Hs0 & _).
  pose proof (readout_crystal _ _ _ _ _ Hr) as [_ Hcr].
  apply readout_state in Hr. destruct Hr as [atom_feas Hr].
  apply fold_mp_step_side_outputs in Hr. cbn [CHGNet.mp_m CHGNet.mp_atom_fea] in Hr.
  destruct Hr as [Hsw Hraf].
  rewrite Hf, Hs, Hm, Hfea, Hcf, Hm0, Hfea0, Hcf0. repeat split.
  - destruct (CHGNet.contains "f" task); [ | reflexivity].
    destruct Hf0 as (grads & _ & ->). discriminate.
  - intros Hn. rewrite Hn in Hf0. exact Hf0.
  - destruct (CHGNet.contains "s" task); [ | reflexivity].
    destruct Hs0 as (strains & grads & _ & _ & ->). discriminate.
  - intros Hn. rewrite Hn in Hs0. exact Hs0.
  - exact Hsw.
  - exact Hraf.
  - intros Hn. destruct (CHGNet.mlp_first self); [right; reflexivity | left].
    destruct Hcr as [c ->]. destruct rcf; [discriminate Hn | reflexivity].
  - intros [-> | Hmf].
    + destruct (CHGNet.mlp_first self); [exact Hcr | ]. destruct Hcr as [c ->]. reflexivity.
    + rewrite Hmf in Hcr. exact Hcr.
Qed.

Lemma prediction_holds_the_keys_asked_for_witness :
  exists self p,
    @CHGNet.__init__ Example.basis Example.layers Example.params (Example.args_n_conv 2)
      = Ok self
    /\ @CHGNet.forward Example.autograd self [Example.dimer; Example.trimer] "ef"
         false true = Ok p
    /\ (CHGNet.f p = None <-> CHGNet.contains "f" "ef" = false)
    /\ (CHGNet.s p = None <-> CHGNet.contains "s" "ef" = false)
    /\ (CHGNet.crystal_fea p = None <-> true = false \/ CHGNet.mlp_first self = true).
Proof.
  destruct (@CHGNet.__init__ Example.basis Example.layers Example.params
              (Example.args_n_conv 2)) as [self | err] eqn:E;
    [ | run_in E; discriminate E].
  destruct (@CHGNet.forward Example.autograd self [Example.dimer; Example.trimer] "ef"
              false true) as [p | err] eqn:Ef.
  2: { run_in E. injection E as <-. run_in Ef. discriminate Ef. }
  exists self, p. split; [reflexivity | ]. split; [exact Ef | ].
  destruct (@prediction_holds_the_keys_asked_for Example.autograd self
              [Example.dimer; Example.trimer] "ef" false true p Ef)
    as (Hf & Hs & _ & _ & Hc).
  repeat split; try apply Hf; try apply Hs; try apply Hc.
Defined.

(** X7: a model built with no convolution block ([n_conv] zero or
    negative) is constructed without complaint, and no forward pass of it
    returns: the last atom convolution, [atom_conv_layers[-1]], does not
    exist. *)
Theorem model_without_convolution_never_predicts :
  forall (basis : Basis) (layers : Layers) (params : Parameters) (autograd : Autograd)
         (args : ModelArgs.t) (self : CHGNet.t),
    CHGNet.__init__ args = Ok self ->
    (ModelArgs.n_conv args <= 0)%Z ->
    forall graphs task raf rcf p, CHGNet.forward self graphs task raf rcf <> Ok p.
Proof.
  intros basis layers params autograd args self Hinit Hn graphs task raf rcf p H.
  apply forward_inv in H. destruct H as (g & p0 & comp & _ & Hc & _).
  apply compute_inv in Hc. destruct Hc as (st & crystal & energy & Hr & _).
  apply readout_crystal in Hr. destruct Hr as [[layer Hl] _].
  destruct (init_inv _ Hinit) as (_ & _ & _ & _ & Hacl & _).
  rewrite Hacl in Hl. unfold CHGNet.range in Hl.
  replace (Z.to_nat (ModelArgs.n_conv args)) with 0%nat in Hl by lia.
  discriminate Hl.
Qed.

Lemma model_without_convolution_never_predicts_witness :
  exists self,
    @CHGNet.__init__ Example.basis Example.layers Example.params (Example.args_n_conv 0)
      = Ok self
    /\ forall graphs task raf rcf p,
         @CHGNet.forward Example.autograd self graphs task raf rcf <> Ok p.
Proof.
  destruct (@CHGNet.__init__ Example.basis Example.layers Example.params
              (Example.args_n_conv 0)) as [self | err] eqn:E;
    [ | run_in E; discriminate E].
  exists self. split; [reflexivity | ].
  apply (@model_without_convolution_never_predicts Example.basis Example.layers
           Example.params Example.autograd (Example.args_n_conv 0) self E).
  cbn. lia.
Defined.

Section AtomFeatures.
Context {basis : Basis} {layers : Layers} {params : Parameters} {autograd : Autograd}.

(** The atom features the loop stores at index [n_conv - 2]. *)
Lemma mp_step_atom_fea :
  forall self g apg bwa bwb sw st idx item st',
    CHGNet.mp_step self g apg bwa bwb sw true st (idx, item) = Ok st' ->
    Z.of_nat idx = (CHGNet.n_conv self - 2)%Z ->
    exists parts,
      CHGNet.mp_atom_fea st' = Some parts
      /\ Tensor.split_with_sizes (CHGNet.mp_atom_feas st') apg = Ok parts.
Proof.
  intros self g apg bwa bwb sw st idx [[atom_layer bond_layer] angle_layer] st' H Hidx.
  unfold CHGNet.mp_step in H. rewrite Hidx, Z.eqb_refl in H.
  bind_inv H. injection H as <-. cbn [CHGNet.mp_atom_fea CHGNet.mp_atom_feas].
  bind_inv E1. injection E1 as <-.
  eexists. split; reflexivity.
Qed.

Lemma message_passing_length : forall args self,
  CHGNet.__init__ args = Ok self ->
  length (CHGNet.zip3 (removelast (CHGNet.atom_conv_layers self))
            (CHGNet.bond_conv_layers self) (CHGNet.angle_layers self))
  = Z.to_nat (ModelArgs.n_conv args - 1).
Proof.
  intros args self Hinit.
  destruct (init_inv _ Hinit) as (Hnc & _ & _ & _ & Hacl & Hbcl & Hanl & _).
  assert (Hrl : length (removelast (CHGNet.atom_conv_layers self))
                = Z.to_nat (ModelArgs.n_conv args - 1)).
  { rewrite Hacl. unfold CHGNet.range.
    destruct (Z.to_nat (ModelArgs.n_conv args)) as [| n] eqn:En.
    - cbn. lia.
    - rewrite seq_S, map_app. cbn [map].
      rewrite removelast_last, length_map, length_seq. lia. }
  rewrite zip3_length; congruence.
Qed.

Lemma readout_atom_fea :
  forall args self g sw rcf st crystal energy,
    CHGNet.__init__ args = Ok self ->
    (2 <= ModelArgs.n_conv args)%Z ->
    CHGNet.readout self g sw true rcf = Ok (st, crystal, energy) ->
    exists atom_feas parts,
      CHGNet.mp_atom_fea st = Some parts
      /\ Tensor.split_with_sizes atom_feas
           (Tensor.bincount (BatchedGraph.atom_owners g)) = Ok parts.
Proof.
  intros args self g sw rcf st crystal energy Hinit Hn H.
  pose proof (message_passing_length _ Hinit) as Hlen.
  destruct (init_inv _ Hinit) as (Hnc & _).
  apply readout_state in H. destruct H as [atom_feas0 H].
  set (items := CHGNet.zip3 _ _ _) in *.
  destruct (exists_last (l := items)) as [items0 [item Hitems]].
  { intros Hnil. rewrite Hnil in Hlen. cbn in Hlen. lia. }
  rewrite Hitems, enumerate_snoc, foldM_app in H.
  destruct (foldM _ (enumerate items0) _) as [st1 | err]; cbn [bind foldM] in H;
    [ | discriminate H].
  destruct (CHGNet.mp_step _ _ _ _ _ _ _ st1 _) as [st2 | err] eqn:Estep;
    cbn [bind] in H; [ | discriminate H].
  injection H as <-.
  eapply mp_step_atom_fea in Estep.
  - destruct Estep as (parts & Hp & Hs). exists (CHGNet.mp_atom_feas st2), parts.
    split; assumption.
  - rewrite Hitems, length_app in Hlen. cbn [length] in Hlen. rewrite Hnc. lia.
Qed.

End AtomFeatures.

(** X8: the atom features of a prediction. With fewer than two convolution
    blocks the loop of [_compute] has no iteration and the key is absent,
    asked for or not. With two or more, a forward pass that was asked for
    them returns one matrix per entry of ["atoms_per_graph"], with one row
    per atom of the structure. *)
Theorem atom_features_one_row_per_atom :
  forall (basis : Basis) (layers : Layers) (params : Parameters) (autograd : Autograd)
         (args : ModelArgs.t) (self : CHGNet.t) (graphs : list Crystal_Graph.t)
         (task : string) (raf rcf : bool) (p : CHGNet.prediction),
    CHGNet.__init__ args = Ok self ->
    CHGNet.forward self graphs task raf rcf = Ok p ->
    ((ModelArgs.n_conv args <= 1)%Z -> CHGNet.atom_fea p = None)
    /\ ((2 <= ModelArgs.n_conv args)%Z -> raf = true ->
        exists parts : list Mat,
          CHGNet.atom_fea p = Some parts
          /\ map (@length Vec) parts = CHGNet.atoms_per_graph p
          /\ forall (k : nat) (graph : Crystal_Graph.t),
               nth_error graphs k = Some graph ->
               length (nth k parts []) = length (Crystal_Graph.atomic_number graph)).
Proof.
  intros basis layers params autograd args self graphs task raf rcf p Hinit H.
  apply forward_inv in H.
  destruct H as (g & p0 & comp & Hg & Hc & _ & _ & Hapg & Hfea & _).
  apply compute_inv in Hc.
  destruct Hc as (st & crystal & energy & Hr & Hapg0 & Hfea0 & _).
  split.
  - intros Hn. apply readout_state in Hr. destruct Hr as [atom_feas Hr].
    pose proof (message_passing_length _ Hinit) as Hlen.
    destruct (CHGNet.zip3 _ _ _) as [| item items]; [ | cbn in Hlen; lia].
    cbn in Hr. injection Hr as <-. rewrite Hfea, Hfea0. reflexivity.
  - intros Hn ->.
    edestruct readout_atom_fea as (atom_feas & parts & Hparts & Hsplit);
      [exact Hinit | exact Hn | exact Hr | ].
    apply split_with_sizes_inv in Hsplit. destruct Hsplit as [_ Hlens].
    unfold BatchedGraph.from_graphs in Hg. apply from_graphs_at_inv in Hg.
    destruct Hg as (_ & _ & _ & _ & _ & _ & _ & _ & Hown).
    exists parts. split; [congruence | ]. split; [congruence | ].
    intros k graph Hk.
    transitivity (nth k (map (@length Vec) parts) 0%nat);
      [symmetry; apply (map_nth (@length Vec) parts [] k) | ].
    rewrite Hlens, bincount_nth, Hown. unfold enumerate.
    rewrite count_occ_owners, Nat.sub_0_r, Hk. reflexivity.
Qed.

Lemma atom_features_one_row_per_atom_witness :
  exists self p parts,
    @CHGNet.__init__ Example.basis Example.layers Example.params (Example.args_n_conv 2)
      = Ok self
    /\ @CHGNet.forward Example.autograd self [Example.dimer; Example.trimer] "e"
         true false = Ok p
    /\ CHGNet.atom_fea p = Some parts
    /\ map (@length Vec) parts = CHGNet.atoms_per_graph p.
Proof.
  destruct (@CHGNet.__init__ Example.basis Example.layers Example.params
              (Example.args_n_conv 2)) as [self | err] eqn:E;
    [ | run_in E; discriminate E].
  destruct (@CHGNet.forward Example.autograd self [Example.dimer; Example.trimer] "e"
              true false) as [p | err] eqn:Ef.
  2: { run_in E. injection E as <-. run_in Ef. discriminate Ef. }
  destruct (@atom_features_one_row_per_atom Example.basis Example.layers Example.params
              Example.autograd (Example.args_n_conv 2) self
              [Example.dimer; Example.trimer] "e" true false p E Ef) as [_ H].
  destruct H as (parts & Hp & Hl & _); [cbn; lia | reflexivity | ].
  exists self, p, parts. repeat split; assumption.
Defined.

Section FrozenFeatures.
Context {basis : Basis} {layers : Layers} {params : Parameters} {autograd : Autograd}.

Lemma mp_step_frozen :
  forall self g apg bwa bwb sw raf st idx atom_layer bond_layer angle_layer st',
    CHGNet.mp_step self g apg bwa bwb sw raf st
      (idx, (atom_layer, bond_layer, angle_layer)) = Ok st' ->
    (bond_layer = None \/ BatchedGraph.angle_bases g = [] ->
     CHGNet.mp_bond_feas st' = CHGNet.mp_bond_feas st
     /\ CHGNet.mp_angle_feas st' = CHGNet.mp_angle_feas st)
    /\ (angle_layer = None -> CHGNet.mp_angle_feas st' = CHGNet.mp_angle_feas st).
Proof.
  intros self g apg bwa bwb sw raf st idx atom_layer bond_layer angle_layer st' H.
  unfold CHGNet.mp_step in H. bind_inv H.
  assert (Hst : CHGNet.mp_bond_feas st' = m /\ CHGNet.mp_angle_feas st' = m0).
  { destruct (Z.of_nat idx =? CHGNet.n_conv self - 2)%Z.
    - bind_inv H. injection H as <-. split; reflexivity.
    - injection H as <-. split; reflexivity. }
  destruct Hst as [-> ->]. clear H. split.
  - intros [-> | Hnil].
    + destruct (negb _); injection E0 as <- <-; split; reflexivity.
    + rewrite Hnil in E0. cbn [length Nat.eqb negb] in E0.
      injection E0 as <- <-; split; reflexivity.
  - intros ->. destruct (negb _); [destruct bond_layer as [bond_layer | ] | ].
    + bind_inv E0. injection E0 as _ <-. reflexivity.
    + injection E0 as _ <-. reflexivity.
    + injection E0 as _ <-. reflexivity.
Qed.

Lemma fold_mp_step_frozen :
  forall self g apg bwa bwb sw raf
         (items : list (nat * (atom_conv * option bond_conv * option angle_update)))
         st st',
    foldM (CHGNet.mp_step self g apg bwa bwb sw raf) items st = Ok st' ->
    (Forall (fun item => snd (fst (snd item)) = None) items
     \/ BatchedGraph.angle_bases g = [] ->
     CHGNet.mp_bond_feas st' = CHGNet.mp_bond_feas st
     /\ CHGNet.mp_angle_feas st' = CHGNet.mp_angle_feas st)
    /\ (Forall (fun item => snd (snd item) = None) items ->
        CHGNet.mp_angle_feas st' = CHGNet.mp_angle_feas st).
Proof.
  induction items as [| [idx [[al bl] anl]] items IH]; intros st st' H; cbn [foldM] in H.
  - injection H as <-. repeat split.
  - bind_inv H. apply mp_step_frozen in E. apply IH in H.
    destruct E as [E1 E2], H as [H1 H2]. split.
    + intros Hc.
      assert (Hhd : bl = None \/ BatchedGraph.angle_bases g = []).
      { destruct Hc as [Hall | Hnil]; [left | right; exact Hnil].
        inversion Hall; subst. assumption. }
      assert (Htl : Forall (fun item => snd (fst (snd item)) = None) items
                    \/ BatchedGraph.angle_bases g = []).
      { destruct Hc as [Hall | Hnil]; [left | right; exact Hnil].
        inversion Hall; subst. assumption. }
      destruct (E1 Hhd) as [Eb Ea], (H1 Htl) as [Hb Ha].
      split; congruence.
    + intros Hall. inversion Hall; subst. cbn [snd] in *.
      rewrite (H2 ltac:(assumption)). apply E2. assumption.
Qed.

Lemma In_zip3 : forall (A B C : Type) (a : list A) (b : list B) (c : list C) x y z,
  In (x, y, z) (CHGNet.zip3 a b c) -> In x a /\ In y b /\ In z c.
Proof.
  induction a as [| x0 a IH]; intros [| y0 b] [| z0 c] x y z H; cbn in H;
    try contradiction.
  destruct H as [H | H].
  - injection H as <- <- <-. repeat split; left; reflexivity.
  - apply IH in H. destruct H as (Ha & Hb & Hc). repeat split; right; assumption.
Qed.

Lemma init_layers : forall (args : ModelArgs.t) (self : CHGNet.t),
  CHGNet.__init__ args = Ok self ->
  (ModelArgs.update_bond args = false ->
   Forall (fun layer => layer = None) (CHGNet.bond_conv_layers self))
  /\ (ModelArgs.update_angle args = false ->
      Forall (fun layer => layer = None) (CHGNet.angle_layers self)).
Proof.
  intros args self H. unfold CHGNet.__init__ in H.
  destruct (ModelArgs.mlp_first args);
    [ | destruct (existsb (String.eqb (ModelArgs.read_out args)) ["attn"; "weighted"]%string) ];
    cbv beta iota zeta in H; bind_inv H; injection H as <-;
    cbn [CHGNet.bond_conv_layers CHGNet.angle_layers].
  all: split; intros ->; apply Forall_forall; intros layer Hin;
    apply in_map_iff in Hin; destruct Hin as [i [<- _]]; reflexivity.
Qed.

End FrozenFeatures.

(** X9: which features the message passing updates. Bond and angle
    features change only in the bond convolution branch, which runs when
    the batch has an angle and the model has bond layers: for a model built
    with [update_bond] unset, or on a batch without angle, the bond and
    angle features that reach the last convolution are the embeddings
    themselves, whatever [update_angle] says. With [update_angle] unset the
    angle features are never updated. *)
Theorem bond_and_angle_features_change_only_through_bond_layers :
  forall (basis : Basis) (layers : Layers) (params : Parameters)
         (args : ModelArgs.t) (self : CHGNet.t) (g : BatchedGraph.t)
         (sw raf rcf : bool) (st : CHGNet.mp_state) (crystal : option Mat)
         (energy : Vec),
    CHGNet.__init__ args = Ok self ->
    CHGNet.readout self g sw raf rcf = Ok (st, crystal, energy) ->
    let angle_feas :=
      if negb (length (BatchedGraph.angle_bases g) =? 0)%nat
      then Linear.forward (CHGNet.angle_embedding self) (BatchedGraph.angle_bases g)
      else [] in
    (ModelArgs.update_bond args = false \/ BatchedGraph.angle_bases g = [] ->
     CHGNet.mp_bond_feas st
     = Linear.forward (CHGNet.bond_embedding self) (BatchedGraph.bond_bases_ag g)
     /\ CHGNet.mp_angle_feas st = angle_feas)
    /\ (ModelArgs.update_angle args = false -> CHGNet.mp_angle_feas st = angle_feas).
Proof.
  intros basis layers params args self g sw raf rcf st crystal energy Hinit Hr angle_feas.
  apply readout_state in Hr. destruct Hr as [atom_feas Hr].
  apply fold_mp_step_frozen in Hr. cbn [CHGNet.mp_bond_feas CHGNet.mp_angle_feas] in Hr.
  destruct Hr as [H1 H2]. destruct (init_layers _ Hinit) as [Hb Ha]. split.
  - intros [Hub | Hnil]; apply H1; [left | right; exact Hnil].
    specialize (Hb Hub). rewrite Forall_forall in Hb.
    apply Forall_forall. intros [idx [[al bl] anl]] Hin. cbn [fst snd].
    unfold enumerate in Hin. apply in_combine_r in Hin. apply In_zip3 in Hin.
    apply Hb, Hin.
  - intros Hua. apply H2. specialize (Ha Hua). rewrite Forall_forall in Ha.
    apply Forall_forall. intros [idx [[al bl] anl]] Hin. cbn [fst snd].
    unfold enumerate in Hin. apply in_combine_r in Hin. apply In_zip3 in Hin.
    apply Ha, Hin.
Qed.

Lemma bond_and_angle_features_change_only_through_bond_layers_witness :
  exists self g st crystal energy,
    @CHGNet.__init__ Example.basis Example.layers Example.params (Example.args_n_conv 3)
      = Ok self
    /\ BatchedGraph.from_graphs [Example.dimer] (CHGNet.bond_basis_expansion self)
         (CHGNet.angle_basis_expansion self) false = Ok g
    /\ CHGNet.readout self g true false false = Ok (st, crystal, energy)
    /\ CHGNet.mp_bond_feas st
       = Linear.forward (CHGNet.bond_embedding self) (BatchedGraph.bond_bases_ag g)
    /\ CHGNet.mp_angle_feas st = [].
Proof.
  destruct (@CHGNet.__init__ Example.basis Example.layers Example.params
              (Example.args_n_conv 3)) as [self | err] eqn:E;
    [ | run_in E; discriminate E].
  destruct (BatchedGraph.from_graphs [Example.dimer] (CHGNet.bond_basis_expansion self)
              (CHGNet.angle_basis_expansion self) false) as [g | err] eqn:Eg.
  2: { run_in E. injection E as <-. run_in Eg. discriminate Eg. }
  destruct (CHGNet.readout self g true false false)
    as [[[st crystal] energy] | err] eqn:Er.
  2: { run_in E. injection E as <-. run_in Eg. injection Eg as <-.
       run_in Er. discriminate Er. }
  assert (Hnil : BatchedGraph.angle_bases g = [])
    by (run_in E; injection E as <-; run_in Eg; injection Eg as <-; reflexivity).
  destruct (@bond_and_angle_features_change_only_through_bond_layers Example.basis
              Example.layers Example.params (Example.args_n_conv 3) self g
              true false false st crystal energy E Er) as [H _].
  destruct (H (or_intror Hnil)) as [Hb Ha].
  exists self, g, st, crystal, energy.
  split; [reflexivity | ]. split; [exact Eg | ]. split; [exact Er | ].
  split; [exact Hb | ]. rewrite Ha, Hnil. reflexivity.
Defined.

(** X10: the model cannot be built with an even width of the angular
    basis: whatever the other arguments, [CHGNet.__init__] returns no
    model. *)
Theorem model_construction_fails_for_an_even_num_angular :
  forall (basis : Basis) (layers : Layers) (params : Parameters)
         (args : ModelArgs.t) (k : Z),
    ModelArgs.num_angular args = (2 * k)%Z ->
    forall self, CHGNet.__init__ args <> Ok self.
Proof.
  intros basis layers params args k Hk self H.
  unfold CHGNet.__init__ in H. cbv zeta in H.
  destruct (match ModelArgs.composition_model args with
            | Some (inl name) => _
            | Some (inr module) => _
            | None => _
            end) as [composition | err]; cbn [bind] in H; [ | discriminate H].
  unfold AngleEncoder.__init__ in H. rewrite Hk in H.
  replace ((2 * k - 1) mod 2 =? 0)%Z with false in H.
  - discriminate H.
  - symmetry. apply Z.eqb_neq.
    replace (2 * k - 1)%Z with (1 + (k - 1) * 2)%Z by ring.
    rewrite Z.mod_add by lia. discriminate.
Qed.

Lemma model_construction_fails_for_an_even_num_angular_witness :
  ModelArgs.num_angular (args_num_angular 4) = (2 * 2)%Z
  /\ (exists err,
        @CHGNet.__init__ Example.basis Example.layers Example.params (args_num_angular 4)
        = Raise err).
Proof.
  split; [reflexivity | ].
  destruct (@CHGNet.__init__ Example.basis Example.layers Example.params
              (args_num_angular 4)) as [self | err] eqn:E.
  - exfalso.
    apply (@model_construction_fails_for_an_even_num_angular Example.basis
             Example.layers Example.params (args_num_angular 4) 2 eq_refl self E).
  - exists err. reflexivity.
Defined.

(** ** BondEncoder.forward *)

Lemma sum_squares_pos : forall a b c : R,
  (a, b, c) <> (0, 0, 0) -> 0 < a * a + b * b + c * c.
Proof.
  intros a b c H.
  destruct (Req_dec a 0) as [-> | Ha]; [ | nra].
  destruct (Req_dec b 0) as [-> | Hb]; [ | nra].
  destruct (Req_dec c 0) as [-> | Hc]; [contradiction H; reflexivity | nra].
Qed.

Lemma norm3_pos : forall d : Vec3, d <> (0, 0, 0) -> 0 < Tensor.norm3 d.
Proof.
  intros [[a b] c] H. unfold Tensor.norm3, Tensor.sum3, Tensor.mul3.
  apply sqrt_lt_R0. apply sum_squares_pos. exact H.
Qed.

Lemma norm3_normalized : forall d : Vec3,
  d <> (0, 0, 0) -> Tensor.norm3 (Tensor.div3 d (Tensor.norm3 d)) = 1.
Proof.
  intros [[a b] c] H. pose proof (norm3_pos H) as Hn.
  pose proof (sum_squares_pos H) as Hs.
  unfold Tensor.norm3, Tensor.sum3, Tensor.mul3, Tensor.div3 in *.
  set (n := sqrt (a * a + b * b + c * c)) in *.
  assert (Hnn : n * n = a * a + b * b + c * c) by (apply sqrt_sqrt; lra).
  replace (a / n * (a / n) + b / n * (b / n) + c / n * (c / n))
    with ((a * a + b * b + c * c) / (n * n)) by (field; lra).
  rewrite <- Hnn. replace (n * n / (n * n)) with 1 by (field; lra).
  apply sqrt_1.
Qed.

Lemma unit_dot_bounds : forall u v : Vec3,
  Tensor.norm3 u = 1 -> Tensor.norm3 v = 1 ->
  -1 <= Tensor.sum3 (Tensor.mul3 u v) <= 1.
Proof.
  intros [[a b] c] [[x y] z] Hu Hv.
  unfold Tensor.norm3, Tensor.sum3, Tensor.mul3 in *.
  assert (Hsq : forall s, 0 <= s -> sqrt s = 1 -> s = 1).
  { intros s Hs H. rewrite <- (sqrt_sqrt s Hs), H. ring. }
  apply Hsq in Hu; [ | nra]. apply Hsq in Hv; [ | nra].
  pose proof (Rle_0_sqr (a + x)) as P1. pose proof (Rle_0_sqr (b + y)) as P2.
  pose proof (Rle_0_sqr (c + z)) as P3. pose proof (Rle_0_sqr (a - x)) as M1.
  pose proof (Rle_0_sqr (b - y)) as M2. pose proof (Rle_0_sqr (c - z)) as M3.
  unfold Rsqr in *. split; lra.
Qed.

Lemma BondEncoder_forward_vectors :
  forall (self : BondEncoder.t) (center neighbor : list Vec3) (u2d : list Z)
         (image : list Vec3) (lattice : Mat3) ag bg vectors,
    length center = length neighbor -> length image = length neighbor ->
    BondEncoder.forward self center neighbor u2d image lattice = Ok (ag, bg, vectors) ->
    vectors = map (fun d => Tensor.div3 d (Tensor.norm3 d))
                (displacements center neighbor image lattice)
    /\ exists lengths,
         Tensor.index_select
           (map Tensor.norm3 (displacements center neighbor image lattice)) u2d
         = Ok lengths
         /\ ag = map (BondEncoder.rbf_expansion_ag self) lengths
         /\ bg = map (BondEncoder.rbf_expansion_bg self) lengths.
Proof.
  intros self center neighbor u2d image lattice ag bg vectors Hc Hi H.
  unfold BondEncoder.forward in H.
  assert (Hn : length (Tensor.map2 Tensor.add3 neighbor (Tensor.matmul_rows image lattice))
               = length neighbor).
  { apply map2_length. unfold Tensor.matmul_rows. rewrite length_map. symmetry; exact Hi. }
  rewrite broadcast2_same_length in H
    by (unfold Tensor.matmul_rows; rewrite length_map; symmetry; exact Hi).
  cbn [bind] in H.
  rewrite broadcast2_same_length in H by (rewrite Hn; exact Hc).
  cbn [bind] in H. fold (displacements center neighbor image lattice) in H.
  bind_inv H. injection H as <- <- <-.
  split; [reflexivity | ]. exists a. repeat split.
Qed.

Lemma displacements_length : forall center neighbor image lattice,
  length center = length neighbor -> length image = length neighbor ->
  length (displacements center neighbor image lattice) = length center.
Proof.
  intros center neighbor image lattice Hc Hi. unfold displacements.
  rewrite map2_length; [reflexivity | ].
  rewrite map2_length; [exact Hc | ].
  unfold Tensor.matmul_rows. rewrite length_map. symmetry; exact Hi.
Qed.



Lemma index_select_Forall :
  forall (A : Type) (P : A -> Prop) (input : list A) (index : list Z) (out : list A),
    Forall P input -> Tensor.index_select input index = Ok out -> Forall P out.
Proof.
  intros A P input index out HP. revert out.
  induction index as [| i index IH]; intros out H; cbn [Tensor.index_select mapM] in H.
  - injection H as <-. constructor.
  - destruct ((0 <=? i) && (i <? Tensor.len input))%Z; [ | discriminate H].
    destruct (nth_error input (Z.to_nat i)) as [a | ] eqn:Ea; cbn [bind] in H;
      [ | discriminate H].
    bind_inv H. injection H as <-. constructor.
    + rewrite Forall_forall in HP. apply HP. eapply nth_error_In; exact Ea.
    + apply IH. exact E.
Qed.

Lemma broadcast2_Forall :
  forall (A B C : Type) (fn : A -> B -> C) (P : A -> Prop) (Q : B -> Prop)
         (S : C -> Prop) (xs : list A) (ys : list B) (out : list C),
    (forall x y, P x -> Q y -> S (fn x y)) ->
    Forall P xs -> Forall Q ys ->
    Tensor.broadcast2 fn xs ys = Ok out -> Forall S out.
Proof.
  intros A B C fn P Q S xs ys out Hfn HP HQ H.
  assert (Hmap2 : forall xs ys, Forall P xs -> Forall Q ys ->
                                Forall S (Tensor.map2 fn xs ys)).
  { clear -Hfn. induction xs as [| x xs IH]; intros [| y ys] Hx Hy; cbn [Tensor.map2];
      try constructor; inversion Hx; inversion Hy; subst; auto. }
  assert (Hl : forall x, P x -> Forall S (map (fn x) ys)).
  { intros x Hx. apply Forall_map. eapply Forall_impl; [ | exact HQ].
    intros y Hy. apply Hfn; assumption. }
  assert (Hr : forall y, Q y -> Forall S (map (fun x => fn x y) xs)).
  { intros y Hy. apply Forall_map. eapply Forall_impl; [ | exact HP].
    intros x Hx. apply Hfn; assumption. }
  unfold Tensor.broadcast2 in H.
  destruct xs as [| x [| x' xs]]; destruct ys as [| y [| y' ys]];
    cbn [length Nat.eqb] in H;
    try discriminate H;
    try (destruct (_ =? _)%nat; [ | discriminate H]);
    injection H as <-;
    try (apply Hl; inversion HP; assumption);
    try (apply Hr; inversion HQ; assumption);
    try (exact (Hmap2 _ _ HP HQ)).
Qed.

(** X12: the cosines the angle encoder computes from bond vectors of
    [BondEncoder.forward] lie strictly between -1 and 1, whichever bonds
    the bond graph pairs: the vectors are unit vectors, so their dot
    products lie in [-1, 1], and the product by [1 - 1e-6] moves them
    inside. [acos] is differentiable at every one of them. *)
Theorem angle_cosines_of_bond_vectors_lie_strictly_inside :
  forall (self : BondEncoder.t) (center neighbor : list Vec3) (u2d : list Z)
         (image : list Vec3) (lattice : Mat3) (ag bg : Mat) (vectors : list Vec3)
         (index_i index_j : list Z) (bond_i bond_j : list Vec3) (cosines : list R),
    length center = length neighbor -> length image = length neighbor ->
    Forall (fun d => d <> (0, 0, 0)) (displacements center neighbor image lattice) ->
    BondEncoder.forward self center neighbor u2d image lattice = Ok (ag, bg, vectors) ->
    Tensor.index_select vectors index_i = Ok bond_i ->
    Tensor.index_select vectors index_j = Ok bond_j ->
    AngleEncoder.cosine_ij bond_i bond_j = Ok cosines ->
    Forall (fun c => -1 < c < 1
                     /\ derivable_pt_lim acos c (-1 / sqrt (1 - c²))) cosines.
Proof.
  intros self center neighbor u2d image lattice ag bg vectors index_i index_j
    bond_i bond_j cosines Hc Hi Hd H Hbi Hbj Hcos.
  apply BondEncoder_forward_vectors in H; [ | exact Hc | exact Hi].
  destruct H as [Hv _].
  assert (Hunit : Forall (fun v => Tensor.norm3 v = 1) vectors).
  { rewrite Hv. apply Forall_map. eapply Forall_impl; [ | exact Hd].
    intros d Hne. apply norm3_normalized. exact Hne. }
  pose proof (@index_select_Forall _ _ _ _ _ Hunit Hbi) as Ui.
  pose proof (@index_select_Forall _ _ _ _ _ Hunit Hbj) as Uj.
  unfold AngleEncoder.cosine_ij in Hcos. bind_inv Hcos. injection Hcos as <-.
  apply Forall_map.
  eapply (@broadcast2_Forall _ _ _ Tensor.mul3 _ _
            (fun p => -1 < Tensor.sum3 p * (1 - 1e-6) < 1
                      /\ derivable_pt_lim acos (Tensor.sum3 p * (1 - 1e-6))
                           (-1 / sqrt (1 - (Tensor.sum3 p * (1 - 1e-6))²))));
    [ | exact Ui | exact Uj | exact E].
  intros u v Hu Hv'. cbv beta in *.
  pose proof (@clamp_inside _ (@unit_dot_bounds _ _ Hu Hv')) as Hin.
  split; [exact Hin | apply acos_derivable_inside; exact Hin].
Qed.

Lemma angle_cosines_of_bond_vectors_lie_strictly_inside_witness :
  exists ag bg vectors bond_i bond_j cosines,
    BondEncoder.forward (@BondEncoder.__init__ Example.basis 5 3 1 6 false)
      [(0, 0, 0); (2, 0, 0)] [(2, 0, 0); (0, 0, 0)] [0%Z]
      [(0, 0, 0); (0, 0, 0)] ((4, 0, 0), (0, 4, 0), (0, 0, 4)) = Ok (ag, bg, vectors)
    /\ Tensor.index_select vectors [0%Z; 0%Z] = Ok bond_i
    /\ Tensor.index_select vectors [0%Z; 1%Z] = Ok bond_j
    /\ AngleEncoder.cosine_ij bond_i bond_j = Ok cosines
    /\ Forall (fun c => -1 < c < 1
                        /\ derivable_pt_lim acos c (-1 / sqrt (1 - c²))) cosines.
Proof.
  destruct (BondEncoder.forward (@BondEncoder.__init__ Example.basis 5 3 1 6 false)
              [(0, 0, 0); (2, 0, 0)] [(2, 0, 0); (0, 0, 0)] [0%Z]
              [(0, 0, 0); (0, 0, 0)] ((4, 0, 0), (0, 4, 0), (0, 0, 4)))
    as [[[ag bg] vectors] | err] eqn:E; [ | run_in E; discriminate E].
  destruct (Tensor.index_select vectors [0%Z; 0%Z]) as [bond_i | err] eqn:Ei.
  2: { run_in E. injection E as _ _ <-. run_in Ei. discriminate Ei. }
  destruct (Tensor.index_select vectors [0%Z; 1%Z]) as [bond_j | err] eqn:Ej.
  2: { run_in E. injection E as _ _ <-. run_in Ej. discriminate Ej. }
  destruct (AngleEncoder.cosine_ij bond_i bond_j) as [cosines | err] eqn:Ec.
  2: { run_in E. injection E as _ _ <-. run_in Ei. injection Ei as <-.
       run_in Ej. injection Ej as <-. run_in Ec. discriminate Ec. }
  exists ag, bg, vectors, bond_i, bond_j, cosines.
  split; [reflexivity | ]. split; [exact Ei | ]. split; [exact Ej | ].
  split; [exact Ec | ].
  apply (@angle_cosines_of_bond_vectors_lie_strictly_inside
           (@BondEncoder.__init__ Example.basis 5 3 1 6 false)
           [(0, 0, 0); (2, 0, 0)] [(2, 0, 0); (0, 0, 0)] [0%Z]
           [(0, 0, 0); (0, 0, 0)] ((4, 0, 0), (0, 4, 0), (0, 0, 4)) ag bg vectors
           [0%Z; 0%Z] [0%Z; 1%Z] bond_i bond_j cosines);
    [reflexivity | reflexivity | | exact E | exact Ei | exact Ej | exact Ec].
  run. repeat constructor; intros H; injection H as H _ _; lra.
Defined.

Lemma displacements_reverse : forall (center neighbor image : list Vec3) (lattice : Mat3),
  length center = length neighbor -> length image = length neighbor ->
  displacements neighbor center (map opp3 image) lattice
  = map opp3 (displacements center neighbor image lattice).
Proof.
  intros center neighbor image lattice. unfold displacements, Tensor.matmul_rows.
  revert neighbor image.
  induction center as [| c center IH]; intros [| n neighbor] [| i image] Hc Hi;
    cbn in Hc, Hi; try discriminate; try reflexivity.
  cbn [map Tensor.map2]. f_equal; [ | apply IH; lia].
  destruct c as [[c0 c1] c2], n as [[n0 n1] n2], i as [[i0 i1] i2].
  destruct lattice as [[[[a b] c] [[d e] f]] [[g h] j]].
  unfold opp3, Tensor.sub3, Tensor.add3, Tensor.row_matmul, Tensor.scale3, Tensor.add3.
  repeat f_equal; ring.
Qed.

Lemma norm3_opp3 : forall v : Vec3, Tensor.norm3 (opp3 v) = Tensor.norm3 v.
Proof.
  intros [[a b] c]. unfold Tensor.norm3, Tensor.sum3, Tensor.mul3, opp3.
  f_equal. ring.
Qed.

Lemma div3_opp3 : forall (v : Vec3) (k : R),
  Tensor.div3 (opp3 v) k = opp3 (Tensor.div3 v k).
Proof.
  intros [[a b] c] k. unfold Tensor.div3, opp3, Rdiv. repeat f_equal; ring.
Qed.



Lemma broadcast2_map_l :
  forall (A B C : Type) (fn : A -> B -> C) (g : A -> A) (h : C -> C)
         (xs : list A) (ys : list B),
    (forall x y, fn (g x) y = h (fn x y)) ->
    Tensor.broadcast2 fn (map g xs) ys
    = map_result (map h) (Tensor.broadcast2 fn xs ys).
Proof.
  intros A B C fn g h xs ys Hfn.
  assert (Hmap2 : forall xs ys,
             Tensor.map2 fn (map g xs) ys = map h (Tensor.map2 fn xs ys)).
  { clear -Hfn. induction xs as [| x xs IH]; intros [| y ys]; cbn; try reflexivity.
    rewrite Hfn, IH. reflexivity. }
  unfold Tensor.broadcast2.
  destruct xs as [| x [| x' xs]]; destruct ys as [| y [| y' ys]];
    cbn [map length Nat.eqb map_result]; try reflexivity.
  all: rewrite ?map_map, ?length_map.
  all: try solve [ f_equal; repeat (apply (f_equal2 cons); [apply Hfn | ]);
                   first [reflexivity | apply map_ext; intros; apply Hfn] ].
  destruct (length xs =? length ys)%nat; cbn [map_result]; [ | reflexivity].
    f_equal. exact (Hmap2 (x :: x' :: xs) (y :: y' :: ys)).
Qed.

Lemma broadcast2_map_both :
  forall (A B C : Type) (fn : A -> B -> C) (g : A -> A) (g' : B -> B)
         (xs : list A) (ys : list B),
    (forall x y, fn (g x) (g' y) = fn x y) ->
    Tensor.broadcast2 fn (map g xs) (map g' ys) = Tensor.broadcast2 fn xs ys.
Proof.
  intros A B C fn g g' xs ys Hfn.
  assert (Hmap2 : forall xs ys,
             Tensor.map2 fn (map g xs) (map g' ys) = Tensor.map2 fn xs ys).
  { clear -Hfn. induction xs as [| x xs IH]; intros [| y ys]; cbn; try reflexivity.
    rewrite Hfn, IH. reflexivity. }
  unfold Tensor.broadcast2.
  destruct xs as [| x [| x' xs]]; destruct ys as [| y [| y' ys]];
    cbn [map length Nat.eqb]; try reflexivity.
  all: rewrite ?map_map, ?length_map.
  all: try solve [ f_equal; repeat (apply (f_equal2 cons); [apply Hfn | ]);
                   first [reflexivity | apply map_ext; intros; apply Hfn] ].
  destruct (length xs =? length ys)%nat; [ | reflexivity].
    f_equal. exact (Hmap2 (x :: x' :: xs) (y :: y' :: ys)).
Qed.

Lemma add3_assoc : forall t x y : Vec3,
  Tensor.add3 (Tensor.add3 t x) y = Tensor.add3 t (Tensor.add3 x y).
Proof.
  intros [[a b] c] [[d e] f] [[g h] i]. unfold Tensor.add3.
  f_equal; [f_equal | ]; ring.
Qed.

Lemma sub3_add3_add3 : forall t x y : Vec3,
  Tensor.sub3 (Tensor.add3 t x) (Tensor.add3 t y) = Tensor.sub3 x y.
Proof.
  intros [[a b] c] [[d e] f] [[g h] i]. unfold Tensor.add3, Tensor.sub3.
  f_equal; [f_equal | ]; ring.
Qed.

Lemma BondEncoder_forward_as_displacements :
  forall (self : BondEncoder.t) (center neighbor : list Vec3) (u2d : list Z)
         (image : list Vec3) (lattice : Mat3),
    length center = length neighbor -> length image = length neighbor ->
    BondEncoder.forward self center neighbor u2d image lattice
    = (lengths <- Tensor.index_select
                    (map Tensor.norm3 (displacements center neighbor image lattice))
                    u2d ;;
       Ok (map (BondEncoder.rbf_expansion_ag self) lengths,
           map (BondEncoder.rbf_expansion_bg self) lengths,
           map (fun d => Tensor.div3 d (Tensor.norm3 d))
             (displacements center neighbor image lattice))).
Proof.
  intros self center neighbor u2d image lattice Hc Hi. unfold BondEncoder.forward.
  assert (Hn : length (Tensor.map2 Tensor.add3 neighbor (Tensor.matmul_rows image lattice))
               = length neighbor).
  { apply map2_length. unfold Tensor.matmul_rows. rewrite length_map. symmetry; exact Hi. }
  rewrite broadcast2_same_length
    by (unfold Tensor.matmul_rows; rewrite length_map; symmetry; exact Hi).
  cbn [bind].
  rewrite broadcast2_same_length by (rewrite Hn; exact Hc).
  reflexivity.
Qed.

(** X14: [BondEncoder.forward] sees the positions through the vectors
    between bonded atoms only: two lists of centres and neighbours with the
    same vectors [center - (neighbor + image @ lattice)] give the same
    bases and the same unit vectors, or the same exception. Moving every
    atom by one vector is the case in point. *)
Theorem bond_encoder_sees_positions_through_displacements :
  forall (self : BondEncoder.t) (center neighbor center' neighbor' : list Vec3)
         (u2d : list Z) (image : list Vec3) (lattice : Mat3),
    length center = length neighbor -> length image = length neighbor ->
    length center' = length neighbor' -> length image = length neighbor' ->
    displacements center neighbor image lattice
    = displacements center' neighbor' image lattice ->
    BondEncoder.forward self center neighbor u2d image lattice
    = BondEncoder.forward self center' neighbor' u2d image lattice.
Proof.
  intros self center neighbor center' neighbor' u2d image lattice Hc Hi Hc' Hi' Hd.
  rewrite !BondEncoder_forward_as_displacements by assumption.
  rewrite Hd. reflexivity.
Qed.

Lemma bond_encoder_sees_positions_through_displacements_witness :
  BondEncoder.forward (@BondEncoder.__init__ Example.basis 5 3 1 6 false)
    [(0, 0, 0); (2, 0, 0)] [(2, 0, 0); (0, 0, 0)] [0%Z]
    [(0, 0, 0); (0, 0, 0)] ((4, 0, 0), (0, 4, 0), (0, 0, 4))
  = BondEncoder.forward (@BondEncoder.__init__ Example.basis 5 3 1 6 false)
      [(1, 1, 0); (3, 1, 0)] [(3, 1, 0); (1, 1, 0)] [0%Z]
      [(0, 0, 0); (0, 0, 0)] ((4, 0, 0), (0, 4, 0), (0, 0, 4)).
Proof.
  apply (@bond_encoder_sees_positions_through_displacements
           (@BondEncoder.__init__ Example.basis 5 3 1 6 false)
           [(0, 0, 0); (2, 0, 0)] [(2, 0, 0); (0, 0, 0)]
           [(1, 1, 0); (3, 1, 0)] [(3, 1, 0); (1, 1, 0)] [0%Z]
           [(0, 0, 0); (0, 0, 0)] ((4, 0, 0), (0, 4, 0), (0, 0, 4)));
    try reflexivity.
  run.
  apply (f_equal2 cons); [ | apply (f_equal2 cons); [ | reflexivity]];
    (apply (f_equal2 pair); [apply (f_equal2 pair) | ]); lra.
Defined.

Lemma BondEncoder_forward_translate :
  forall (self : BondEncoder.t) (t : Vec3) (center neighbor : list Vec3)
         (u2d : list Z) (image : list Vec3) (lattice : Mat3),
    BondEncoder.forward self (map (Tensor.add3 t) center) (map (Tensor.add3 t) neighbor)
      u2d image lattice
    = BondEncoder.forward self center neighbor u2d image lattice.
Proof.
  intros self t center neighbor u2d image lattice. unfold BondEncoder.forward.
  rewrite (@broadcast2_map_l _ _ _ Tensor.add3 (Tensor.add3 t) (Tensor.add3 t))
    by (intros; apply add3_assoc).
  destruct (Tensor.broadcast2 Tensor.add3 neighbor _) as [shifted | err];
    cbn [map_result bind]; [ | reflexivity].
  rewrite (@broadcast2_map_both _ _ _ Tensor.sub3 (Tensor.add3 t) (Tensor.add3 t))
    by (intros; apply sub3_add3_add3).
  reflexivity.
Qed.

(** ** Invariance of the energy *)

Lemma getitem_map : forall (A : Type) (g : A -> A) (input : list A) (index : list Z),
  Tensor.getitem (map g input) index = map_result (map g) (Tensor.getitem input index).
Proof.
  intros A g input. unfold Tensor.getitem, Tensor.len. cbv zeta.
  induction index as [| i index IH]; [reflexivity | ].
  cbn [mapM]. rewrite IH, length_map, nth_error_map.
  destruct (_ && _)%bool; cbn [bind map_result]; [ | reflexivity].
  destruct (nth_error input _) as [a | ]; cbn [option_map bind map_result];
    [ | reflexivity].
  clear IH.
  destruct (mapM _ index) as [out | err]; cbn [bind map_result map]; reflexivity.
Qed.

Lemma step_as_core : forall bbe abe cs lv st k graph,
  BatchedGraph.step bbe abe cs lv st (k, graph)
  = step_core bbe abe
      (if cs then Some (BatchedGraph.strain_at lv k) else None)
      (lattice_of cs lv k graph) (positions_of cs lv k graph) st k graph.
Proof. intros bbe abe cs lv st k graph. destruct cs; reflexivity. Qed.

Lemma step_core_forget :
  forall bbe abe s1 s2 lattice t cart st1 st2 k graph1 graph2,
    forget_leaves st1 = forget_leaves st2 ->
    without_coords graph1 = without_coords graph2 ->
    map_result forget_leaves
      (step_core bbe abe s1 lattice (map (Tensor.add3 t) cart) st1 k graph1)
    = map_result forget_leaves (step_core bbe abe s2 lattice cart st2 k graph2).
Proof.
  intros bbe abe s1 s2 lattice t cart st1 st2 k graph1 graph2 Hst Hg.
  destruct st1, st2. unfold forget_leaves in Hst. cbn in Hst.
  injection Hst as -> -> -> -> -> -> -> -> -> -> ->.
  destruct graph1, graph2. unfold without_coords in Hg. cbn in Hg.
  injection Hg as -> _ -> -> -> -> ->.
  unfold step_core.
  cbn [Crystal_Graph.atomic_number Crystal_Graph.atom_graph
       Crystal_Graph.undirected2directed Crystal_Graph.directed2undirected
       Crystal_Graph.neighbor_image Crystal_Graph.bond_graph
       BatchedGraph.l_atomic_numbers BatchedGraph.l_atom_positions
       BatchedGraph.l_strains BatchedGraph.l_volumes BatchedGraph.l_bond_bases_ag
       BatchedGraph.l_bond_bases_bg BatchedGraph.l_angle_bases
       BatchedGraph.l_batched_atom_graph BatchedGraph.l_batched_bond_graph
       BatchedGraph.l_directed2undirected BatchedGraph.l_atom_owners
       BatchedGraph.atom_offset_idx BatchedGraph.n_undirected].
  rewrite !getitem_map.
  destruct (Tensor.getitem cart (map fst _)) as [center | err];
    cbn [map_result bind]; [ | reflexivity].
  destruct (Tensor.getitem cart (map snd _)) as [neighbor | err];
    cbn [map_result bind]; [ | reflexivity].
  rewrite BondEncoder_forward_translate.
  destruct (BondEncoder.forward _ _ _ _ _ _) as [[[ag bg] vectors] | err];
    cbn [map_result bind]; [ | reflexivity].
  match goal with
  | |- context [bind ?m _] => destruct m as [[ab bbg] | err]
  end; cbn [map_result bind]; reflexivity.
Qed.

Lemma foldM_forget :
  forall (A S : Type) (forget : S -> S) (f1 f2 : S -> A -> result S)
         (R : A -> A -> Prop) (l1 l2 : list A),
    Forall2 R l1 l2 ->
    (forall a1 a2 s1 s2, R a1 a2 -> forget s1 = forget s2 ->
                         map_result forget (f1 s1 a1) = map_result forget (f2 s2 a2)) ->
    forall s1 s2, forget s1 = forget s2 ->
    map_result forget (foldM f1 l1 s1) = map_result forget (foldM f2 l2 s2).
Proof.
  intros A S forget f1 f2 R l1 l2 HR Hstep.
  induction HR as [| a1 a2 l1 l2 Ha _ IH]; intros s1 s2 Hs; cbn [foldM map_result].
  - f_equal. exact Hs.
  - specialize (Hstep a1 a2 s1 s2 Ha Hs).
    destruct (f1 s1 a1) as [s1' | e1], (f2 s2 a2) as [s2' | e2];
      cbn [map_result bind] in *; try discriminate Hstep.
    + injection Hstep as Hs'. apply IH. exact Hs'.
    + exact Hstep.
Qed.

Lemma make_tensors_forget : forall st1 st2,
  forget_leaves st1 = forget_leaves st2 ->
  map_result without_leaves (BatchedGraph.make_tensors st1)
  = map_result without_leaves (BatchedGraph.make_tensors st2).
Proof.
  intros st1 st2 Hst.
  destruct st1, st2. unfold forget_leaves in Hst. cbn in Hst.
  injection Hst as -> -> -> -> -> -> -> -> -> -> ->.
  unfold BatchedGraph.make_tensors.
  cbn [BatchedGraph.l_atomic_numbers BatchedGraph.l_atom_positions
       BatchedGraph.l_strains BatchedGraph.l_volumes BatchedGraph.l_bond_bases_ag
       BatchedGraph.l_bond_bases_bg BatchedGraph.l_angle_bases
       BatchedGraph.l_batched_atom_graph BatchedGraph.l_batched_bond_graph
       BatchedGraph.l_directed2undirected BatchedGraph.l_atom_owners].
  repeat match goal with
         | |- context [bind ?m _] =>
             destruct m; cbn [bind map_result]; try reflexivity
         end.
Qed.

Lemma readout_without_leaves :
  forall (self : CHGNet.t) (g : BatchedGraph.t) (sw raf rcf : bool),
  CHGNet.readout self (without_leaves g) sw raf rcf = CHGNet.readout self g sw raf rcf.
Proof. reflexivity. Qed.

Lemma readout_of_same_batch : forall (self : CHGNet.t) (g1 g2 : BatchedGraph.t)
    (sw raf rcf : bool),
  without_leaves g1 = without_leaves g2 ->
  CHGNet.readout self g1 sw raf rcf = CHGNet.readout self g2 sw raf rcf.
Proof.
  intros self g1 g2 sw raf rcf H.
  rewrite <- (@readout_without_leaves self g1), <- (@readout_without_leaves self g2), H.
  reflexivity.
Qed.

Lemma energy_sum_of_same_batch :
  forall (self : CHGNet.t) (sw raf rcf : bool) (r1 r2 : result BatchedGraph.t),
    map_result without_leaves r1 = map_result without_leaves r2 ->
    CHGNet.energy_sum self sw raf rcf r1 = CHGNet.energy_sum self sw raf rcf r2.
Proof.
  intros self sw raf rcf [g1 | e1] [g2 | e2] H; cbn [map_result] in H;
    try discriminate H; unfold CHGNet.energy_sum; cbn [bind].
  - assert (Hw : without_leaves g1 = without_leaves g2) by congruence.
    rewrite (@readout_of_same_batch self g1 g2 sw raf rcf Hw). reflexivity.
  - injection H as ->. reflexivity.
Qed.

Lemma add3_zero : forall v : Vec3, Tensor.add3 (0, 0, 0) v = v.
Proof.
  intros [[a b] c]. unfold Tensor.add3. f_equal; [f_equal | ]; ring.
Qed.

(** Two runs of the loop of [from_graphs], on graphs with the same tables
    and lattices, whose atoms differ by a translation of each structure as
    a whole, build the same batch, positions and strains apart. *)
Lemma from_graphs_at_forget :
  forall bbe abe cs1 cs2 lv1 lv2 (graphs1 graphs2 : list Crystal_Graph.t),
    Forall2 (fun kg1 kg2 =>
               fst kg1 = fst kg2
               /\ without_coords (snd kg1) = without_coords (snd kg2)
               /\ lattice_of cs1 lv1 (fst kg1) (snd kg1)
                  = lattice_of cs2 lv2 (fst kg2) (snd kg2)
               /\ exists t, positions_of cs1 lv1 (fst kg1) (snd kg1)
                            = map (Tensor.add3 t)
                                (positions_of cs2 lv2 (fst kg2) (snd kg2)))
            (enumerate graphs1) (enumerate graphs2) ->
    map_result without_leaves (BatchedGraph.from_graphs_at graphs1 bbe abe cs1 lv1)
    = map_result without_leaves (BatchedGraph.from_graphs_at graphs2 bbe abe cs2 lv2).
Proof.
  intros bbe abe cs1 cs2 lv1 lv2 graphs1 graphs2 H.
  unfold BatchedGraph.from_graphs_at.
  pose proof (@foldM_forget _ _ forget_leaves
                (BatchedGraph.step bbe abe cs1 lv1) (BatchedGraph.step bbe abe cs2 lv2)
                _ _ _ H) as Hfold.
  specialize (Hfold
    ltac:(intros [k1 graph1] [k2 graph2] s1 s2 (Hk & Hg & Hl & t & Hp) Hs;
          cbn [fst snd] in *; subst k2;
          rewrite !step_as_core, Hl, Hp;
          apply step_core_forget; assumption)
    BatchedGraph.initial_state BatchedGraph.initial_state eq_refl).
  destruct (foldM _ (enumerate graphs1) _) as [st1 | e1],
           (foldM _ (enumerate graphs2) _) as [st2 | e2];
    cbn [map_result bind] in *; try discriminate Hfold.
  - apply make_tensors_forget. congruence.
  - injection Hfold as ->. reflexivity.
Qed.

Lemma Forall2_enumerate_map :
  forall (A : Type) (fn : A -> A) (R : nat * A -> nat * A -> Prop) (l : list A),
    (forall k a, R (k, fn a) (k, a)) ->
    Forall2 R (enumerate (map fn l)) (enumerate l).
Proof.
  intros A fn R l H. unfold enumerate. rewrite length_map. generalize 0%nat.
  induction l as [| a l IH]; intros s; cbn [length seq combine map]; constructor.
  - apply H.
  - apply IH.
Qed.

Lemma Forall2_enumerate_same :
  forall (A : Type) (R : nat * A -> nat * A -> Prop) (l : list A),
    (forall k a, R (k, a) (k, a)) -> Forall2 R (enumerate l) (enumerate l).
Proof.
  intros A R l H.
  rewrite <- (map_id l) at 1. apply (@Forall2_enumerate_map A (fun a => a) R l H).
Qed.

Lemma row_matmul_add3 : forall (t u : Vec3) (m : Mat3),
  Tensor.row_matmul (Tensor.add3 t u) m
  = Tensor.add3 (Tensor.row_matmul t m) (Tensor.row_matmul u m).
Proof.
  intros [[t0 t1] t2] [[u0 u1] u2] [[[[a b] c] [[d e] f]] [[g h] i]].
  unfold Tensor.row_matmul, Tensor.add3, Tensor.scale3.
  f_equal; [f_equal | ]; ring.
Qed.

Lemma matmul_rows_translate : forall (t : Vec3) (x : list Vec3) (m : Mat3),
  Tensor.matmul_rows (map (Tensor.add3 t) x) m
  = map (Tensor.add3 (Tensor.row_matmul t m)) (Tensor.matmul_rows x m).
Proof.
  intros t x m. unfold Tensor.matmul_rows. rewrite !map_map.
  apply map_ext. intros u. apply row_matmul_add3.
Qed.

Lemma map_add3_zero : forall (l : list Vec3), map (Tensor.add3 (0, 0, 0)) l = l.
Proof.
  intros l. rewrite (map_ext _ (fun v => v) add3_zero). apply map_id.
Qed.


Lemma from_graphs_leaves : forall graphs bbe abe cs g,
  BatchedGraph.from_graphs graphs bbe abe cs = Ok g ->
  BatchedGraph.atom_positions g
  = map (fun graph => Tensor.matmul_rows (Crystal_Graph.atom_frac_coord graph)
                        (Crystal_Graph.lattice graph)) graphs
  /\ BatchedGraph.strains g
     = map (fun _ => if cs then Some Tensor.zeros3 else None) graphs.
Proof.
  intros graphs bbe abe cs g H.
  unfold BatchedGraph.from_graphs in H. apply from_graphs_at_inv in H.
  destruct H as (_ & _ & Hpos & Hstr & _).
  rewrite Hpos, Hstr. split.
  - rewrite <- (map_enumerate_snd
                  (fun graph => Tensor.matmul_rows (Crystal_Graph.atom_frac_coord graph)
                                  (Crystal_Graph.lattice graph)) graphs).
    apply map_ext. intros [k graph]. cbn [fst snd].
    unfold positions_of. cbn [BatchedGraph.position_at BatchedGraph.initial_leaves].
    rewrite lattice_of_zero_strain by reflexivity. reflexivity.
  - rewrite <- (map_enumerate_snd
                  (fun _ : Crystal_Graph.t => if cs then Some Tensor.zeros3 else None)
                  graphs).
    apply map_ext. intros [k graph]. reflexivity.
Qed.

Section Invariance.
Context {autograd : Autograd}.

(** [_compute] on two batches that differ in their positions only, when no
    force is asked for. *)
Lemma compute_of_same_batch :
  forall (self : CHGNet.t) (g1 g2 : BatchedGraph.t) (tape1 tape2 : CHGNet.tape)
         (sw cs raf rcf : bool),
    without_leaves g1 = without_leaves g2 ->
    BatchedGraph.strains g1 = BatchedGraph.strains g2 ->
    (forall strains,
        CHGNet.energy_sum self sw raf rcf (CHGNet.wrt_strains tape1 strains)
        = CHGNet.energy_sum self sw raf rcf (CHGNet.wrt_strains tape2 strains)) ->
    CHGNet._compute self g1 tape1 sw false cs raf rcf
    = CHGNet._compute self g2 tape2 sw false cs raf rcf.
Proof.
  intros self g1 g2 tape1 tape2 sw cs raf rcf Hw Hs Hfn.
  pose proof (f_equal BatchedGraph.atom_owners Hw) as Ho.
  pose proof (f_equal BatchedGraph.volumes Hw) as Hv.
  cbn [without_leaves BatchedGraph.atom_owners BatchedGraph.volumes] in Ho, Hv.
  unfold CHGNet._compute.
  rewrite (@readout_of_same_batch self g1 g2 sw raf rcf Hw), Ho, Hv, Hs.
  assert (Hclo : (fun strains =>
                    CHGNet.energy_sum self sw raf rcf (CHGNet.wrt_strains tape1 strains))
                 = (fun strains =>
                      CHGNet.energy_sum self sw raf rcf
                        (CHGNet.wrt_strains tape2 strains)))
    by (apply functional_extensionality; exact Hfn).
  rewrite Hclo. reflexivity.
Qed.

End Invariance.



(** X17: asking for stress changes nothing else. The strain that
    [from_graphs] adds for the stress is zero: a forward pass with ["s"] in
    its task returns the energy, the forces, the magnetic moments and the
    features of the pass without it. *)
Theorem asking_for_stress_changes_nothing_else :
  forall (autograd : Autograd) (self : CHGNet.t) (graphs : list Crystal_Graph.t)
         (task task' : string) (raf rcf : bool) (p : CHGNet.prediction),
    CHGNet.contains "s" task = true ->
    CHGNet.contains "s" task' = false ->
    CHGNet.contains "f" task' = CHGNet.contains "f" task ->
    CHGNet.contains "m" task' = CHGNet.contains "m" task ->
    CHGNet.forward self graphs task raf rcf = Ok p ->
    CHGNet.forward self graphs task' raf rcf
    = Ok (CHGNet.mk_prediction (CHGNet.atoms_per_graph p) (CHGNet.atom_fea p)
            (CHGNet.m p) (CHGNet.crystal_fea p) (CHGNet.f p) None (CHGNet.e p)).
Proof.
  intros autograd self graphs task task' raf rcf p Hs Hs' Hf Hm H.
  set (bbe := CHGNet.bond_basis_expansion self) in *.
  set (abe := CHGNet.angle_basis_expansion self) in *.
  assert (Hrel : forall lv,
             BatchedGraph.strain_at lv = (fun _ => Tensor.zeros3) ->
             map_result without_leaves
               (BatchedGraph.from_graphs_at graphs bbe abe false lv)
             = map_result without_leaves
                 (BatchedGraph.from_graphs_at graphs bbe abe true lv)).
  { intros lv Hlv. apply from_graphs_at_forget. apply Forall2_enumerate_same.
    intros k graph. cbn [fst snd]. split; [reflexivity | ]. split; [reflexivity | ].
    assert (Hl : lattice_of false lv k graph = lattice_of true lv k graph).
    { rewrite !lattice_of_zero_strain by (rewrite Hlv; reflexivity). reflexivity. }
    split; [exact Hl | ].
    exists (0, 0, 0). rewrite map_add3_zero. unfold positions_of. rewrite Hl.
    reflexivity. }
  unfold CHGNet.forward in *. rewrite Hs', Hf, Hm. rewrite Hs in H.
  fold bbe abe in H |- *.
  destruct (match CHGNet.composition_model self with
            | Some model => c <- model graphs;; Ok (Some c)
            | None => Ok None
            end) as [comp | err]; cbn [bind] in *; [ | discriminate H].
  pose proof (Hrel BatchedGraph.initial_leaves eq_refl) as H0.
  fold (BatchedGraph.from_graphs graphs bbe abe false) in H0.
  fold (BatchedGraph.from_graphs graphs bbe abe true) in H0.
  destruct (BatchedGraph.from_graphs graphs bbe abe true) as [g | err] eqn:Eg;
    cbn [bind] in H; [ | discriminate H].
  destruct (BatchedGraph.from_graphs graphs bbe abe false) as [g' | err] eqn:Eg';
    cbn [map_result bind] in *; [ | discriminate H0].
  assert (Hw : without_leaves g' = without_leaves g) by congruence.
  pose proof (f_equal BatchedGraph.atom_owners Hw) as Ho.
  cbn [without_leaves BatchedGraph.atom_owners] in Ho.
  apply from_graphs_leaves in Eg, Eg'. destruct Eg as [P S], Eg' as [P' S'].
  destruct (CHGNet._compute self g _ _ _ _ _ _) as [p0 | err] eqn:Ec;
    cbn [bind] in H; [ | discriminate H].
  destruct (CHGNet.add_comp_energy (CHGNet.e p0) comp) as [energy | err] eqn:Ee;
    cbn [bind] in H; [ | discriminate H].
  injection H as <-.
  cbn [CHGNet.atoms_per_graph CHGNet.atom_fea CHGNet.m CHGNet.crystal_fea CHGNet.f
       CHGNet.e].
  unfold CHGNet._compute in Ec |- *.
  rewrite (@readout_of_same_batch self g' g (CHGNet.contains "m" task) raf rcf Hw), Ho.
  destruct (CHGNet.readout self g _ _ _) as [[[st crystal] energy0] | err];
    cbn [bind] in Ec |- *; [ | discriminate Ec].
  assert (Hclo : (fun positions =>
                    CHGNet.energy_sum self (CHGNet.contains "m" task) raf rcf
                      (CHGNet.wrt_positions (CHGNet.recorded self graphs false) positions))
                 = (fun positions =>
                      CHGNet.energy_sum self (CHGNet.contains "m" task) raf rcf
                        (CHGNet.wrt_positions (CHGNet.recorded self graphs true)
                           positions))).
  { apply functional_extensionality. intros positions.
    apply energy_sum_of_same_batch. unfold CHGNet.recorded.
    cbn [CHGNet.wrt_positions]. apply Hrel. reflexivity. }
  rewrite Hclo, P', <- P.
  destruct (if CHGNet.contains "f" task then _ else _) as [force | err];
    cbn [bind] in Ec |- *; [ | discriminate Ec].
  bind_inv Ec. injection Ec as <-.
  cbn [CHGNet.atoms_per_graph CHGNet.atom_fea CHGNet.m CHGNet.crystal_fea CHGNet.f
       CHGNet.e bind] in *.
  rewrite Ee. reflexivity.
Qed.

Lemma asking_for_stress_changes_nothing_else_witness :
  exists self p,
    @CHGNet.__init__ Example.basis Example.layers Example.params (Example.args_n_conv 2)
      = Ok self
    /\ @CHGNet.forward Example.autograd self [Example.dimer; Example.trimer] "efsm"
         false false = Ok p
    /\ @CHGNet.forward Example.autograd self [Example.dimer; Example.trimer] "efm"
         false false
       = Ok (CHGNet.mk_prediction (CHGNet.atoms_per_graph p) (CHGNet.atom_fea p)
               (CHGNet.m p) (CHGNet.crystal_fea p) (CHGNet.f p) None (CHGNet.e p)).
Proof.
  destruct (@CHGNet.__init__ Example.basis Example.layers Example.params
              (Example.args_n_conv 2)) as [self | err] eqn:E;
    [ | run_in E; discriminate E].
  destruct (@CHGNet.forward Example.autograd self [Example.dimer; Example.trimer] "efsm"
              false false) as [p | err] eqn:Ef.
  2: { run_in E. injection E as <-. run_in Ef. discriminate Ef. }
  exists self, p. split; [reflexivity | ]. split; [exact Ef | ].
  apply (@asking_for_stress_changes_nothing_else Example.autograd self
           [Example.dimer; Example.trimer] "efsm" "efm" false false p);
    [reflexivity | reflexivity | reflexivity | reflexivity | exact Ef].
Defined.

(** ** CHGNet.predict_graph *)

Lemma update_length : forall (A : Type) (l : list A) (k : nat) (g : A -> A),
  length (Predict.update l k g) = length l.
Proof.
  induction l as [| x l IH]; intros [| k] g; cbn [Predict.update length];
    try reflexivity.
  rewrite IH. reflexivity.
Qed.

Lemma update_nth_error : forall (A : Type) (l : list A) (j k : nat) (g : A -> A),
  nth_error (Predict.update l j g) k
  = if (k =? j)%nat then option_map g (nth_error l k) else nth_error l k.
Proof.
  induction l as [| x l IH]; intros [| j] [| k] g; cbn [Predict.update nth_error Nat.eqb];
    try reflexivity.
  - destruct (_ =? _)%nat; reflexivity.
  - apply IH.
Qed.

Lemma setitem_length : forall predictions index set out,
  Predict.setitem predictions index set = Ok out -> length out = length predictions.
Proof.
  intros predictions index set out H. unfold Predict.setitem in H. cbv zeta in H.
  destruct (_ && _)%bool; [ | discriminate H]. injection H as <-. apply update_length.
Qed.

Lemma scatter_length : forall (V : Type) (set : V -> Predict.out -> Predict.out)
    (base : Z) (pred : option (list V)) predictions out,
  Predict.scatter set base pred predictions = Ok out ->
  length out = length predictions.
Proof.
  intros V set base [pred | ] predictions out H; cbn [Predict.scatter] in H;
    [ | injection H as <-; reflexivity].
  revert predictions out H. generalize (enumerate pred) as items.
  induction items as [| item items IH]; intros predictions out H; cbn [foldM] in H.
  - injection H as <-. reflexivity.
  - bind_inv H. apply setitem_length in E. apply IH in H. congruence.
Qed.

Section PredictLength.
Context {autograd : Autograd}.

Lemma predict_batch_length : forall self graph task raf rcf batch_size predictions n out,
  Predict.predict_batch self graph task raf rcf batch_size predictions n = Ok out ->
  length out = length predictions.
Proof.
  intros self graph task raf rcf batch_size predictions n out H.
  unfold Predict.predict_batch in H. cbv zeta in H. bind_inv H.
  apply scatter_length in H, E0, E1, E2, E3, E4. congruence.
Qed.

Lemma predict_many_length :
  forall self graphs task raf rcf batch_size predictions,
    Predict.predict_graph self (Predict.Many graphs) task raf rcf batch_size
    = Predict.Return (inr predictions) ->
    length predictions = length graphs.
Proof.
  intros self graphs task raf rcf batch_size predictions H.
  cbn [Predict.predict_graph] in H. unfold Predict.predict_many in H. cbv zeta in H.
  destruct (batch_size =? 0)%Z; [discriminate H | ].
  destruct (foldM _ _ _) as [out | err] eqn:E; cbn [Predict.lift Predict.and_then] in H;
    [ | discriminate H].
  injection H as <-.
  assert (Hfold : forall steps start out,
             foldM (Predict.predict_batch self graphs task raf rcf batch_size)
               steps start = Ok out -> length out = length start).
  { induction steps as [| n steps IH]; intros start out' Hf; cbn [foldM] in Hf.
    - injection Hf as <-. reflexivity.
    - bind_inv Hf. apply predict_batch_length in E0. apply IH in Hf. congruence. }
  apply Hfold in E. rewrite E, length_map, length_seq. reflexivity.
Qed.

End PredictLength.

(** X18: the batch branch of [predict_graph] returns one dictionary per
    graph of the list, whatever the batch size and whatever the forward
    passes return. *)
Theorem batch_prediction_returns_one_result_per_graph :
  forall (autograd : Autograd) (self : CHGNet.t) (graphs : list Crystal_Graph.t)
         (task : string) (raf rcf : bool) (batch_size : Z)
         (predictions : list Predict.out),
    Predict.predict_graph self (Predict.Many graphs) task raf rcf batch_size
    = Predict.Return (inr predictions) ->
    length predictions = length graphs.
Proof.
  intros autograd self graphs task raf rcf batch_size predictions H.
  exact (predict_many_length _ _ _ _ _ _ H).
Qed.

Lemma batch_prediction_returns_one_result_per_graph_witness :
  exists self predictions,
    @CHGNet.__init__ Example.basis Example.layers Example.params (Example.args_n_conv 2)
      = Ok self
    /\ @Predict.predict_graph Example.autograd self
         (Predict.Many [Example.dimer; Example.trimer; Example.dimer]) "em" false false 2
       = Predict.Return (inr predictions)
    /\ length predictions = 3%nat.
Proof.
  destruct (@CHGNet.__init__ Example.basis Example.layers Example.params
              (Example.args_n_conv 2)) as [self | err] eqn:E;
    [ | run_in E; discriminate E].
  destruct (@Predict.predict_graph Example.autograd self
              (Predict.Many [Example.dimer; Example.trimer; Example.dimer]) "em"
              false false 2) as [[o | predictions] | err] eqn:Ep.
  1, 3: run_in E; injection E as <-; run_in Ep; discriminate Ep.
  exists self, predictions. split; [reflexivity | ]. split; [exact Ep | ].
  apply (@batch_prediction_returns_one_result_per_graph Example.autograd self
           [Example.dimer; Example.trimer; Example.dimer] "em" false false 2
           predictions Ep).
Defined.

(** X19: the batch sizes that are not sizes. With a batch size of zero the
    batch branch raises [ZeroDivisionError], also for an empty list. With a
    negative batch size the number of steps is not positive: the model is
    never run and the call returns one empty dictionary per graph, without
    an error. *)
Theorem batch_prediction_with_a_batch_size_that_is_not_positive :
  forall (autograd : Autograd) (self : CHGNet.t) (graphs : list Crystal_Graph.t)
         (task : string) (raf rcf : bool) (batch_size : Z),
    (batch_size <= 0)%Z ->
    Predict.predict_graph self (Predict.Many graphs) task raf rcf batch_size
    = if (batch_size =? 0)%Z then Predict.Throw Predict.ZeroDivisionError
      else Predict.Return (inr (map (fun _ => Predict.empty) graphs)).
Proof.
  intros autograd self graphs task raf rcf batch_size Hb.
  cbn [Predict.predict_graph]. unfold Predict.predict_many. cbv zeta.
  destruct (Z.eqb_spec batch_size 0) as [-> | Hne]; [reflexivity | ].
  assert (Hn : (Predict.ceil_div (Tensor.len graphs) batch_size <= 0)%Z).
  { unfold Predict.ceil_div. pose proof (len_nonneg graphs) as Hl.
    assert (0 <= (- Tensor.len graphs) / batch_size)%Z; [ | lia].
    rewrite <- Z.div_opp_opp by lia. rewrite Z.opp_involutive.
    apply Z.div_pos; lia. }
  unfold CHGNet.range.
  replace (Z.to_nat (Predict.ceil_div (Tensor.len graphs) batch_size)) with 0%nat by lia.
  cbn [seq foldM Predict.lift Predict.and_then]. do 2 f_equal.
  clear. generalize 0%nat.
  induction graphs as [| graph graphs IH]; intros s; cbn [length seq map];
    [reflexivity | ]. rewrite IH. reflexivity.
Qed.

Lemma batch_prediction_with_a_batch_size_that_is_not_positive_witness :
  exists self,
    @CHGNet.__init__ Example.basis Example.layers Example.params (Example.args_n_conv 2)
      = Ok self
    /\ @Predict.predict_graph Example.autograd self
         (Predict.Many [Example.dimer; Example.trimer]) "e" false false (-1)
       = Predict.Return (inr [Predict.empty; Predict.empty])
    /\ @Predict.predict_graph Example.autograd self
         (Predict.Many [Example.dimer; Example.trimer]) "e" false false 0
       = Predict.Throw Predict.ZeroDivisionError.
Proof.
  destruct (@CHGNet.__init__ Example.basis Example.layers Example.params
              (Example.args_n_conv 2)) as [self | err] eqn:E;
    [ | run_in E; discriminate E].
  exists self. split; [reflexivity | ]. split.
  - apply (@batch_prediction_with_a_batch_size_that_is_not_positive Example.autograd
             self [Example.dimer; Example.trimer] "e" false false (-1)). lia.
  - apply (@batch_prediction_with_a_batch_size_that_is_not_positive Example.autograd
             self [Example.dimer; Example.trimer] "e" false false 0). lia.
Defined.

(** X20: the empty list. For every batch size but zero the batch branch
    returns the empty list of dictionaries without running the model, where
    a forward pass on the empty list raises. *)
Theorem batch_prediction_of_no_graph :
  forall (autograd : Autograd) (self : CHGNet.t) (task : string) (raf rcf : bool)
         (batch_size : Z),
    batch_size <> 0%Z ->
    Predict.predict_graph self (Predict.Many []) task raf rcf batch_size
    = Predict.Return (inr [])
    /\ exists err, CHGNet.forward self [] task raf rcf = Raise err.
Proof.
  intros autograd self task raf rcf batch_size Hb. split.
  - cbn [Predict.predict_graph]. unfold Predict.predict_many. cbv zeta.
    destruct (Z.eqb_spec batch_size 0) as [-> | _]; [contradiction | ].
    unfold Predict.ceil_div, Tensor.len. cbn [length Z.of_nat Z.opp].
    rewrite Z.div_0_l by exact Hb. reflexivity.
  - destruct (CHGNet.forward self [] task raf rcf) as [p | err] eqn:E;
      [ | exists err; reflexivity].
    apply forward_inv in E. destruct E as (g & _ & _ & Hg & _). discriminate Hg.
Qed.

Lemma batch_prediction_of_no_graph_witness :
  exists self,
    @CHGNet.__init__ Example.basis Example.layers Example.params (Example.args_n_conv 2)
      = Ok self
    /\ @Predict.predict_graph Example.autograd self (Predict.Many []) "efsm" false false
         100 = Predict.Return (inr [])
    /\ exists err, @CHGNet.forward Example.autograd self [] "efsm" false false = Raise err.
Proof.
  destruct (@CHGNet.__init__ Example.basis Example.layers Example.params
              (Example.args_n_conv 2)) as [self | err] eqn:E;
    [ | run_in E; discriminate E].
  exists self. split; [reflexivity | ].
  apply (@batch_prediction_of_no_graph Example.autograd self "efsm" false false 100).
  discriminate.
Defined.

(** X21: [predict_structure] on a list converts every structure before it
    predicts anything, and returns one dictionary per structure: what
    [predict_graph] returns for the list of the graphs. *)
Theorem structure_prediction_returns_one_result_per_structure :
  forall (autograd : Autograd) (structures : Structures) (self : CHGNet.t)
         (structure : list Structure) (task : string) (raf rcf : bool)
         (batch_size : Z) (predictions : list Predict.out),
    Predict.predict_structure self (Predict.Many structure) task raf rcf batch_size
    = Predict.Return (inr predictions) ->
    length predictions = length structure
    /\ exists graphs : list Crystal_Graph.t,
         mapM (Predict.graph_converter self) structure = Ok graphs
         /\ Predict.predict_graph self (Predict.Many graphs) task raf rcf batch_size
            = Predict.Return (inr predictions).
Proof.
  intros autograd structures self structure task raf rcf batch_size predictions H.
  cbn [Predict.predict_structure] in H.
  destruct (mapM (Predict.graph_converter self) structure) as [graphs | err] eqn:E;
    cbn [Predict.lift Predict.and_then] in H; [ | discriminate H].
  split; [ | exists graphs; split; [reflexivity | exact H]].
  rewrite (predict_many_length _ _ _ _ _ _ H). exact (mapM_length _ _ E).
Qed.

Lemma structure_prediction_returns_one_result_per_structure_witness :
  exists self predictions,
    @CHGNet.__init__ Example.basis Example.layers Example.params (Example.args_n_conv 2)
      = Ok self
    /\ @Predict.predict_structure Example.autograd ExampleStructures.structures self
         (Predict.Many [Example.dimer; Example.trimer]) "e" false false 1
       = Predict.Return (inr predictions)
    /\ length predictions = 2%nat.
Proof.
  destruct (@CHGNet.__init__ Example.basis Example.layers Example.params
              (Example.args_n_conv 2)) as [self | err] eqn:E;
    [ | run_in E; discriminate E].
  destruct (@Predict.predict_structure Example.autograd ExampleStructures.structures self
              (Predict.Many [Example.dimer; Example.trimer]) "e" false false 1)
    as [[o | predictions] | err] eqn:Ep.
  1, 3: run_in E; injection E as <-; run_in Ep; discriminate Ep.
  exists self, predictions. split; [reflexivity | ]. split; [exact Ep | ].
  apply (@structure_prediction_returns_one_result_per_structure Example.autograd
           ExampleStructures.structures self [Example.dimer; Example.trimer] "e"
           false false 1 predictions Ep).
Defined.

Lemma scatter_nth_error :
  forall (V : Type) (set : V -> Predict.out -> Predict.out) (pred : list V)
         (predictions out : list Predict.out),
    Predict.scatter set 0 (Some pred) predictions = Ok out ->
    forall k, nth_error out k
              = match nth_error pred k with
                | Some v => option_map (set v) (nth_error predictions k)
                | None => nth_error predictions k
                end.
Proof.
  intros V set pred predictions out H. cbn [Predict.scatter] in H. unfold enumerate in H.
  assert (Hgen : forall (pred : list V) (i : nat) (predictions out : list Predict.out),
             foldM (fun predictions iv =>
                      Predict.setitem predictions (0 + Z.of_nat (fst iv)) (set (snd iv)))
                   (combine (seq i (length pred)) pred) predictions = Ok out ->
             forall k, nth_error out k
                       = if (k <? i)%nat then nth_error predictions k
                         else match nth_error pred (k - i) with
                              | Some v => option_map (set v) (nth_error predictions k)
                              | None => nth_error predictions k
                              end).
  { clear. induction pred as [| v pred IH]; intros i predictions out H k;
      cbn [length seq combine foldM] in H.
    - injection H as <-. destruct (k <? i)%nat; [reflexivity | ].
      destruct (k - i)%nat; reflexivity.
    - bind_inv H. rename a into ps1. cbn [fst snd] in E.
      unfold Predict.setitem in E. cbv zeta in E.
      destruct (0 + Z.of_nat i <? 0)%Z eqn:Hneg; [apply Z.ltb_lt in Hneg; lia | ].
      destruct (_ && _)%bool; [ | discriminate E]. injection E as <-.
      cbn [Z.add] in H. rewrite Nat2Z.id in H.
      rewrite (IH _ _ _ H k), !update_nth_error.
      destruct (Nat.ltb_spec k (S i)) as [Hlt | Hge].
      + destruct (Nat.eqb_spec k i) as [-> | Hne].
        * rewrite Nat.ltb_irrefl, Nat.sub_diag. reflexivity.
        * destruct (Nat.ltb_spec k i); [reflexivity | lia].
      + destruct (Nat.eqb_spec k i) as [-> | Hne]; [lia | ].
        destruct (Nat.ltb_spec k i); [lia | ].
        replace (k - i)%nat with (S (k - S i)) by lia. reflexivity. }
  intros k. rewrite (Hgen _ _ _ _ H k). cbn [Nat.ltb Nat.leb].
  rewrite Nat.sub_0_r. reflexivity.
Qed.

Section Scatter.
Variables (V W : Type) (set : V -> Predict.out -> Predict.out)
          (proj : Predict.out -> option W).

(** A key that [set] does not assign keeps its value. *)
Lemma scatter_keeps :
  forall (pred : option (list V)) (predictions out : list Predict.out),
    (forall v o, proj (set v o) = proj o) ->
    Predict.scatter set 0 pred predictions = Ok out ->
    forall k, proj (nth k out Predict.empty) = proj (nth k predictions Predict.empty).
Proof.
  intros [pred | ] predictions out Hset H k;
    [ | cbn in H; injection H as <-; reflexivity].
  pose proof (scatter_length _ _ _ _ H) as Hlen.
  pose proof (scatter_nth_error _ _ _ H k) as Hk.
  destruct (Nat.lt_ge_cases k (length predictions)) as [Hlt | Hge].
  - rewrite (nth_error_nth' out Predict.empty) in Hk by lia.
    rewrite (nth_error_nth' predictions Predict.empty) in Hk by lia.
    destruct (nth_error pred k) as [v | ]; cbn [option_map] in Hk;
      injection Hk as ->; [apply Hset | reflexivity].
  - rewrite !nth_overflow by lia. reflexivity.
Qed.

(** The key that [set] assigns, on dictionaries that do not have it yet. *)
Lemma scatter_entry :
  forall (set' : W -> Predict.out -> Predict.out) (pred : option (list W))
         (predictions out : list Predict.out),
    (forall v o, proj (set' v o) = Some v) ->
    (forall k, proj (nth k predictions Predict.empty) = None) ->
    Predict.scatter set' 0 pred predictions = Ok out ->
    forall k, (k < length predictions)%nat ->
              proj (nth k out Predict.empty) = entry pred k.
Proof.
  intros set' [pred | ] predictions out Hset Hnone H k Hlt;
    [ | cbn in H; injection H as <-; apply Hnone].
  pose proof (scatter_length _ _ _ _ H) as Hlen.
  pose proof (scatter_nth_error _ _ _ H k) as Hk.
  rewrite (nth_error_nth' out Predict.empty) in Hk by lia.
  rewrite (nth_error_nth' predictions Predict.empty) in Hk by lia.
  cbn [entry].
  destruct (nth_error pred k) as [v | ]; cbn [option_map] in Hk; injection Hk as ->;
    [apply Hset | apply Hnone].
Qed.

End Scatter.

Lemma slice_all : forall (A : Type) (x : list A) (b : Z),
  (Tensor.len x <= b)%Z -> CHGNet.slice x 0 b = x.
Proof.
  intros A x b Hb. pose proof (len_nonneg x) as Hx. unfold CHGNet.slice. cbv zeta.
  cbn [Z.ltb Z.compare].
  destruct (b <? 0)%Z eqn:Hneg; [apply Z.ltb_lt in Hneg; lia | ].
  rewrite Z.min_r by lia. rewrite Z.min_l by lia. rewrite Z.sub_0_r.
  cbn [Z.to_nat skipn]. unfold Tensor.len. rewrite Nat2Z.id. apply firstn_all.
Qed.

Lemma ceil_div_one : forall a b : Z,
  (0 < a <= b)%Z -> Predict.ceil_div a b = 1%Z.
Proof.
  intros a b H. unfold Predict.ceil_div.
  assert (Hq : ((- a) / b = -1)%Z).
  { symmetry. apply (Z.div_unique_pos (- a) b (-1) (b - a)); lia. }
  rewrite Hq. reflexivity.
Qed.





(** *** Batches *)

Lemma update_nth : forall (l : list Predict.out) (j k : nat)
    (g : Predict.out -> Predict.out),
  nth k (Predict.update l j g) Predict.empty
  = if ((k =? j) && (k <? length l))%nat then g (nth k l Predict.empty)
    else nth k l Predict.empty.
Proof.
  induction l as [| x l IH]; intros [| j] [| k] g;
    cbn [Predict.update nth Nat.eqb Nat.ltb Nat.leb length andb]; try reflexivity.
  - rewrite andb_false_r. reflexivity.
  - rewrite IH. reflexivity.
Qed.

Section ScatterAt.
Variables (V W : Type) (proj : Predict.out -> option W).

(** The effect of one assignment loop on a key, at any base. *)
Lemma scatter_at :
  forall (set : V -> Predict.out -> Predict.out) (B : nat) (pred : list V)
         (predictions out : list Predict.out),
    Predict.scatter set (Z.of_nat B) (Some pred) predictions = Ok out ->
    (B + length pred <= length predictions \/ pred = [])%nat
    /\ forall k,
         nth k out Predict.empty
         = match (if (B <=? k)%nat then nth_error pred (k - B) else None) with
           | Some v => set v (nth k predictions Predict.empty)
           | None => nth k predictions Predict.empty
           end.
Proof.
  intros set B pred predictions out H. cbn [Predict.scatter] in H. unfold enumerate in H.
  assert (Hgen : forall (pred : list V) (i : nat) (predictions out : list Predict.out),
             foldM (fun predictions iv =>
                      Predict.setitem predictions (Z.of_nat B + Z.of_nat (fst iv))
                        (set (snd iv)))
                   (combine (seq i (length pred)) pred) predictions = Ok out ->
             length out = length predictions
             /\ (B + i + length pred <= length predictions \/ pred = [])%nat
             /\ forall k,
                  nth k out Predict.empty
                  = match (if (B + i <=? k)%nat then nth_error pred (k - (B + i))
                           else None) with
                    | Some v => set v (nth k predictions Predict.empty)
                    | None => nth k predictions Predict.empty
                    end).
  { clear. induction pred as [| v pred IH]; intros i predictions out H;
      cbn [length seq combine foldM] in H.
    - injection H as <-. split; [reflexivity | ]. split; [right; reflexivity | ].
      intros k. destruct (B + i <=? k)%nat; [ | reflexivity].
      destruct (k - (B + i))%nat; reflexivity.
    - bind_inv H. rename a into ps1. cbn [fst snd] in E.
      unfold Predict.setitem in E. cbv zeta in E.
      destruct (Z.of_nat B + Z.of_nat i <? 0)%Z eqn:Hneg;
        [apply Z.ltb_lt in Hneg; lia | ].
      destruct (_ && _)%bool eqn:Hin; [ | discriminate E]. injection E as <-.
      apply andb_true_iff in Hin. destruct Hin as [_ Hin]. apply Z.ltb_lt in Hin.
      unfold Tensor.len in Hin.
      replace (Z.to_nat (Z.of_nat B + Z.of_nat i)) with (B + i)%nat in H by lia.
      apply IH in H. destruct H as (Hlen & Hrange & Hnth).
      rewrite update_length in Hlen, Hrange.
      split; [exact Hlen | ]. split.
      { left. cbn [length]. destruct Hrange as [Hr | ->]; cbn [length]; lia. }
      intros k. rewrite Hnth, !update_nth.
      replace (B + S i)%nat with (S (B + i)) by lia.
      destruct (Nat.leb_spec (S (B + i)) k) as [Hgt | Hle].
      + destruct (Nat.leb_spec (B + i) k); [ | lia].
        replace (k - (B + i))%nat with (S (k - S (B + i))) by lia. cbn [nth_error].
        destruct (Nat.eqb_spec k (B + i)); [lia | ]. cbn [andb]. reflexivity.
      + destruct (Nat.eqb_spec k (B + i)) as [-> | Hne].
        * rewrite Nat.leb_refl, Nat.sub_diag. cbn [nth_error].
          destruct (Nat.ltb_spec (B + i) (length predictions)); [reflexivity | lia].
        * cbn [andb]. destruct (Nat.leb_spec (B + i) k); [lia | reflexivity]. }
  specialize (Hgen pred 0%nat predictions out).
  rewrite !Nat.add_0_r in Hgen.
  destruct (Hgen H) as (_ & Hrange & Hnth). split; assumption.
Qed.

(** A key that [set] does not assign keeps its value, at any base. *)
Lemma scatter_keeps_at :
  forall (set : V -> Predict.out -> Predict.out) (B : nat) (pred : option (list V))
         (predictions out : list Predict.out),
    (forall v o, proj (set v o) = proj o) ->
    Predict.scatter set (Z.of_nat B) pred predictions = Ok out ->
    forall k, proj (nth k out Predict.empty) = proj (nth k predictions Predict.empty).
Proof.
  intros set B [pred | ] predictions out Hset H k;
    [ | cbn in H; injection H as <-; reflexivity].
  apply scatter_at in H. destruct H as [_ Hnth]. rewrite Hnth.
  destruct (if (B <=? k)%nat then nth_error pred (k - B) else None);
    [apply Hset | reflexivity].
Qed.

End ScatterAt.

(** The key that [set] assigns, at any base: entries [B], [B + 1], ... of
    the list get the entries of the key, the others keep what they had. *)
Lemma scatter_entry_at :
  forall (W : Type) (proj : Predict.out -> option W)
         (set : W -> Predict.out -> Predict.out) (B : nat) (pred : option (list W))
         (predictions out : list Predict.out),
    (forall v o, proj (set v o) = Some v) ->
    Predict.scatter set (Z.of_nat B) pred predictions = Ok out ->
    forall k,
      proj (nth k out Predict.empty)
      = match (if (B <=? k)%nat then entry pred (k - B) else None) with
        | Some v => Some v
        | None => proj (nth k predictions Predict.empty)
        end.
Proof.
  intros W proj set B [pred | ] predictions out Hset H k; cbn [entry].
  - apply scatter_at in H. destruct H as [_ Hnth]. rewrite Hnth.
    destruct (if (B <=? k)%nat then nth_error pred (k - B) else None);
      [apply Hset | reflexivity].
  - cbn in H. injection H as <-. destruct (B <=? k)%nat; reflexivity.
Qed.

Section Batches.
Context {autograd : Autograd}.
Variables (self : CHGNet.t) (graphs : list Crystal_Graph.t) (task : string)
          (raf rcf : bool) (b : nat).
Hypothesis b_pos : (0 < b)%nat.

(** The forward pass of batch [n]. *)
Let pass (n : nat) : result CHGNet.prediction :=
  CHGNet.forward self
    (CHGNet.slice graphs (Z.of_nat b * Z.of_nat n) (Z.of_nat b * (Z.of_nat n + 1)))
    task raf rcf.

(** One iteration of the loop over the batches: the forward pass of batch
    [n] is laid over the dictionaries from position [n * b] on. *)
Lemma predict_batch_at :
  forall (n : nat) (predictions out : list Predict.out),
    Predict.predict_batch self graphs task raf rcf (Z.of_nat b) predictions n = Ok out ->
    length out = length predictions
    /\ exists p,
         pass n = Ok p
         /\ forall k,
              let w := fun (W : Type) (pred : option (list W)) =>
                         if (n * b <=? k)%nat then entry pred (k - n * b) else None in
              let old := nth k predictions Predict.empty in
              let new := nth k out Predict.empty in
              Predict.e new = or_else (w R (Some (CHGNet.e p))) (Predict.e old)
              /\ Predict.f new = or_else (w _ (CHGNet.f p)) (Predict.f old)
              /\ Predict.s new = or_else (w _ (CHGNet.s p)) (Predict.s old)
              /\ Predict.m new = or_else (w _ (CHGNet.m p)) (Predict.m old)
              /\ Predict.atom_fea new
                 = or_else (w _ (CHGNet.atom_fea p)) (Predict.atom_fea old)
              /\ Predict.crystal_fea new
                 = or_else (w _ (CHGNet.crystal_fea p)) (Predict.crystal_fea old).
Proof.
  intros n predictions out H.
  split; [exact (predict_batch_length _ _ _ _ _ _ _ _ H) | ].
  unfold Predict.predict_batch in H. cbv zeta in H. fold (pass n) in H.
  destruct (pass n) as [p | err]; cbn [bind] in H; [ | discriminate H].
  exists p. split; [reflexivity | ].
  replace (Z.of_nat n * Z.of_nat b)%Z with (Z.of_nat (n * b)) in H by lia.
  bind_inv H. rename a into ps1, a0 into ps2, a1 into ps3, a2 into ps4, a3 into ps5.
  intros k w old new. unfold w, old, new, or_else. repeat split.
  - rewrite (@scatter_entry_at _ Predict.e Predict.set_e _ _ ps5 out
               ltac:(reflexivity) H).
    rewrite (@scatter_keeps_at _ _ Predict.e Predict.set_s _ _ ps4 ps5
               ltac:(reflexivity) E3),
            (@scatter_keeps_at _ _ Predict.e Predict.set_f _ _ ps3 ps4
               ltac:(reflexivity) E2),
            (@scatter_keeps_at _ _ Predict.e Predict.set_crystal_fea _ _ ps2 ps3
               ltac:(reflexivity) E1),
            (@scatter_keeps_at _ _ Predict.e Predict.set_m _ _ ps1 ps2
               ltac:(reflexivity) E0),
            (@scatter_keeps_at _ _ Predict.e Predict.set_atom_fea _ _ predictions ps1
               ltac:(reflexivity) E).
    reflexivity.
  - rewrite (@scatter_keeps_at _ _ Predict.f Predict.set_e _ _ ps5 out
               ltac:(reflexivity) H),
            (@scatter_keeps_at _ _ Predict.f Predict.set_s _ _ ps4 ps5
               ltac:(reflexivity) E3),
            (@scatter_entry_at _ Predict.f Predict.set_f _ _ ps3 ps4
               ltac:(reflexivity) E2),
            (@scatter_keeps_at _ _ Predict.f Predict.set_crystal_fea _ _ ps2 ps3
               ltac:(reflexivity) E1),
            (@scatter_keeps_at _ _ Predict.f Predict.set_m _ _ ps1 ps2
               ltac:(reflexivity) E0),
            (@scatter_keeps_at _ _ Predict.f Predict.set_atom_fea _ _ predictions ps1
               ltac:(reflexivity) E).
    reflexivity.
  - rewrite (@scatter_keeps_at _ _ Predict.s Predict.set_e _ _ ps5 out
               ltac:(reflexivity) H),
            (@scatter_entry_at _ Predict.s Predict.set_s _ _ ps4 ps5
               ltac:(reflexivity) E3),
            (@scatter_keeps_at _ _ Predict.s Predict.set_f _ _ ps3 ps4
               ltac:(reflexivity) E2),
            (@scatter_keeps_at _ _ Predict.s Predict.set_crystal_fea _ _ ps2 ps3
               ltac:(reflexivity) E1),
            (@scatter_keeps_at _ _ Predict.s Predict.set_m _ _ ps1 ps2
               ltac:(reflexivity) E0),
            (@scatter_keeps_at _ _ Predict.s Predict.set_atom_fea _ _ predictions ps1
               ltac:(reflexivity) E).
    reflexivity.
  - rewrite (@scatter_keeps_at _ _ Predict.m Predict.set_e _ _ ps5 out
               ltac:(reflexivity) H),
            (@scatter_keeps_at _ _ Predict.m Predict.set_s _ _ ps4 ps5
               ltac:(reflexivity) E3),
            (@scatter_keeps_at _ _ Predict.m Predict.set_f _ _ ps3 ps4
               ltac:(reflexivity) E2),
            (@scatter_keeps_at _ _ Predict.m Predict.set_crystal_fea _ _ ps2 ps3
               ltac:(reflexivity) E1),
            (@scatter_entry_at _ Predict.m Predict.set_m _ _ ps1 ps2
               ltac:(reflexivity) E0),
            (@scatter_keeps_at _ _ Predict.m Predict.set_atom_fea _ _ predictions ps1
               ltac:(reflexivity) E).
    reflexivity.
  - rewrite (@scatter_keeps_at _ _ Predict.atom_fea Predict.set_e _ _ ps5 out
               ltac:(reflexivity) H),
            (@scatter_keeps_at _ _ Predict.atom_fea Predict.set_s _ _ ps4 ps5
               ltac:(reflexivity) E3),
            (@scatter_keeps_at _ _ Predict.atom_fea Predict.set_f _ _ ps3 ps4
               ltac:(reflexivity) E2),
            (@scatter_keeps_at _ _ Predict.atom_fea Predict.set_crystal_fea _ _ ps2 ps3
               ltac:(reflexivity) E1),
            (@scatter_keeps_at _ _ Predict.atom_fea Predict.set_m _ _ ps1 ps2
               ltac:(reflexivity) E0),
            (@scatter_entry_at _ Predict.atom_fea Predict.set_atom_fea _ _
               predictions ps1 ltac:(reflexivity) E).
    reflexivity.
  - rewrite (@scatter_keeps_at _ _ Predict.crystal_fea Predict.set_e _ _ ps5 out
               ltac:(reflexivity) H),
            (@scatter_keeps_at _ _ Predict.crystal_fea Predict.set_s _ _ ps4 ps5
               ltac:(reflexivity) E3),
            (@scatter_keeps_at _ _ Predict.crystal_fea Predict.set_f _ _ ps3 ps4
               ltac:(reflexivity) E2),
            (@scatter_entry_at _ Predict.crystal_fea Predict.set_crystal_fea _ _
               ps2 ps3 ltac:(reflexivity) E1),
            (@scatter_keeps_at _ _ Predict.crystal_fea Predict.set_m _ _ ps1 ps2
               ltac:(reflexivity) E0),
            (@scatter_keeps_at _ _ Predict.crystal_fea Predict.set_atom_fea _ _
               predictions ps1 ltac:(reflexivity) E).
    reflexivity.
Qed.

Lemma out_eta : forall o : Predict.out,
  o = Predict.mk_out (Predict.e o) (Predict.f o) (Predict.s o) (Predict.m o)
        (Predict.atom_fea o) (Predict.crystal_fea o).
Proof. intros []. reflexivity. Qed.

Lemma entry_beyond : forall (W : Type) (n : Z) (pred : option (list W)) (i : nat),
  at_most n pred = true -> (n <= Z.of_nat i)%Z -> entry pred i = None.
Proof.
  intros W n [pred | ] i H Hi; [ | reflexivity]. cbn [at_most] in H. cbn [entry].
  apply Z.leb_le in H. unfold Tensor.len in H. apply nth_error_None. lia.
Qed.

Hypothesis passes_fit :
  forall n p, (n * b < length graphs)%nat -> pass n = Ok p -> fits (Z.of_nat b) p = true.

(** The loop over the batches, from batch [n] on. Before batch [n] the
    dictionaries from [n * b] on are empty and those below hold the entries
    of their batches; this is so after the loop for the batches run. *)
Lemma fold_predict_batch :
  forall (cnt n : nat) (predictions out : list Predict.out),
    foldM (Predict.predict_batch self graphs task raf rcf (Z.of_nat b))
          (seq n cnt) predictions = Ok out ->
    ((n + cnt - 1) * b < length graphs \/ cnt = 0)%nat ->
    length predictions = length graphs ->
    (forall k, (n * b <= k)%nat -> nth k predictions Predict.empty = Predict.empty) ->
    (forall k, (k < n * b)%nat -> (k < length graphs)%nat ->
               exists p, pass (k / b) = Ok p
                         /\ nth k predictions Predict.empty = out_of p (k mod b)) ->
    length out = length graphs
    /\ (forall k, ((n + cnt) * b <= k)%nat -> nth k out Predict.empty = Predict.empty)
    /\ (forall k, (k < (n + cnt) * b)%nat -> (k < length graphs)%nat ->
                  exists p, pass (k / b) = Ok p
                            /\ nth k out Predict.empty = out_of p (k mod b)).
Proof.
  induction cnt as [| cnt IH]; intros n predictions out H Hsteps Hlen Hrest Hdone;
    cbn [seq foldM] in H.
  - injection H as <-. rewrite Nat.add_0_r. auto.
  - bind_inv H. rename a into ps1.
    destruct (predict_batch_at _ _ E) as (Hlen1 & p & Hp & Hk).
    assert (Hn : (n * b < length graphs)%nat) by (destruct Hsteps as [Hs | Hs]; nia).
    pose proof (@passes_fit n p Hn Hp) as Hfit. unfold fits in Hfit.
    repeat (apply andb_true_iff in Hfit; destruct Hfit as [Hfit ?]).
    apply Z.leb_le in Hfit. unfold Tensor.len in Hfit.
    replace (n + S cnt)%nat with (S n + cnt)%nat by lia.
    apply (IH (S n) ps1 out H).
    + destruct cnt; [right; reflexivity | left].
      destruct Hsteps as [Hs | Hs]; [ | discriminate Hs].
      replace (S n + S cnt - 1)%nat with (n + S (S cnt) - 1)%nat by lia. exact Hs.
    + congruence.
    + intros k Hge. specialize (Hk k). cbv zeta in Hk.
      assert (Hge' : (n * b <= k)%nat) by nia.
      rewrite (Hrest k Hge') in Hk.
      destruct (Nat.leb_spec (n * b) k); [ | lia].
      assert (Hi : (Z.of_nat b <= Z.of_nat (k - n * b))%Z) by nia.
      assert (He0 : at_most (Z.of_nat b) (Some (CHGNet.e p)) = true)
        by (apply Z.leb_le; exact Hfit).
      assert (Hnone : forall (W : Type) (pred : option (list W)),
                 at_most (Z.of_nat b) pred = true -> entry pred (k - n * b) = None)
        by (intros W pred Hpred; exact (@entry_beyond W _ pred _ Hpred Hi)).
      rewrite !Hnone in Hk by assumption.
      cbn [or_else Predict.empty Predict.e Predict.f Predict.s Predict.m
             Predict.atom_fea Predict.crystal_fea] in Hk.
      destruct Hk as (He & Hf & Hs & Hm & Ha & Hc).
      rewrite (out_eta (nth k ps1 Predict.empty)), He, Hf, Hs, Hm, Ha, Hc.
      reflexivity.
    + intros k Hlt Hk_in. specialize (Hk k). cbv zeta in Hk.
      destruct (Nat.leb_spec (n * b) k) as [Hge | Hbelow].
      * assert (Hq : (k / b = n)%nat).
        { symmetry. apply (Nat.div_unique k b n (k - n * b)); nia. }
        assert (Hr : (k mod b = k - n * b)%nat).
        { symmetry. apply (Nat.mod_unique k b n (k - n * b)); nia. }
        rewrite Hq, Hr. exists p. split; [exact Hp | ].
        rewrite (Hrest k Hge) in Hk.
        destruct Hk as (He & Hf & Hs & Hm & Ha & Hc).
        rewrite (out_eta (nth k ps1 Predict.empty)), He, Hf, Hs, Hm, Ha, Hc.
        unfold out_of, or_else. cbn [entry Predict.empty Predict.e Predict.f Predict.s
          Predict.m Predict.atom_fea Predict.crystal_fea].
        f_equal;
          match goal with
          | |- match ?x with _ => _ end = _ => destruct x; reflexivity
          end.
      * destruct (Hdone k Hbelow Hk_in) as (p0 & Hp0 & Hnth0).
        exists p0. split; [exact Hp0 | ]. rewrite <- Hnth0.
        destruct Hk as (He & Hf & Hs & Hm & Ha & Hc).
        rewrite (out_eta (nth k ps1 Predict.empty)), He, Hf, Hs, Hm, Ha, Hc.
        cbn [or_else]. symmetry. apply out_eta.
Qed.

End Batches.

Lemma ceil_div_steps : forall (N b : nat),
  (0 < b)%nat ->
  let steps := Z.to_nat (Predict.ceil_div (Z.of_nat N) (Z.of_nat b)) in
  (N <= steps * b)%nat /\ ((steps - 1) * b < N \/ steps = 0)%nat.
Proof.
  intros N b Hb steps. subst steps. unfold Predict.ceil_div.
  pose proof (Z.div_mod (- Z.of_nat N) (Z.of_nat b) ltac:(lia)) as Hdm.
  pose proof (Z.mod_pos_bound (- Z.of_nat N) (Z.of_nat b) ltac:(lia)) as Hr.
  set (q := (- Z.of_nat N / Z.of_nat b)%Z) in *.
  set (r := (- Z.of_nat N mod Z.of_nat b)%Z) in *.
  assert (Hq : (q <= 0)%Z) by nia.
  split.
  - apply Nat2Z.inj_le. rewrite Nat2Z.inj_mul, Z2Nat.id by lia. nia.
  - destruct (Z.eq_dec q 0) as [-> | Hne]; [right; reflexivity | left].
    apply Nat2Z.inj_lt. rewrite Nat2Z.inj_mul, Nat2Z.inj_sub by lia.
    rewrite Z2Nat.id by lia. nia.
Qed.



(** ** CHGNetCalculator.calculate *)

Section Calculator.
Context {basis : Basis} {layers : Layers} {params : Parameters} {autograd : Autograd}
        {structures : Structures}.

Lemma forward_intensive_and_extensive :
  forall (self : CHGNet.t) (graphs : list Crystal_Graph.t) (task : string)
         (raf rcf : bool) (p : CHGNet.prediction),
    CHGNet.composition_model self = None ->
    CHGNet.is_intensive self = true ->
    CHGNet.forward self graphs task raf rcf = Ok p ->
    exists energy per_atom,
      CHGNet.forward (with_is_intensive false self) graphs task raf rcf
      = Ok (CHGNet.mk_prediction (CHGNet.atoms_per_graph p) (CHGNet.atom_fea p)
              (CHGNet.m p) (CHGNet.crystal_fea p) (CHGNet.f p) (CHGNet.s p)
              (map (fun x => x + 0) energy))
      /\ Tensor.broadcast2 Rdiv energy (map INR (CHGNet.atoms_per_graph p)) = Ok per_atom
      /\ CHGNet.e p = map (fun x => x + 0) per_atom.
Proof.
  intros self graphs task raf rcf p Hcomp Hint H.
  unfold CHGNet.forward in *.
  cbn [with_is_intensive CHGNet.composition_model CHGNet.bond_basis_expansion
       CHGNet.angle_basis_expansion].
  rewrite Hcomp in *. cbn [bind] in *.
  destruct (BatchedGraph.from_graphs _ _ _ _) as [g | err]; cbn [bind] in *;
    [ | discriminate H].
  unfold CHGNet._compute in *.
  rewrite readout_with_is_intensive, !energy_sum_with_is_intensive.
  change (CHGNet.recorded (with_is_intensive false self))
    with (CHGNet.recorded self).
  destruct (CHGNet.readout self g _ _ _) as [[[st crystal] energy] | err];
    cbn [bind] in *; [ | discriminate H].
  destruct (if CHGNet.contains "f" task then _ else _) as [force | err];
    cbn [bind] in *; [ | discriminate H].
  destruct (if CHGNet.contains "s" task then _ else _) as [stress | err];
    cbn [bind] in *; [ | discriminate H].
  cbn [with_is_intensive CHGNet.is_intensive]. rewrite Hint in H.
  destruct (Tensor.broadcast2 Rdiv energy _) as [per_atom | err] eqn:Ediv;
    cbn [bind CHGNet.e CHGNet.add_comp_energy] in *; [ | discriminate H].
  injection H as <-.
  cbn [CHGNet.atoms_per_graph CHGNet.atom_fea CHGNet.m CHGNet.crystal_fea CHGNet.f
       CHGNet.s CHGNet.e].
  exists energy, per_atom. repeat split. exact Ediv.
Qed.

Lemma forward_atoms_of_one_graph :
  forall (self : CHGNet.t) (graph : Crystal_Graph.t) (task : string)
         (raf rcf : bool) (p : CHGNet.prediction),
    Crystal_Graph.atomic_number graph <> [] ->
    CHGNet.forward self [graph] task raf rcf = Ok p ->
    CHGNet.atoms_per_graph p = [length (Crystal_Graph.atomic_number graph)].
Proof.
  intros self graph task raf rcf p Hne H.
  apply forward_inv in H.
  destruct H as (g & p0 & comp & Hg & Hc & _ & _ & Hapg & _).
  apply compute_inv in Hc. destruct Hc as (st & crystal & energy & _ & Hapg0 & _).
  unfold BatchedGraph.from_graphs in Hg. apply from_graphs_at_inv in Hg.
  destruct Hg as (_ & _ & _ & _ & _ & _ & _ & _ & Hown).
  rewrite Hapg, Hapg0, Hown.
  apply (@owners_bincount_full [graph]). constructor; [exact Hne | constructor].
Qed.

End Calculator.



Section CalculatorStress.
Context {autograd : Autograd}.

Lemma from_graphs_volume_of_one_graph : forall graph bbe abe cs g,
  BatchedGraph.from_graphs [graph] bbe abe cs = Ok g ->
  BatchedGraph.volumes g = [Tensor.det (Crystal_Graph.lattice graph)]
  /\ BatchedGraph.strains g = [if cs then Some Tensor.zeros3 else None].
Proof.
  intros graph bbe abe cs g H.
  unfold BatchedGraph.from_graphs in H. apply from_graphs_at_inv in H.
  destruct H as (_ & _ & _ & Hstr & Hvol & _).
  rewrite Hstr, Hvol. cbn [enumerate length seq combine map fst snd].
  rewrite lattice_of_zero_strain by reflexivity. split; reflexivity.
Qed.

End CalculatorStress.



(** X27: the calculator needs a model of at least two convolution blocks.
    It predicts with the task ["efsm"] and reads the key ["m"]; a model
    with one block returns no magnetic moments, so the calculator raises
    [KeyError] on ["m"] as soon as the prediction itself returns, and never
    returns results. *)
Theorem calculator_fails_on_a_model_with_one_block :
  forall (basis : Basis) (layers : Layers) (params : Parameters) (autograd : Autograd)
         (structures : Structures) (args : ModelArgs.t) (self : CHGNetCalculator.t)
         (structure : Structure),
    CHGNet.__init__ args = Ok (CHGNetCalculator.model self) ->
    (ModelArgs.n_conv args <= 1)%Z ->
    (forall r, CHGNetCalculator.calculate self structure <> Predict.Return r)
    /\ (forall graph out,
           Predict.graph_converter (CHGNetCalculator.model self) structure
           = Ok graph ->
           Predict.predict_graph (CHGNetCalculator.model self) (Predict.One graph)
             "efsm" false false 100 = Predict.Return (inl out) ->
           CHGNetCalculator.calculate self structure
           = Predict.Throw (Predict.KeyError "m")).
Proof.
  intros basis layers params autograd structures args [model w] structure Hinit Hn.
  cbn [CHGNetCalculator.model] in *.
  assert (Hkey : forall graph out,
             Predict.graph_converter model structure = Ok graph ->
             Predict.predict_graph model (Predict.One graph) "efsm" false false 100
             = Predict.Return (inl out) ->
             CHGNetCalculator.calculate (CHGNetCalculator.mk model w) structure
             = Predict.Throw (Predict.KeyError "m")).
  { intros graph out Hconv Hp.
    unfold CHGNetCalculator.calculate. cbn [CHGNetCalculator.model].
    rewrite Hconv. cbn [Predict.lift Predict.and_then]. rewrite Hp.
    cbn [Predict.and_then]. cbn [Predict.predict_graph] in Hp.
    unfold Predict.predict_one in Hp.
    destruct (CHGNet.forward model [graph] "efsm" false false) as [p | err] eqn:Ef;
      cbn [Predict.lift Predict.and_then] in Hp; [ | discriminate Hp].
    pose proof (no_magnetic_moments_below_two_blocks _ _ _ _ _ Hinit Hn Ef) as Hm.
    rewrite Hm in Hp.
    apply forward_inv in Ef.
    destruct Ef as (g & p0 & comp & _ & Hc & _ & _ & _ & _ & _ & _ & Hf & _).
    apply compute_inv in Hc.
    destruct Hc as (st & crystal & energy & _ & _ & _ & _ & _ & Hf0 & _).
    change (CHGNet.contains "f" "efsm") with true in Hf0. cbv iota in Hf0.
    destruct Hf0 as (grads & _ & Hfp). rewrite Hf, Hfp in Hp.
    destruct (Predict.the_only (CHGNet.atom_fea p)) as [af | err];
      cbn [Predict.lift Predict.and_then Predict.the_only] in Hp; [ | discriminate Hp].
    destruct (map CHGNet.neg_rows grads) as [| fv [| fv' fs]];
      cbn [Predict.lift Predict.and_then Predict.the_only] in Hp; try discriminate Hp.
    destruct (Predict.the_only (CHGNet.s p)) as [s | err];
      cbn [Predict.lift Predict.and_then] in Hp; [ | discriminate Hp].
    destruct (Predict.item (CHGNet.e p)) as [e | err];
      cbn [Predict.and_then] in Hp; [ | discriminate Hp].
    injection Hp as <-. reflexivity. }
  split; [ | exact Hkey].
  intros r H.
  destruct (Predict.graph_converter model structure) as [graph | err] eqn:Hconv.
  - destruct (Predict.predict_graph model (Predict.One graph) "efsm" false false 100)
      as [[out | outs] | err] eqn:Hp.
    + rewrite (Hkey graph out eq_refl Hp) in H. discriminate H.
    + unfold CHGNetCalculator.calculate in H. cbn [CHGNetCalculator.model] in H.
      rewrite Hconv in H. cbn [Predict.lift Predict.and_then] in H.
      rewrite Hp in H. discriminate H.
    + unfold CHGNetCalculator.calculate in H. cbn [CHGNetCalculator.model] in H.
      rewrite Hconv in H. cbn [Predict.lift Predict.and_then] in H.
      rewrite Hp in H. discriminate H.
  - unfold CHGNetCalculator.calculate in H. cbn [CHGNetCalculator.model] in H.
    rewrite Hconv in H. discriminate H.
Qed.

Lemma calculator_fails_on_a_model_with_one_block_witness :
  exists self,
    @CHGNet.__init__ Example.basis Example.layers Example.params (Example.args_n_conv 1)
      = Ok self
    /\ (forall r,
           @CHGNetCalculator.calculate Example.autograd ExampleStructures.structures
             (CHGNetCalculator.mk self CHGNetCalculator.stress_weight_default)
             Example.trimer <> Predict.Return r).
Proof.
  destruct (@CHGNet.__init__ Example.basis Example.layers Example.params
              (Example.args_n_conv 1)) as [self | err] eqn:E;
    [ | run_in E; discriminate E].
  exists self. split; [reflexivity | ].
  apply (@calculator_fails_on_a_model_with_one_block Example.basis Example.layers
           Example.params Example.autograd ExampleStructures.structures
           (Example.args_n_conv 1)
           (CHGNetCalculator.mk self CHGNetCalculator.stress_weight_default)
           Example.trimer E).
  cbn. lia.
Defined.

(** ** TrajectoryObserver *)

Lemma observer_call_appends : forall self atoms self',
  TrajectoryObserver.__call__ self atoms = (self', None) ->
  exists energy f s m,
    TrajectoryObserver.get_potential_energy atoms = Predict.Return energy
    /\ TrajectoryObserver.get_forces atoms = Predict.Return f
    /\ TrajectoryObserver.get_stress atoms = Predict.Return s
    /\ TrajectoryObserver.get_magnetic_moments atoms = Predict.Return m
    /\ self' = TrajectoryObserver.mk
                 (TrajectoryObserver.energies self ++ [energy])
                 (TrajectoryObserver.forces self ++ [f])
                 (TrajectoryObserver.stresses self ++ [s])
                 (TrajectoryObserver.magmoms self ++ [m])
                 (TrajectoryObserver.atom_positions self
                    ++ [TrajectoryObserver.get_positions atoms])
                 (TrajectoryObserver.cells self ++ [TrajectoryObserver.get_cell atoms]).
Proof.
  intros self atoms self' H. unfold TrajectoryObserver.__call__ in H.
  unfold TrajectoryObserver.compute_energy in H.
  destruct (TrajectoryObserver.get_potential_energy atoms) as [energy | e];
    [ | discriminate H].
  destruct (TrajectoryObserver.get_forces atoms) as [f | e]; [ | discriminate H].
  destruct (TrajectoryObserver.get_stress atoms) as [s | e]; [ | discriminate H].
  destruct (TrajectoryObserver.get_magnetic_moments atoms) as [m | e];
    [ | discriminate H].
  cbn in H. injection H as <-.
  exists energy, f, s, m. repeat split.
Qed.

(** X28: the six lists of a trajectory observer advance together. After a
    run of calls none of which raised, started from a new observer, every
    list has one entry per call, and entry [k] of each list is what the
    observed object gave at call [k]: its energy, forces, stress and
    magnetic moments, its positions and its cell. *)
Theorem trajectory_observer_lists_advance_together :
  forall (states : list TrajectoryObserver.Atoms) (self : TrajectoryObserver.t),
    TrajectoryObserver.observe TrajectoryObserver.__init__ states = (self, None) ->
    map TrajectoryObserver.get_potential_energy states
    = map Predict.Return (TrajectoryObserver.energies self)
    /\ map TrajectoryObserver.get_forces states
       = map Predict.Return (TrajectoryObserver.forces self)
    /\ map TrajectoryObserver.get_stress states
       = map Predict.Return (TrajectoryObserver.stresses self)
    /\ map TrajectoryObserver.get_magnetic_moments states
       = map Predict.Return (TrajectoryObserver.magmoms self)
    /\ map TrajectoryObserver.get_positions states
       = TrajectoryObserver.atom_positions self
    /\ map TrajectoryObserver.get_cell states = TrajectoryObserver.cells self.
Proof.
  intros states self H.
  assert (Hgen : forall states start self,
             TrajectoryObserver.observe start states = (self, None) ->
             map Predict.Return (TrajectoryObserver.energies self)
             = map Predict.Return (TrajectoryObserver.energies start)
                 ++ map TrajectoryObserver.get_potential_energy states
             /\ map Predict.Return (TrajectoryObserver.forces self)
                = map Predict.Return (TrajectoryObserver.forces start)
                    ++ map TrajectoryObserver.get_forces states
             /\ map Predict.Return (TrajectoryObserver.stresses self)
                = map Predict.Return (TrajectoryObserver.stresses start)
                    ++ map TrajectoryObserver.get_stress states
             /\ map Predict.Return (TrajectoryObserver.magmoms self)
                = map Predict.Return (TrajectoryObserver.magmoms start)
                    ++ map TrajectoryObserver.get_magnetic_moments states
             /\ TrajectoryObserver.atom_positions self
                = TrajectoryObserver.atom_positions start
                    ++ map TrajectoryObserver.get_positions states
             /\ TrajectoryObserver.cells self
                = TrajectoryObserver.cells start
                    ++ map TrajectoryObserver.get_cell states).
  { clear. induction states as [| atoms states IH]; intros start self H;
      cbn [TrajectoryObserver.observe] in H.
    - injection H as <-. cbn [map]. rewrite !app_nil_r. repeat split.
    - destruct (TrajectoryObserver.__call__ start atoms) as [next [e | ]] eqn:Ec;
        [discriminate H | ].
      apply observer_call_appends in Ec.
      destruct Ec as (energy & f & s & m & He & Hf & Hs & Hm & ->).
      apply IH in H. cbn [TrajectoryObserver.energies TrajectoryObserver.forces
        TrajectoryObserver.stresses TrajectoryObserver.magmoms
        TrajectoryObserver.atom_positions TrajectoryObserver.cells] in H.
      destruct H as (H1 & H2 & H3 & H4 & H5 & H6).
      rewrite H1, H2, H3, H4, H5, H6, !map_app. cbn [map].
      rewrite He, Hf, Hs, Hm, <- !app_assoc. repeat split. }
  apply Hgen in H. cbn [TrajectoryObserver.__init__ TrajectoryObserver.energies
    TrajectoryObserver.forces TrajectoryObserver.stresses TrajectoryObserver.magmoms
    TrajectoryObserver.atom_positions TrajectoryObserver.cells map app] in H.
  destruct H as (H1 & H2 & H3 & H4 & H5 & H6). repeat split; congruence.
Qed.

Lemma trajectory_observer_lists_advance_together_witness :
  exists self,
    TrajectoryObserver.observe TrajectoryObserver.__init__
      [TrajectoryObserver.mk_atoms (Predict.Return 1) (Predict.Return [(0, 0, 0)])
         (Predict.Return [0]) (Predict.Return [1]) [(0, 0, 0)] Tensor.eye3;
       TrajectoryObserver.mk_atoms (Predict.Return 2) (Predict.Return [(1, 0, 0)])
         (Predict.Return [0]) (Predict.Return [1]) [(1, 0, 0)] Tensor.eye3]
    = (self, None)
    /\ TrajectoryObserver.atom_positions self = [[(0, 0, 0)]; [(1, 0, 0)]]
    /\ TrajectoryObserver.cells self = [Tensor.eye3; Tensor.eye3].
Proof.
  destruct (TrajectoryObserver.observe TrajectoryObserver.__init__
              [TrajectoryObserver.mk_atoms (Predict.Return 1) (Predict.Return [(0, 0, 0)])
                 (Predict.Return [0]) (Predict.Return [1]) [(0, 0, 0)] Tensor.eye3;
               TrajectoryObserver.mk_atoms (Predict.Return 2) (Predict.Return [(1, 0, 0)])
                 (Predict.Return [0]) (Predict.Return [1]) [(1, 0, 0)] Tensor.eye3])
    as [self [e | ]] eqn:E; [cbn in E; discriminate E | ].
  exists self. split; [reflexivity | ].
  destruct (trajectory_observer_lists_advance_together _ E)
    as (_ & _ & _ & _ & Hp & Hc).
  split; [rewrite <- Hp | rewrite <- Hc]; reflexivity.
Defined.
